(** * fetch.py: synchronising accepted AtCoder submissions to a local tree

    A shallow embedding of [fetch.py] and the properties of its
    synchronisation engine: the selection of the latest accepted submission
    per problem, the skip-or-fetch decision driven by [metadata.json], the
    extraction of the submitted text from the rendered code widget, and the
    loop that drives them.

    Conventions of the embedding.
    - A Python [str] is a [string]: a sequence of characters with code
      points below 256.  A Python [int] is a [Z].
    - [re] patterns are values of [Re.regex], run by a backtracking matcher
      with Python's priorities (leftmost start, greedy or lazy repetition,
      alternatives from left to right).
    - Code that raises returns [Raise e]; code with effects is a function of
      the [World] (file tree, rendering sessions, trace of effects).
    - Logging and [print] are not modelled. *)

From stdpp Require Import gmap strings list fin_maps pretty.
From Stdlib Require Import ZArith Ascii String Sorting.Sorted Permutation.

Open Scope string_scope.
Open Scope list_scope.
Open Scope Z_scope.

#[local] Arguments String.append !s1 s2 : simpl nomatch.

(** ** Python values *)

Inductive exn : Type :=
| AssertionError
| ValueError
| TypeError
| NoSuchElementException
| WebDriverException.

Inductive outcome (A : Type) : Type :=
| Ok (a : A)
| Raise (e : exn).
Arguments Ok {A} a.
Arguments Raise {A} e.

Definition newline : ascii := ascii_of_nat 10.

(** [needle in hay] on strings. *)
Fixpoint str_in (needle hay : string) : bool :=
  String.prefix needle hay ||
  match hay with
  | EmptyString => false
  | String _ hay' => str_in needle hay'
  end.

Definition is_ascii_digit (c : ascii) : bool :=
  (48 <=? nat_of_ascii c)%nat && (nat_of_ascii c <=? 57)%nat.

(** The characters below 256 that [str.isdigit] accepts: the decimal digits
    and the superscripts one, two and three. *)
Definition is_digit_char (c : ascii) : bool :=
  is_ascii_digit c ||
  (nat_of_ascii c =? 178)%nat || (nat_of_ascii c =? 179)%nat ||
  (nat_of_ascii c =? 185)%nat.

Fixpoint str_all (p : ascii -> bool) (s : string) : bool :=
  match s with
  | EmptyString => true
  | String c s' => p c && str_all p s'
  end.

(** [s.isdigit()]: non-empty and every character a digit. *)
Definition str_isdigit (s : string) : bool :=
  match s with
  | EmptyString => false
  | String _ _ => str_all is_digit_char s
  end.

Fixpoint int_digits (acc : Z) (s : string) : option Z :=
  match s with
  | EmptyString => Some acc
  | String c s' =>
      if is_ascii_digit c
      then int_digits (10 * acc + (Z.of_nat (nat_of_ascii c) - 48)) s'
      else None
  end.

(** [int(s)] for a string that passed [isdigit]: the decimal value, or
    [None] (a [ValueError]) when a superscript digit occurs. *)
Definition py_int (s : string) : option Z :=
  match s with
  | EmptyString => None
  | String _ _ => int_digits 0 s
  end.

Definition py_ord (c : ascii) : Z := Z.of_nat (nat_of_ascii c).

(** [chr(n)], for code points below 256. *)
Definition py_chr (n : Z) : string :=
  String (ascii_of_N (Z.to_N n)) EmptyString.

(** ** Regular expressions

    The fragment of [re] that the program and [html.unescape] use:
    character classes, repetition of a class (greedy or lazy, bounded or
    not), sequence, alternative, capture groups and the anchors. *)

Module Re.

Inductive regex : Type :=
| Eps
| Chr (p : ascii -> bool)
| Rep (p : ascii -> bool) (lo : nat) (hi : option nat) (greedy : bool)
| Seq (r1 r2 : regex)
| Alt (r1 r2 : regex)
| Grp (r : regex)
| Bol
| Eol.

(** Character classes. *)
Definition any : ascii -> bool := fun c => negb (Ascii.eqb c newline).
Definition just (c : ascii) : ascii -> bool := Ascii.eqb c.
Fixpoint one_of (cs : string) (c : ascii) : bool :=
  match cs with
  | EmptyString => false
  | String d cs' => Ascii.eqb c d || one_of cs' c
  end.
Definition none_of (cs : string) : ascii -> bool :=
  fun c => negb (one_of cs c).

(** Quantifiers on a class. *)
Definition star (p : ascii -> bool) : regex := Rep p 0 None true.
Definition plus (p : ascii -> bool) : regex := Rep p 1 None true.
Definition star_lazy (p : ascii -> bool) : regex := Rep p 0 None false.
Definition plus_lazy (p : ascii -> bool) : regex := Rep p 1 None false.
Definition opt (p : ascii -> bool) : regex := Rep p 0 (Some 1%nat) true.

Fixpoint lit (s : string) : regex :=
  match s with
  | EmptyString => Eps
  | String c s' => Seq (Chr (just c)) (lit s')
  end.

(** The state of one match attempt: where it started in the subject, the
    characters consumed so far (latest first) and the groups closed so
    far.  Groups are numbered as they close, which for the patterns here
    (no nested groups) is the order of their opening parentheses. *)
Record mstate : Type := MState {
  start : nat;
  taken : list ascii;
  caps : list string
}.

Definition push (c : ascii) (st : mstate) : mstate :=
  MState (start st) (c :: taken st) (caps st).

Definition close_group (opened closed : mstate) : mstate :=
  let n := (List.length (taken closed) - List.length (taken opened))%nat in
  MState (start closed) (taken closed)
         (caps closed
            ++ [string_of_list_ascii (rev (firstn n (taken closed)))]).

Definition cont : Type := mstate -> string -> option (mstate * string).

Definition orelse {A} (x y : option A) : option A :=
  match x with
  | Some _ => x
  | None => y
  end.

Definition may_take (hi : option nat) : bool :=
  match hi with
  | Some O => false
  | _ => true
  end.

Definition at_start (st : mstate) : bool :=
  (start st =? 0)%nat &&
  match taken st with
  | [] => true
  | _ => false
  end.

(** [$] matches at the end of the subject and before a final newline. *)
Definition at_end (s : string) : bool :=
  match s with
  | EmptyString => true
  | String c EmptyString => Ascii.eqb c newline
  | _ => false
  end.

Fixpoint rep (p : ascii -> bool) (greedy : bool) (k : cont)
    (lo : nat) (hi : option nat) (st : mstate) (s : string) {struct s}
    : option (mstate * string) :=
  let stop :=
    match lo with
    | O => k st s
    | S _ => None
    end in
  let more :=
    match s with
    | EmptyString => None
    | String c s' =>
        if p c && may_take hi
        then rep p greedy k (Nat.pred lo) (Nat.pred <$> hi) (push c st) s'
        else None
    end in
  if greedy then orelse more stop else orelse stop more.

(** [exec r k st s]: match [r] at the front of [s], then continue with
    [k]; on failure of [k] the next way of matching [r] is tried. *)
Fixpoint exec (r : regex) (k : cont) {struct r} : cont :=
  match r with
  | Eps => k
  | Chr p => fun st s =>
      match s with
      | EmptyString => None
      | String c s' => if p c then k (push c st) s' else None
      end
  | Rep p lo hi greedy => rep p greedy k lo hi
  | Seq r1 r2 => exec r1 (exec r2 k)
  | Alt r1 r2 => fun st s => orelse (exec r1 k st s) (exec r2 k st s)
  | Grp r1 => fun st s =>
      exec r1 (fun st' s' => k (close_group st st') s') st s
  | Bol => fun st s => if at_start st then k st s else None
  | Eol => fun st s => if at_end s then k st s else None
  end.

Definition accept : cont := fun st s => Some (st, s).

(** A match object: [group(0)] and the captured groups. *)
Record Match : Type := mkMatch {
  whole : string;
  groups : list string
}.

Definition group (m : Match) (n : nat) : string :=
  match n with
  | O => whole m
  | S n' => nth n' (groups m) EmptyString
  end.

Definition to_match (st : mstate) : Match :=
  mkMatch (string_of_list_ascii (rev (taken st))) (caps st).

Definition match_at (r : regex) (pos : nat) (s : string)
    : option (mstate * string) :=
  exec r accept (MState pos [] []) s.

(** [re.search]: the match at the leftmost position that has one. *)
Fixpoint search_from (r : regex) (pos : nat) (s : string) : option Match :=
  match match_at r pos s with
  | Some (st, _) => Some (to_match st)
  | None =>
      match s with
      | EmptyString => None
      | String _ s' => search_from r (S pos) s'
      end
  end.

Definition search (r : regex) (s : string) : option Match :=
  search_from r 0 s.

(** Scanning for the non-overlapping matches from left to right.  After a
    match of [n] characters the next [n - 1] characters are passed over
    ([skip]).  The patterns here consume at least one character; a match
    of no character counts as none. *)
Fixpoint findall_from (r : regex) (pos skip : nat) (s : string)
    : list string :=
  match s with
  | EmptyString => []
  | String c s' =>
      match skip with
      | S n => findall_from r (S pos) n s'
      | O =>
          match match_at r pos s with
          | Some (st, _) =>
              match taken st with
              | [] => findall_from r (S pos) 0 s'
              | _ :: t =>
                  whole (to_match st)
                    :: findall_from r (S pos) (List.length t) s'
              end
          | None => findall_from r (S pos) 0 s'
          end
      end
  end.

(** [re.findall] for a pattern without groups. *)
Definition findall (r : regex) (s : string) : list string :=
  findall_from r 0 0 s.

Fixpoint sub_from (r : regex) (repl : Match -> string) (pos skip : nat)
    (s : string) : string :=
  match s with
  | EmptyString => EmptyString
  | String c s' =>
      match skip with
      | S n => sub_from r repl (S pos) n s'
      | O =>
          match match_at r pos s with
          | Some (st, _) =>
              match taken st with
              | [] => String c (sub_from r repl (S pos) 0 s')
              | _ :: t =>
                  repl (to_match st)
                    +:+ sub_from r repl (S pos) (List.length t) s'
              end
          | None => String c (sub_from r repl (S pos) 0 s')
          end
      end
  end.

(** [re.sub] with a function as replacement. *)
Definition sub (r : regex) (repl : Match -> string) (s : string) : string :=
  sub_from r repl 0 0 s.

(** [re.sub(pattern, '', s)]. *)
Definition remove (r : regex) (s : string) : string :=
  sub r (fun _ => EmptyString) s.

(** The state after a run of characters was consumed. *)
Fixpoint push_all (s : string) (st : mstate) : mstate :=
  match s with
  | EmptyString => st
  | String c s' => push_all s' (push c st)
  end.

End Re.

(** ** class Submission *)

Module Submission.

(** The six entries of the raw dictionary that [__init__] reads.  The
    other entries of the dictionary are carried along and never read. *)
Record t : Type := Build {
  id : Z;
  contest_id : string;
  problem_id : string;
  epoch_second : Z;
  language : string;
  result : string
}.

(** [r'^(.+?)_(.)$'] *)
Definition split_re : Re.regex :=
  Re.Seq Re.Bol
    (Re.Seq (Re.Grp (Re.plus_lazy Re.any))
       (Re.Seq (Re.lit "_")
          (Re.Seq (Re.Grp (Re.Chr Re.any)) Re.Eol))).

Definition _split_problem_id (self : t) : option Re.Match :=
  Re.search split_re (problem_id self).

Definition get_problem_id_postfix (self : t) : outcome string :=
  match _split_problem_id self with
  | None => Raise AssertionError
  | Some m =>
      let postfix := Re.group m 2 in
      if str_isdigit postfix
      then match py_int postfix with
           | Some n => Ok (py_chr (n + py_ord "a" - 1))
           | None => Raise ValueError
           end
      else Ok postfix
  end.

Definition get_contest_id_from_problem_id (self : t)
    : outcome string :=
  match _split_problem_id self with
  | None => Raise AssertionError
  | Some m => Ok (Re.group m 1)
  end.

Definition is_ac (self : t) : bool := String.eqb (result self) "AC".

End Submission.

(** ** The latest accepted submission per problem *)

Section SortByKey.
Context {A : Type} (key : A -> Z).

(** [list.sort(key=...)] is stable; so is insertion before the first
    element whose key is not smaller. *)
Fixpoint insert_by_key (x : A) (l : list A) : list A :=
  match l with
  | [] => [x]
  | y :: l' =>
      if key x <=? key y then x :: y :: l' else y :: insert_by_key x l'
  end.

Fixpoint sort_by_key (l : list A) : list A :=
  match l with
  | [] => []
  | x :: l' => insert_by_key x (sort_by_key l')
  end.
End SortByKey.

(** A [dict] with [str] keys: the entries in the order of their first
    insertion.  Assigning to a key that is present replaces the value in
    place. *)
Fixpoint dict_set {V : Type} (d : list (string * V)) (k : string) (v : V)
    : list (string * V) :=
  match d with
  | [] => [(k, v)]
  | (k', v') :: d' =>
      if String.eqb k' k then (k', v) :: d' else (k', v') :: dict_set d' k v
  end.

Definition dict_values {V : Type} (d : list (string * V)) : list V :=
  map snd d.

(** [_get_latest_ac_subs_from_atcoder_problems], from the history that the
    query returned on: keep the accepted ones, sort by time, let each
    submission overwrite the entry of its problem.  (The query itself and
    the copy of the history in [results.json] are left out.) *)
Definition _get_latest_ac_subs_from_atcoder_problems
    (results : list Submission.t) : list Submission.t :=
  let subs := results in
  let ac_subs := List.filter (fun sub => Submission.is_ac sub) subs in
  let ac_subs := sort_by_key Submission.epoch_second ac_subs in
  let latest_ac_subs_dic :=
    fold_left (fun d sub => dict_set d (Submission.problem_id sub) sub)
              ac_subs [] in
  dict_values latest_ac_subs_dic.

(** ** html.unescape

    The library function that the extraction calls, after CPython's
    [html/__init__.py].  The table of named references ([html5]) and the
    replacement of a numeric reference are parameters. *)

Module Html.
Import Re.

Definition tab : ascii := ascii_of_nat 9.
Definition formfeed : ascii := ascii_of_nat 12.

Definition hexdigit (c : ascii) : bool :=
  is_ascii_digit c || one_of "abcdefABCDEF" c.

(** [[^\t\n\f <&#;]] *)
Definition name_char : ascii -> bool :=
  none_of (String tab (String newline (String formfeed " <&#;"))).

(** [&(#[0-9]+;?|#[xX][0-9a-fA-F]+;?|[^\t\n\f <&#;]{1,32};?)] *)
Definition charref_re : regex :=
  Seq (lit "&")
    (Grp
       (Alt (Seq (lit "#") (Seq (plus is_ascii_digit) (opt (just ";"))))
          (Alt (Seq (lit "#")
                  (Seq (Chr (one_of "xX"))
                     (Seq (plus hexdigit) (opt (just ";")))))
             (Seq (Rep name_char 1 (Some 32%nat) true) (opt (just ";")))))).

Section Unescape.
Variable html5 : string -> option string.
Variable numeric_charref : string -> string.

(** [for x in range(len(s)-1, 1, -1)]: the longest proper prefix of at
    least two characters that is a name of the table. *)
Fixpoint longest_name (x : nat) (s : string) : option string :=
  match x with
  | O => None
  | S O => None
  | S x' =>
      match html5 (substring 0 x s) with
      | Some v => Some (v +:+ substring x (String.length s - x) s)
      | None => longest_name x' s
      end
  end.

Definition _replace_charref (m : Match) : string :=
  let s := group m 1 in
  match s with
  | String "#" _ => numeric_charref s
  | _ =>
      match html5 s with
      | Some v => v
      | None =>
          match longest_name (String.length s - 1) s with
          | Some v => v
          | None => "&" +:+ s
          end
      end
  end.

Definition unescape (s : string) : string :=
  if negb (str_in "&" s) then s else sub charref_re _replace_charref s.
End Unescape.
End Html.

(** ** The world of the program *)

(** A [Path], component by component.  Contest and problem ids are slugs of
    the platform: each is one component. *)
Abbreviation Path := (list string).

Definition path_div (p : Path) (c : string) : Path := p ++ [c].
Infix "//" := path_div (at level 40, left associativity).

Definition path_name (p : Path) : string := List.last p "".

(** The ancestors of a path and the path itself, as [mkdir(parents=True)]
    creates them. *)
Fixpoint path_chain (p : Path) : list Path :=
  match p with
  | [] => []
  | c :: p' => [c] :: map (cons c) (path_chain p')
  end.

(** What the rendering session finds at a URL: a failed navigation, a page
    without the [submission-code] element, or the [innerHTML] of that
    element. *)
Inductive Page : Type :=
| Unreachable
| NoCodeElement
| CodeElement (inner_html : string).

Inductive WebDriver : Type := Chrome.

Inductive event : Type :=
| EvChrome
| EvGet (url : string)
| EvWriteFile (p : Path)
| EvWriteMetadata (p : Path)
| EvSleep (sec : Z)
| EvQuit.

(** The file tree under the working directory (source files, the
    [metadata.json] ledgers with their parsed content, directories), the
    number of rendering sessions that are open, and the effects so far. *)
Record World : Type := mkWorld {
  files : gmap Path string;
  ledgers : gmap Path (gmap string Submission.t);
  dirs : gset Path;
  sessions : nat;
  trace : list event
}.

Definition M (A : Type) : Type := World -> outcome A * World.

Definition ret {A} (a : A) : M A := fun w => (Ok a, w).

Definition raise {A} (e : exn) : M A := fun w => (Raise e, w).

Definition bind {A B} (m : M A) (f : A -> M B) : M B :=
  fun w =>
    match m w with
    | (Ok a, w') => f a w'
    | (Raise e, w') => (Raise e, w')
    end.

Notation "'let*' x := m 'in' k" := (bind m (fun x => k))
  (at level 10, x name, m at level 100, k at level 200).

Definition lift {A} (r : outcome A) : M A := fun w => (r, w).

Definition log (e : event) (w : World) : World :=
  mkWorld (files w) (ledgers w) (dirs w) (sessions w) (trace w ++ [e]).

(** [problem_dir.mkdir(parents=True, exist_ok=True)] *)
Definition mkdir_parents (p : Path) : M unit := fun w =>
  (Ok tt, mkWorld (files w) (ledgers w) (dirs w ∪ list_to_set (path_chain p))
                  (sessions w) (trace w)).

Definition file_exists (p : Path) : M bool := fun w =>
  (Ok (bool_decide (is_Some (files w !! p))), w).

(** [metadata = {}], replaced by the content of the ledger when it exists. *)
Definition load_metadata (p : Path) : M (gmap string Submission.t) := fun w =>
  (Ok (default ∅ (ledgers w !! p)), w).

Definition write_file (p : Path) (text : string) : M unit := fun w =>
  (Ok tt, log (EvWriteFile p)
            (mkWorld (<[p := text]> (files w)) (ledgers w) (dirs w)
                     (sessions w) (trace w))).

Definition dump_metadata (p : Path) (metadata : gmap string Submission.t)
    : M unit := fun w =>
  (Ok tt, log (EvWriteMetadata p)
            (mkWorld (files w) (<[p := metadata]> (ledgers w)) (dirs w)
                     (sessions w) (trace w))).

Definition sleep (sec : Z) : M unit := fun w => (Ok tt, log (EvSleep sec) w).

(** [webdriver.Chrome()] *)
Definition webdriver_Chrome : M WebDriver := fun w =>
  (Ok Chrome, log EvChrome
                (mkWorld (files w) (ledgers w) (dirs w) (S (sessions w))
                         (trace w))).

(** [driver.quit()] *)
Definition driver_quit (driver : WebDriver) : M unit := fun w =>
  (Ok tt, log EvQuit
            (mkWorld (files w) (ledgers w) (dirs w) (Nat.pred (sessions w))
                     (trace w))).

(** ** The program *)

Definition DIR_SUBMISSION : string := "atcoder-submissions".
Definition WAIT_SEC : Z := 3.

(** [r'<li[^>]*>.*?</li>'] *)
Definition li_re : Re.regex :=
  Re.Seq (Re.lit "<li")
    (Re.Seq (Re.star (Re.none_of ">"))
       (Re.Seq (Re.lit ">") (Re.Seq (Re.star_lazy Re.any) (Re.lit "</li>")))).

(** [r'<[^>]+>'] *)
Definition tag_re : Re.regex :=
  Re.Seq (Re.lit "<") (Re.Seq (Re.plus (Re.none_of ">")) (Re.lit ">")).

(** [r'&nbsp;'] *)
Definition nbsp_re : Re.regex := Re.lit "&nbsp;".

(** [raise f"..."] raises a [TypeError]: a [str] is not an exception. *)
Definition _get_file_path (problem_dir : Path) (lang : string)
    : outcome Path :=
  if str_in "Python" lang || str_in "PyPy" lang
  then Ok (problem_dir // "Main.py")
  else if str_in "Go" lang
  then Ok (problem_dir // "Main.go")
  else Raise TypeError.

Section Program.
Variable html5 : string -> option string.
Variable numeric_charref : string -> string.
Variable web : string -> Page.

(** The text of the submission from the [innerHTML] of the code element
    (the lines of [_get_sub_code] after [get_attribute]). *)
Definition code_of_inner_html (inner_html : string) : string :=
  let list_items := Re.findall li_re inner_html in
  let lines :=
    map (fun li =>
           let line1 := Re.remove tag_re li in
           let line2 := Re.remove nbsp_re line1 in
           let line3 := Html.unescape html5 numeric_charref line2 in
           line3 +:+ String newline "")
        list_items in
  String.concat "" lines.

(** [driver.get(url)] *)
Definition driver_get (driver : WebDriver) (url : string) : M unit :=
  fun w =>
    match web url with
    | Unreachable => (Raise WebDriverException, log (EvGet url) w)
    | _ => (Ok tt, log (EvGet url) w)
    end.

(** [driver.find_element_by_id("submission-code").get_attribute('innerHTML')]
    on the page that [driver.get(url)] loaded. *)
Definition submission_code_inner_html (driver : WebDriver) (url : string)
    : M string :=
  fun w =>
    match web url with
    | CodeElement inner_html => (Ok inner_html, w)
    | _ => (Raise NoSuchElementException, w)
    end.

Definition _get_sub_code (driver : WebDriver) (contest_id : string) (_id : Z)
    : M string :=
  let url := "https://atcoder.jp/contests/" +:+ contest_id
               +:+ "/submissions/" +:+ pretty _id in
  let* _ := driver_get driver url in
  let* inner_html := submission_code_inner_html driver url in
  ret (code_of_inner_html inner_html).

Definition _fetch_sub (sub : Submission.t) (driver : option WebDriver)
    : M (option WebDriver) :=
  let problem_dir :=
    [DIR_SUBMISSION] // Submission.contest_id sub
                     // Submission.problem_id sub in
  let* _ := mkdir_parents problem_dir in
  let* file_path :=
    lift (_get_file_path problem_dir (Submission.language sub)) in
  let metadata_path := problem_dir // "metadata.json" in
  let* metadata := load_metadata metadata_path in
  let* have_file := file_exists file_path in
  let already_fetched :=
    match (if have_file : bool then metadata !! path_name file_path
           else None) with
    | Some msub => Submission.id msub =? Submission.id sub
    | None => false
    end in
  if already_fetched then ret driver
  else
    let* driver :=
      match driver with
      | None => webdriver_Chrome
      | Some d => ret d
      end in
    let* sub_code :=
      _get_sub_code driver (Submission.contest_id sub) (Submission.id sub) in
    let* _ := write_file file_path sub_code in
    let* _ :=
      dump_metadata metadata_path (<[path_name file_path := sub]> metadata) in
    let* _ := sleep WAIT_SEC in
    ret (Some driver).

Fixpoint fetch_loop (subs : list Submission.t) (driver : option WebDriver)
    : M (option WebDriver) :=
  match subs with
  | [] => ret driver
  | sub :: subs' =>
      let* driver := _fetch_sub sub driver in
      fetch_loop subs' driver
  end.

Definition _fetch_from_atcoder (subs : list Submission.t) : M unit :=
  let* driver := fetch_loop subs None in
  match driver with
  | Some d => driver_quit d
  | None => ret tt
  end.
End Program.

(** ** Notions of the specification *)

(** The token after the last underscore of an identifier. *)
Fixpoint final_token (s : string) : string :=
  match s with
  | EmptyString => EmptyString
  | String c s' =>
      if str_in "_" s' then final_token s'
      else if Ascii.eqb c "_" then s' else s
  end.

(** Everything up to the last underscore of an identifier. *)
Fixpoint before_final_underscore (s : string) : string :=
  match s with
  | EmptyString => EmptyString
  | String c s' =>
      if str_in "_" s' then String c (before_final_underscore s')
      else EmptyString
  end.

(** A purely numeric token stands for a letter: 1 for a, 2 for b, ... *)
Definition letter_of_token (tok : string) : string :=
  if str_all is_ascii_digit tok
  then match py_int tok with
       | Some n => py_chr (n + 96)
       | None => tok
       end
  else tok.

(** ** A small platform to run the program on *)

Definition dq : string := String (ascii_of_nat 34) "".

(** Some entries of [html.entities.html5]. *)
Definition html5_sample (name : string) : option string :=
  if String.eqb name "amp;" || String.eqb name "amp" then Some "&"
  else if String.eqb name "lt;" || String.eqb name "lt" then Some "<"
  else if String.eqb name "gt;" || String.eqb name "gt" then Some ">"
  else if String.eqb name "quot;" || String.eqb name "quot" then Some dq
  else None.

Definition numeric_charref_sample (s : string) : string := "?".

(** The code element of submission 2 of [abc]: two lines, [if a<b:] and an
    indented [print(a)]. *)
Definition sample_inner_html : string :=
  "<ol class=" +:+ dq +:+ "linenums" +:+ dq +:+ ">"
  +:+ "<li class=" +:+ dq +:+ "L0" +:+ dq +:+ ">"
  +:+ "<span class=" +:+ dq +:+ "kwd" +:+ dq +:+ ">if</span>"
  +:+ "<span class=" +:+ dq +:+ "pln" +:+ dq +:+ "> a</span>"
  +:+ "<span class=" +:+ dq +:+ "pun" +:+ dq +:+ ">&lt;</span>"
  +:+ "<span class=" +:+ dq +:+ "pln" +:+ dq +:+ ">b</span>"
  +:+ "<span class=" +:+ dq +:+ "pun" +:+ dq +:+ ">:</span></li>"
  +:+ "<li class=" +:+ dq +:+ "L1" +:+ dq +:+ ">"
  +:+ "<span class=" +:+ dq +:+ "pln" +:+ dq +:+ ">&nbsp;   print</span>"
  +:+ "<span class=" +:+ dq +:+ "pun" +:+ dq +:+ ">(</span>"
  +:+ "<span class=" +:+ dq +:+ "pln" +:+ dq +:+ ">a</span>"
  +:+ "<span class=" +:+ dq +:+ "pun" +:+ dq +:+ ">)</span></li></ol>".

(** Submissions 2 and 6 of [abc] show that code; submission 8 shows a code
    element without list items; every other page has no code element. *)
Definition sample_web (url : string) : Page :=
  if String.eqb url "https://atcoder.jp/contests/abc/submissions/2"
     || String.eqb url "https://atcoder.jp/contests/abc/submissions/6"
  then CodeElement sample_inner_html
  else if String.eqb url "https://atcoder.jp/contests/abc/submissions/8"
  then CodeElement "<p>no code</p>"
  else NoCodeElement.

Definition empty_world : World := mkWorld ∅ ∅ ∅ 0 [].

(** The history of the selection scenario. *)
Definition scenario_1 : Submission.t :=
  Submission.Build 1 "abc" "abc_a" 100 "Python (3.8.2)" "AC".
Definition scenario_2 : Submission.t :=
  Submission.Build 2 "abc" "abc_a" 200 "Python (3.8.2)" "AC".
Definition scenario_3 : Submission.t :=
  Submission.Build 3 "abc" "abc_a" 300 "Python (3.8.2)" "WA".

(** An accepted submission in a language without a target file. *)
Definition ruby_sub : Submission.t :=
  Submission.Build 9 "abc" "abc_b" 400 "Ruby (2.7.1)" "AC".

(** The scenario of the skip-or-fetch decision: the ledger of [abc_a] holds
    [Main.py] for submission 5 and the file is on disk. *)
Definition candidate (n : Z) : Submission.t :=
  Submission.Build n "abc" "abc_a" 500 "Python (3.8.2)" "AC".

Definition scenario_world : World :=
  mkWorld {[ [DIR_SUBMISSION; "abc"; "abc_a"; "Main.py"] := "print(1)" ]}
          {[ [DIR_SUBMISSION; "abc"; "abc_a"; "metadata.json"] :=
               {[ "Main.py" := candidate 5 ]} ]}
          (list_to_set (path_chain [DIR_SUBMISSION; "abc"; "abc_a"]))
          0 [].

(** ** A synthetic code widget

    The markup of the round-trip property: one list item per line of the
    source, the text of the line as [innerHTML] writes it, cut into
    highlighting spans, with placeholder tokens between the pieces. *)

Definition html_escape_char (c : ascii) : string :=
  if Ascii.eqb c "&" then "&amp;"
  else if Ascii.eqb c "<" then "&lt;"
  else if Ascii.eqb c ">" then "&gt;"
  else String c "".

Fixpoint html_escape (s : string) : string :=
  match s with
  | EmptyString => EmptyString
  | String c s' => html_escape_char c +:+ html_escape s'
  end.

Inductive span_class : Type := Pln | Kwd | Str | Com | Typ | Lit | Pun.

Definition class_name (c : span_class) : string :=
  match c with
  | Pln => "pln"
  | Kwd => "kwd"
  | Str => "str"
  | Com => "com"
  | Typ => "typ"
  | Lit => "lit"
  | Pun => "pun"
  end.

Inductive token : Type :=
| Text (s : string)
| Placeholder
| SpanOpen (c : span_class)
| SpanClose.

Definition render_token (t : token) : string :=
  match t with
  | Text s => html_escape s
  | Placeholder => "&nbsp;"
  | SpanOpen c => "<span class=" +:+ dq +:+ class_name c +:+ dq +:+ ">"
  | SpanClose => "</span>"
  end.

Definition token_text (t : token) : string :=
  match t with
  | Text s => s
  | _ => EmptyString
  end.

(** The text of a decorated line: its pieces of text, in order. *)
Definition line_text (l : list token) : string :=
  String.concat "" (map token_text l).

Definition line_digit (i : nat) : string :=
  match (i mod 10)%nat with
  | 0%nat => "0"
  | 1%nat => "1"
  | 2%nat => "2"
  | 3%nat => "3"
  | 4%nat => "4"
  | 5%nat => "5"
  | 6%nat => "6"
  | 7%nat => "7"
  | 8%nat => "8"
  | _ => "9"
  end.

Definition render_line (i : nat) (l : list token) : string :=
  "<li class=" +:+ dq +:+ "L" +:+ line_digit i +:+ dq +:+ ">"
  +:+ String.concat "" (map render_token l) +:+ "</li>".

Fixpoint render_lines (i : nat) (ls : list (list token)) : string :=
  match ls with
  | [] => EmptyString
  | l :: ls' => render_line i l +:+ render_lines (S i) ls'
  end.

Definition render_widget (ls : list (list token)) : string :=
  "<ol class=" +:+ dq +:+ "linenums" +:+ dq +:+ ">"
  +:+ render_lines 0 ls +:+ "</ol>".

(** The lines of a text: the pieces between newlines; a final newline ends
    the last line and opens no other. *)
Fixpoint source_lines (s : string) : list string :=
  match s with
  | EmptyString => []
  | String c s' =>
      if Ascii.eqb c newline then EmptyString :: source_lines s'
      else match source_lines s' with
           | [] => [String c EmptyString]
           | l :: ls => String c l :: ls
           end
  end.

(** A text is newline-terminated when it is empty or ends with a newline. *)
Fixpoint newline_terminated (s : string) : bool :=
  match s with
  | EmptyString => true
  | String c EmptyString => Ascii.eqb c newline
  | String _ s' => newline_terminated s'
  end.

(** The directory of a problem, its ledger, and the address of a
    submission's page. *)
Definition problem_dir (sub : Submission.t) : Path :=
  [DIR_SUBMISSION] // Submission.contest_id sub // Submission.problem_id sub.

Definition metadata_path (sub : Submission.t) : Path :=
  problem_dir sub // "metadata.json".

Definition submission_url (sub : Submission.t) : string :=
  "https://atcoder.jp/contests/" +:+ Submission.contest_id sub
    +:+ "/submissions/" +:+ pretty (Submission.id sub).

(** The target file exists on disk, the ledger of the problem has an entry
    for its name, and that entry carries the id of the candidate. *)
Definition already_synchronised (w : World) (sub : Submission.t)
    (file_path : Path) : Prop :=
  is_Some (files w !! file_path) /\
  exists metadata msub,
    ledgers w !! metadata_path sub = Some metadata /\
    metadata !! path_name file_path = Some msub /\
    Submission.id msub = Submission.id sub.

Definition sub_of_pid (pid : string) : Submission.t :=
  Submission.Build 0 "" pid 0 "" "".

(** ** Notions of the proofs *)

Definition key_le {A : Type} (key : A -> Z) (a b : A) : Prop :=
  key a <= key b.

(** The dictionary that the selection builds. *)
Definition build_latest (l : list Submission.t)
    : list (string * Submission.t) :=
  fold_left (fun d sub => dict_set d (Submission.problem_id sub) sub) l [].

(** What follows the first group of [split_re]. *)
Definition split_tail : Re.regex :=
  Re.Seq (Re.lit "_") (Re.Seq (Re.Grp (Re.Chr Re.any)) Re.Eol).

(** The world after each stage of [_fetch_sub]: the directories made, the
    session opened when there was none, the page requested, the code and
    the ledger written. *)
Definition with_dirs (sub : Submission.t) (w : World) : World :=
  mkWorld (files w) (ledgers w)
          (dirs w ∪ list_to_set (path_chain (problem_dir sub)))
          (sessions w) (trace w).

Definition with_session (driver : option WebDriver) (w : World) : World :=
  mkWorld (files w) (ledgers w) (dirs w)
          (match driver with
           | Some _ => sessions w
           | None => S (sessions w)
           end)
          (match driver with
           | Some _ => trace w
           | None => trace w ++ [EvChrome]
           end).

Definition with_get (sub : Submission.t) (w : World) : World :=
  log (EvGet (submission_url sub)) w.

Definition with_code (sub : Submission.t) (file_path : Path) (code : string)
    (w : World) : World :=
  mkWorld (<[file_path := code]> (files w))
          (<[metadata_path sub :=
               <[path_name file_path := sub]>
                 (default ∅ (ledgers w !! metadata_path sub))]> (ledgers w))
          (dirs w) (sessions w)
          (((trace w ++ [EvWriteFile file_path])
              ++ [EvWriteMetadata (metadata_path sub)]) ++ [EvSleep WAIT_SEC]).

Section FetchSubSpec.
Variable html5 : string -> option string.
Variable numeric_charref : string -> string.
Variable web : string -> Page.

(** The five ways through [_fetch_sub]. *)
Inductive fetch_sub_spec (sub : Submission.t) (driver : option WebDriver)
    (w : World) : outcome (option WebDriver) * World -> Prop :=
| FetchUnsupported :
    _get_file_path (problem_dir sub) (Submission.language sub)
      = Raise TypeError ->
    fetch_sub_spec sub driver w (Raise TypeError, with_dirs sub w)
| FetchSkipped file_path :
    _get_file_path (problem_dir sub) (Submission.language sub)
      = Ok file_path ->
    already_synchronised w sub file_path ->
    fetch_sub_spec sub driver w (Ok driver, with_dirs sub w)
| FetchUnreachable file_path :
    _get_file_path (problem_dir sub) (Submission.language sub)
      = Ok file_path ->
    ~ already_synchronised w sub file_path ->
    web (submission_url sub) = Unreachable ->
    fetch_sub_spec sub driver w
      (Raise WebDriverException,
       with_get sub (with_session driver (with_dirs sub w)))
| FetchNoElement file_path :
    _get_file_path (problem_dir sub) (Submission.language sub)
      = Ok file_path ->
    ~ already_synchronised w sub file_path ->
    web (submission_url sub) = NoCodeElement ->
    fetch_sub_spec sub driver w
      (Raise NoSuchElementException,
       with_get sub (with_session driver (with_dirs sub w)))
| FetchDone file_path inner_html :
    _get_file_path (problem_dir sub) (Submission.language sub)
      = Ok file_path ->
    ~ already_synchronised w sub file_path ->
    web (submission_url sub) = CodeElement inner_html ->
    fetch_sub_spec sub driver w
      (Ok (Some Chrome),
       with_code sub file_path
         (code_of_inner_html html5 numeric_charref inner_html)
         (with_get sub (with_session driver (with_dirs sub w)))).
End FetchSubSpec.

(** A submission is settled when a call of [_fetch_sub] for it has nothing
    left to do. *)
Definition settled (w : World) (sub : Submission.t) : Prop :=
  exists file_path,
    _get_file_path (problem_dir sub) (Submission.language sub) = Ok file_path /\
    already_synchronised w sub file_path /\
    list_to_set (path_chain (problem_dir sub)) ⊆ dirs w.

(** [w'] has the files of [w], the ledger of [sub] unchanged and the
    directories of [w]. *)
Definition keeps (sub : Submission.t) (w w' : World) : Prop :=
  (forall p, is_Some (files w !! p) -> is_Some (files w' !! p)) /\
  ledgers w' !! metadata_path sub = ledgers w !! metadata_path sub /\
  dirs w ⊆ dirs w'.

(** A bound of a repetition leaves room for [n] characters. *)
Definition fits (hi : option nat) (n : nat) : Prop :=
  match hi with
  | Some m => (n <= m)%nat
  | None => True
  end.

(** [passes r repl x out]: wherever [x] stands in the subject, the
    substitution turns it into [out] and goes on behind it. *)
Definition passes (r : Re.regex) (repl : Re.Match -> string)
    (x out : string) : Prop :=
  forall pos rest,
    Re.sub_from r repl pos 0 (x +:+ rest)
    = out +:+ Re.sub_from r repl (String.length x + pos) 0 rest.

(** [finds r x outs]: wherever [x] stands in the subject, the scan for
    matches collects [outs] in it and goes on behind it. *)
Definition finds (r : Re.regex) (x : string) (outs : list string) : Prop :=
  forall pos rest,
    Re.findall_from r pos 0 (x +:+ rest)
    = outs ++ Re.findall_from r (String.length x + pos) 0 rest.

(** What is left of a token when the tags are gone, and when the
    placeholders are gone too. *)
Definition without_tags (t : token) : string :=
  match t with
  | Text s => html_escape s
  | Placeholder => "&nbsp;"
  | _ => EmptyString
  end.

Definition without_placeholders (t : token) : string :=
  match t with
  | Text s => html_escape s
  | _ => EmptyString
  end.

Definition blank : Re.Match -> string := fun _ => EmptyString.

Definition not_lt (c : ascii) : bool := negb (Ascii.eqb c "<").

Definition not_amp (c : ascii) : bool := negb (Ascii.eqb c "&").

Definition li_open (i : nat) : string :=
  "<li class=" +:+ dq +:+ "L" +:+ line_digit i +:+ dq +:+ ">".

Definition li_attrs (i : nat) : string :=
  " class=" +:+ dq +:+ "L" +:+ line_digit i +:+ dq.

(** [li_safe x]: the lazy run inside a list item walks over [x] without
    meeting the end of the item. *)
Definition li_safe (x : string) : Prop :=
  forall (k : Re.cont) (st : Re.mstate) (s : string),
    Re.rep Re.any false (Re.exec (Re.lit "</li>") k) 0 None st (x +:+ s)
    = Re.rep Re.any false (Re.exec (Re.lit "</li>") k) 0 None
        (Re.push_all x st) s.

(** The list items of a widget, in order. *)
Fixpoint render_items (i : nat) (ls : list (list token)) : list string :=
  match ls with
  | [] => []
  | l :: ls' => render_line i l :: render_items (S i) ls'
  end.

(** The lines of a text put together again, each with its newline. *)
Definition unlines (ls : list string) : string :=
  String.concat "" (map (fun l => l +:+ String newline "") ls).

(** A source and a widget built from it. *)
Definition sample_source : string :=
  "if a<b:" +:+ String newline "" +:+ String newline ""
  +:+ "    print(a&b)" +:+ String newline "".

Definition sample_lines : list (list token) :=
  [[SpanOpen Kwd; Text "if"; SpanClose; Text " a<b"; Text ":"];
   [Placeholder];
   [SpanOpen Pln; Placeholder; Text "    print"; SpanClose; Text "(a&";
    Placeholder; Text "b)"]].

Abbreviation sample_fetch_sub :=
  (_fetch_sub html5_sample numeric_charref_sample sample_web).
Abbreviation sample_run :=
  (_fetch_from_atcoder html5_sample numeric_charref_sample sample_web).

(** ** Further scenarios *)

(** Two accepted records of [abc_c] at the same time, and an accepted
    record of [abc_d] before them. *)
Definition tie_first : Submission.t :=
  Submission.Build 21 "abc" "abc_c" 700 "Go (1.14.1)" "AC".
Definition tie_second : Submission.t :=
  Submission.Build 22 "abc" "abc_c" 700 "Go (1.14.1)" "AC".
Definition early_other : Submission.t :=
  Submission.Build 20 "abc" "abc_d" 650 "Python (3.8.2)" "AC".

(** A newline, as a string. *)
Definition nl : string := String newline "".

(** ** Counting effects *)

Definition is_get (e : event) : bool :=
  match e with
  | EvGet _ => true
  | _ => false
  end.

Definition is_write_file (e : event) : bool :=
  match e with
  | EvWriteFile _ => true
  | _ => false
  end.

Definition is_write_metadata (e : event) : bool :=
  match e with
  | EvWriteMetadata _ => true
  | _ => false
  end.

Definition is_sleep (e : event) : bool :=
  match e with
  | EvSleep _ => true
  | _ => false
  end.

Definition is_chrome (e : event) : bool :=
  match e with
  | EvChrome => true
  | _ => false
  end.

Definition is_quit (e : event) : bool :=
  match e with
  | EvQuit => true
  | _ => false
  end.

Definition count (f : event -> bool) (evs : list event) : nat :=
  List.length (List.filter f evs).

(** A pause, when the event is one, lasts [WAIT_SEC]. *)
Definition paced (e : event) : Prop :=
  match e with
  | EvSleep sec => sec = WAIT_SEC
  | _ => True
  end.

(** The sessions that a driver value stands for. *)
Definition opened (driver : option WebDriver) : nat :=
  match driver with
  | Some _ => 1
  | None => 0
  end.

(** The target files that a submission can have. *)
Definition target_files (sub : Submission.t) : list Path :=
  [problem_dir sub // "Main.py"; problem_dir sub // "Main.go"].

(** What a run over [subs] may do to the tree: [w'] differs from [w] in no
    file but the target files of [subs] and in no ledger but the ledgers of
    their problems, and there in no entry but those of the target files;
    every file, ledger entry and directory of [w] is still there. *)
Definition grows (subs : list Submission.t) (w w' : World) : Prop :=
  (forall p, (forall sub, In sub subs -> ~ In p (target_files sub)) ->
     files w' !! p = files w !! p) /\
  (forall p, is_Some (files w !! p) -> is_Some (files w' !! p)) /\
  (forall q, (forall sub, In sub subs -> q <> metadata_path sub) ->
     ledgers w' !! q = ledgers w !! q) /\
  (forall q name, name <> "Main.py" -> name <> "Main.go" ->
     (ledgers w' !! q) ≫= (.!! name) = (ledgers w !! q) ≫= (.!! name)) /\
  (forall q name, is_Some ((ledgers w !! q) ≫= (.!! name)) ->
     is_Some ((ledgers w' !! q) ≫= (.!! name))) /\
  dirs w ⊆ dirs w'.

(** ** The command line

    [main] and what it calls before the fetch: the user id from the
    arguments or from [config.toml], the request to the API of AtCoder
    Problems, and the dump of the history to [results.json]. *)

(** The values of a TOML document that the program tells apart: a string,
    a table, and any other value (number, boolean, date, array). *)
#[warnings="-register-all"] Inductive toml : Type :=
| TStr (s : string)
| TTable (entries : list (string * toml))
| TOther.

(** [table.get(key)] *)
Fixpoint toml_get (entries : list (string * toml)) (key : string)
    : option toml :=
  match entries with
  | [] => None
  | (k, v) :: entries' =>
      if String.eqb k key then Some v else toml_get entries' key
  end.

(** The exceptions of [main]: those of the fetch, those of the file system
    and of attribute access, and those that the libraries [toml],
    [requests] and [json] raise, by name. *)
Inductive py_error : Type :=
| Exn (e : exn)
| FileNotFoundError
| AttributeError
| LibraryError (name : string).

Inductive answer (A : Type) : Type :=
| Val (a : A)
| Err (e : py_error).
Arguments Val {A} a.
Arguments Err {A} e.

Definition W (A : Type) : Type := World -> answer A * World.

Definition retW {A} (a : A) : W A := fun w => (Val a, w).

Definition raiseW {A} (e : py_error) : W A := fun w => (Err e, w).

Definition bindW {A B} (m : W A) (f : A -> W B) : W B :=
  fun w =>
    match m w with
    | (Val a, w') => f a w'
    | (Err e, w') => (Err e, w')
    end.

Notation "'let+' x := m 'in' k" := (bindW m (fun x => k))
  (at level 10, x name, m at level 100, k at level 200).

(** A computation of the fetch, among those of [main]. *)
Definition of_M {A} (m : M A) : W A := fun w =>
  match m w with
  | (Ok a, w') => (Val a, w')
  | (Raise e, w') => (Err (Exn e), w')
  end.

(** [open(path, "w")] followed by a write: the directory of the file has to
    be there. *)
Definition open_write (p : Path) (text : string) : W unit := fun w =>
  if bool_decide (removelast p ∈ dirs w)
  then of_M (write_file p text) w
  else (Err FileNotFoundError, w).

Definition api_path : string :=
  "https://kenkoooo.com/atcoder/atcoder-api/results?user=".

Definition config_file : Path := [DIR_SUBMISSION] // "config.toml".

Definition results_file : Path := [DIR_SUBMISSION] // "results.json".

Section Cli.
Variable html5 : string -> option string.
Variable numeric_charref : string -> string.
Variable web : string -> Page.

(** [toml.load] on the text of a file: the document, or the exception of
    the library. *)
Variable toml_load : string -> answer (list (string * toml)).

(** [requests.get(url).json()], with the records as [Submission] reads
    them: the history, or the exception of the request, of the decoding or
    of a record without one of the six entries. *)
Variable requests_get_json : string -> answer (list Submission.t).

(** The text that [_json_dump] writes for a list of submissions. *)
Variable json_dump : list Submission.t -> string.

(** [api_path + user_id] raises a [TypeError] unless [user_id] is a
    [str]; [None] stands for Python's [None]. *)
Definition _get_results_from_atcoder_problems (user_id : option toml)
    : W (list Submission.t) :=
  match user_id with
  | Some (TStr s) => fun w => (requests_get_json (api_path +:+ s), w)
  | _ => raiseW (Exn TypeError)
  end.

(** [_get_latest_ac_subs_from_atcoder_problems(user_id)] as a whole: the
    request, the dump of every submission to [results.json], and the
    selection. *)
Definition latest_ac_subs_of_user (user_id : option toml)
    : W (list Submission.t) :=
  let+ results := _get_results_from_atcoder_problems user_id in
  let+ _ := open_write results_file (json_dump results) in
  retW (_get_latest_ac_subs_from_atcoder_problems results).

(** [with open(config_file) as f: config = toml.load(f)] *)
Definition load_config (p : Path) : W (list (string * toml)) := fun w =>
  match files w !! p with
  | Some text => (toml_load text, w)
  | None => (Err FileNotFoundError, w)
  end.

(** [main(args)], from [args.user_id]. *)
Definition main (args_user_id : option string) : W unit :=
  let+ user_id :=
    match args_user_id with
    | Some s => retW (Some (TStr s))
    | None =>
        let+ have_config := of_M (file_exists config_file) in
        let+ config :=
          if have_config : bool then load_config config_file
          else retW [] in
        match default (TTable []) (toml_get config "atcoder") with
        | TTable config_atcoder => retW (toml_get config_atcoder "user_id")
        | _ => raiseW AttributeError
        end
    end in
  let+ subs := latest_ac_subs_of_user user_id in
  of_M (_fetch_from_atcoder html5 numeric_charref web subs).
End Cli.

(** A platform for [main]: a configuration file with the user id
    [alice], and the history of the selection scenario for that user. *)
Definition toml_load_sample (text : string) : answer (list (string * toml)) :=
  if String.eqb text "[atcoder]"
  then Val [("atcoder", TTable [])]
  else Val [("atcoder", TTable [("user_id", TStr "alice")])].

Definition requests_sample (url : string) : answer (list Submission.t) :=
  if String.eqb url (api_path +:+ "alice")
  then Val [scenario_1; scenario_2; scenario_3]
  else Err (LibraryError "ConnectionError").

Definition json_dump_sample (subs : list Submission.t) : string :=
  String.concat "," (map (fun sub => pretty (Submission.id sub)) subs).

Abbreviation sample_main :=
  (main html5_sample numeric_charref_sample sample_web toml_load_sample
     requests_sample json_dump_sample).

(** A tree with the directory of the submissions and nothing in it. *)
Definition prepared_world : World :=
  mkWorld ∅ ∅ {[ [DIR_SUBMISSION] ]} 0 [].

(** ** Notions of the proofs about [main] *)

(** The user id that [main] passes on: of the arguments, or of the
    configuration file. *)
Definition user_id_of (toml_load : string -> answer (list (string * toml)))
    (args_user_id : option string) : W (option toml) :=
  match args_user_id with
  | Some s => retW (Some (TStr s))
  | None =>
      let+ have_config := of_M (file_exists config_file) in
      let+ config :=
        if have_config : bool then load_config toml_load config_file
        else retW [] in
      match default (TTable []) (toml_get config "atcoder") with
      | TTable config_atcoder => retW (toml_get config_atcoder "user_id")
      | _ => raiseW AttributeError
      end
  end.

(** The world after the dump of the history. *)
Definition with_results (text : string) (w : World) : World :=
  log (EvWriteFile results_file)
      (mkWorld (<[results_file := text]> (files w)) (ledgers w) (dirs w)
               (sessions w) (trace w)).

(** The target file of [sub] in [w']: as it was in [w], or the text of
    the page of [sub]. *)
Definition kept_or_fetched (html5 : string -> option string)
    (numeric_charref : string -> string) (web : string -> Page)
    (w w' : World) (sub : Submission.t) : Prop :=
  exists file_path,
    _get_file_path (problem_dir sub) (Submission.language sub) = Ok file_path /\
    (files w' !! file_path = files w !! file_path \/
     exists inner_html,
       web (submission_url sub) = CodeElement inner_html /\
       files w' !! file_path
       = Some (code_of_inner_html html5 numeric_charref inner_html)).

(** * Properties *)

(** ** Sorting by key *)

Section SortByKeyFacts.
Context {A : Type} (key : A -> Z).

Lemma insert_by_key_perm (x : A) (l : list A) :
  Permutation (insert_by_key key x l) (x :: l).
Proof.
  induction l as [|y l IH]; simpl; [reflexivity|].
  destruct (key x <=? key y); [reflexivity|].
  rewrite IH. apply perm_swap.
Qed.

Lemma sort_by_key_perm (l : list A) : Permutation (sort_by_key key l) l.
Proof.
  induction l as [|x l IH]; simpl; [reflexivity|].
  rewrite insert_by_key_perm. now constructor.
Qed.

Lemma insert_by_key_sorted (x : A) (l : list A) :
  StronglySorted (key_le key) l ->
  StronglySorted (key_le key) (insert_by_key key x l).
Proof.
  induction 1 as [|y l Hs IH Hy]; simpl.
  - repeat constructor.
  - destruct (Z.leb_spec (key x) (key y)) as [Hle|Hgt].
    + constructor; [now constructor|].
      constructor; [exact Hle|].
      eapply List.Forall_impl; [|exact Hy].
      unfold key_le; intros; lia.
    + constructor; [exact IH|].
      eapply Permutation_Forall; [symmetry; apply insert_by_key_perm|].
      constructor; [unfold key_le; lia | exact Hy].
Qed.

Lemma sort_by_key_sorted (l : list A) :
  StronglySorted (key_le key) (sort_by_key key l).
Proof.
  induction l as [|x l IH]; simpl; [constructor|].
  now apply insert_by_key_sorted.
Qed.

Lemma sort_by_key_In (x : A) (l : list A) :
  In x (sort_by_key key l) <-> In x l.
Proof.
  split; apply Permutation_in; [|symmetry]; apply sort_by_key_perm.
Qed.

(** In a sorted list, what stands before an element has no greater key. *)
Lemma sorted_before (l1 l2 : list A) (x y : A) :
  StronglySorted (key_le key) (l1 ++ x :: l2) -> In y l1 -> key y <= key x.
Proof.
  induction l1 as [|z l1 IH]; simpl; [tauto|].
  intros Hs [->|Hin].
  - apply StronglySorted_inv in Hs as [_ Hall].
    rewrite List.Forall_forall in Hall. apply Hall.
    apply in_or_app. right. now left.
  - apply IH; [|exact Hin]. now apply StronglySorted_inv in Hs as [Hs _].
Qed.
End SortByKeyFacts.

(** ** Dictionaries *)

Section DictFacts.
Context {V : Type}.
Implicit Types (d : list (string * V)) (k : string) (v : V).

Lemma dict_set_In_new d k v : In (k, v) (dict_set d k v).
Proof.
  induction d as [|[k' v'] d IH]; simpl; [now left|].
  destruct (String.eqb_spec k' k) as [->|Hne]; [now left | now right].
Qed.

Lemma dict_set_In_inv d k v k0 v0 :
  In (k0, v0) (dict_set d k v) -> (k0, v0) = (k, v) \/ In (k0, v0) d.
Proof.
  induction d as [|[k' v'] d IH]; simpl.
  - intros [H|[]]. now left.
  - destruct (String.eqb_spec k' k) as [->|Hne]; simpl.
    + intros [H|H]; [left; congruence | right; now right].
    + intros [H|H]; [right; now left|].
      destruct (IH H) as [?|?]; [now left | right; now right].
Qed.

Lemma dict_set_keys d k v :
  map fst (dict_set d k v) = map fst d \/
  (~ In k (map fst d) /\ map fst (dict_set d k v) = map fst d ++ [k]).
Proof.
  induction d as [|[k' v'] d IH]; simpl.
  - right. split; [tauto | reflexivity].
  - destruct (String.eqb_spec k' k) as [->|Hne]; simpl; [now left|].
    destruct IH as [->|[Hnin ->]]; [now left|].
    right. split; [|reflexivity]. intros [?|?]; [congruence | tauto].
Qed.

Lemma dict_set_NoDup d k v :
  List.NoDup (map fst d) -> List.NoDup (map fst (dict_set d k v)).
Proof.
  intros Hnd. destruct (dict_set_keys d k v) as [->|[Hnin ->]]; [exact Hnd|].
  eapply Permutation_NoDup; [apply Permutation_cons_append|].
  now constructor.
Qed.

Lemma dict_NoDup_functional d k v1 v2 :
  List.NoDup (map fst d) -> In (k, v1) d -> In (k, v2) d -> v1 = v2.
Proof.
  induction d as [|[k' v'] d IH]; simpl; [tauto|].
  intros Hnd H1 H2. apply List.NoDup_cons_iff in Hnd as [Hnin Hnd].
  destruct H1 as [H1|H1], H2 as [H2|H2].
  - congruence.
  - exfalso. apply Hnin. injection H1 as -> ->.
    change k with (fst (k, v2)). now apply in_map.
  - exfalso. apply Hnin. injection H2 as -> ->.
    change k with (fst (k, v1)). now apply in_map.
  - now apply IH.
Qed.
End DictFacts.

(** ** The selection *)

Lemma build_latest_snoc (l : list Submission.t) (a : Submission.t) :
  build_latest (l ++ [a]) =
  dict_set (build_latest l) (Submission.problem_id a) a.
Proof. unfold build_latest. now rewrite fold_left_app. Qed.

(** Each entry of the dictionary holds the last submission of its problem
    in the list that was folded. *)
Lemma build_latest_spec (l : list Submission.t) :
  List.NoDup (map fst (build_latest l)) /\
  forall k v, In (k, v) (build_latest l) ->
    Submission.problem_id v = k /\
    exists l1 l2, l = l1 ++ v :: l2 /\
      forall x, In x l2 -> Submission.problem_id x <> k.
Proof.
  induction l as [|a l [IHnd IH]] using rev_ind.
  - split; [constructor | intros k v []].
  - rewrite build_latest_snoc.
    assert (Hnd : List.NoDup (map fst
              (dict_set (build_latest l) (Submission.problem_id a) a)))
      by now apply dict_set_NoDup.
    split; [exact Hnd|].
    intros k v Hin.
    destruct (String.eqb_spec (Submission.problem_id a) k) as [Hk|Hk].
    + subst k.
      assert (v = a) as ->.
      { eapply dict_NoDup_functional; [exact Hnd | exact Hin |].
        apply dict_set_In_new. }
      split; [reflexivity|]. exists l, []. split; [reflexivity|]. intros x [].
    + apply dict_set_In_inv in Hin as [Heq|Hin]; [congruence|].
      destruct (IH k v Hin) as (Hpid & l1 & l2 & -> & Hl2).
      split; [exact Hpid|].
      exists l1, (l2 ++ [a]). split; [now rewrite <- app_assoc|].
      intros x Hx. apply in_app_or in Hx as [Hx|[<-|[]]]; [now apply Hl2|].
      exact Hk.
Qed.

(** The values of the dictionary: one per problem, each the latest accepted
    record of its problem. *)
Lemma latest_ac_subs_spec (results : list Submission.t) :
  let out := _get_latest_ac_subs_from_atcoder_problems results in
  List.NoDup (map Submission.problem_id out) /\
  forall r, In r out ->
    In r results /\ Submission.result r = "AC" /\
    forall r', In r' results -> Submission.result r' = "AC" ->
      Submission.problem_id r' = Submission.problem_id r ->
      Submission.epoch_second r' <= Submission.epoch_second r.
Proof.
  cbv zeta. unfold _get_latest_ac_subs_from_atcoder_problems, dict_values.
  fold (build_latest
          (sort_by_key Submission.epoch_second
             (List.filter (fun sub => Submission.is_ac sub) results))).
  set (acs := sort_by_key Submission.epoch_second _).
  destruct (build_latest_spec acs) as [Hnd Hspec].
  assert (Hac : forall r, In r acs <->
            In r results /\ Submission.result r = "AC").
  { intros r. unfold acs. rewrite sort_by_key_In, filter_In.
    unfold Submission.is_ac. now rewrite String.eqb_eq. }
  split.
  - rewrite map_map.
    erewrite map_ext_in; [exact Hnd|].
    intros [k v] Hin. simpl. now destruct (Hspec k v Hin).
  - intros r Hr. apply in_map_iff in Hr as ([k v] & <- & Hin). simpl.
    destruct (Hspec k v Hin) as (Hpid & l1 & l2 & Hl & Hl2).
    assert (Hv : In v acs) by (rewrite Hl; apply in_or_app; right; now left).
    apply Hac in Hv as [Hv1 Hv2]. split; [exact Hv1|]. split; [exact Hv2|].
    intros r' Hr' Hacc Hsame.
    assert (Hin' : In r' acs) by now apply Hac.
    rewrite Hl in Hin'. apply in_app_or in Hin' as [Hin'|[->|Hin']].
    + eapply (sorted_before Submission.epoch_second l1 l2).
      * rewrite <- Hl. apply sort_by_key_sorted.
      * exact Hin'.
    + lia.
    + exfalso. apply (Hl2 r' Hin'). congruence.
Qed.

(** C1. For every history, the selection holds at most one record per
    problem id; each selected record is an accepted record of the history
    whose [epoch_second] is the greatest among the accepted records of the
    history with that problem id.  On the history of the scenario (two
    accepted submissions of [abc_a] at 100 and 200, one rejected at 300) the
    selection is the record with id 2. *)
Theorem latest_ac_selection (results : list Submission.t) :
  let out := _get_latest_ac_subs_from_atcoder_problems results in
  List.NoDup (map Submission.problem_id out) /\
  (forall r, In r out ->
     In r results /\ Submission.result r = "AC" /\
     forall r', In r' results -> Submission.result r' = "AC" ->
       Submission.problem_id r' = Submission.problem_id r ->
       Submission.epoch_second r' <= Submission.epoch_second r) /\
  _get_latest_ac_subs_from_atcoder_problems
    [scenario_1; scenario_2; scenario_3] = [scenario_2].
Proof.
  intros out. destruct (latest_ac_subs_spec results) as [Hnd Hmax].
  split; [exact Hnd|]. split; [exact Hmax|]. vm_compute. reflexivity.
Qed.

(** ** Strings *)

Lemma string_of_list_ascii_app (l1 l2 : list ascii) :
  string_of_list_ascii (l1 ++ l2) =
  string_of_list_ascii l1 +:+ string_of_list_ascii l2.
Proof. induction l1 as [|c l1 IH]; simpl; [|rewrite IH]; reflexivity. Qed.

Lemma append_assoc (s1 s2 s3 : string) :
  (s1 +:+ s2) +:+ s3 = s1 +:+ (s2 +:+ s3).
Proof. induction s1 as [|c s1 IH]; simpl; [|rewrite IH]; reflexivity. Qed.

Lemma list_ascii_of_string_app (s1 s2 : string) :
  list_ascii_of_string (s1 +:+ s2)
  = list_ascii_of_string s1 ++ list_ascii_of_string s2.
Proof. induction s1 as [|c s1 IH]; simpl; [|rewrite IH]; reflexivity. Qed.

Lemma length_list_ascii_of_string (s : string) :
  List.length (list_ascii_of_string s) = String.length s.
Proof. induction s as [|c s IH]; simpl; [|rewrite IH]; reflexivity. Qed.

Lemma take_all_but_last {A : Type} (t : list A) (a : A) :
  firstn (List.length (t ++ [a]) - List.length [a]) (t ++ [a]) = t.
Proof.
  rewrite length_app. cbn [List.length].
  replace (List.length t + 1 - 1)%nat with (List.length t) by lia.
  rewrite firstn_app, Nat.sub_diag, firstn_all. cbn [firstn].
  apply app_nil_r.
Qed.

Lemma append_empty_r (s : string) : s +:+ "" = s.
Proof. induction s as [|c s IH]; simpl; [|rewrite IH]; reflexivity. Qed.

(** ** The matcher *)

Module ReFacts.
Import Re.

Lemma rep_exhausted p greedy k st s :
  rep p greedy k 0 (Some 0%nat) st s = k st s.
Proof.
  destruct s as [|c s]; simpl.
  - now destruct greedy, (k st EmptyString).
  - rewrite andb_false_r. now destruct greedy, (k st (String c s)).
Qed.

Lemma exec_lit (l : string) k st s :
  exec (lit l) k st (l +:+ s) = k (push_all l st) s.
Proof.
  revert st. induction l as [|c l IH]; intros st; simpl; [reflexivity|].
  unfold just. now rewrite Ascii.eqb_refl, IH.
Qed.

Lemma taken_push_all (s : string) st :
  taken (push_all s st) = rev (list_ascii_of_string s) ++ taken st.
Proof.
  revert st. induction s as [|c s IH]; intros st; simpl; [reflexivity|].
  rewrite IH. simpl. now rewrite <- app_assoc.
Qed.

Lemma start_push_all (s : string) st : start (push_all s st) = start st.
Proof. revert st. induction s; intros; simpl; [|rewrite IHs]; reflexivity. Qed.

Lemma caps_push_all (s : string) st : caps (push_all s st) = caps st.
Proof. revert st. induction s; intros; simpl; [|rewrite IHs]; reflexivity. Qed.
End ReFacts.

(** ** Problem ids *)

Section SplitProblemId.
Import Re ReFacts.

Variable c : ascii.
Hypothesis c_not_newline : c <> newline.

Lemma any_c : any c = true.
Proof.
  unfold any.
  destruct (Ascii.eqb_spec c newline); [contradiction | reflexivity].
Qed.

Lemma split_tail_early k st a q :
  exec split_tail k st (String a (q +:+ "_" +:+ String c "")) = None.
Proof.
  unfold split_tail. cbn [exec lit].
  destruct (just "_" a); [|reflexivity].
  destruct q as [|b q]; cbn [String.append].
  - destruct (any "_"); [|reflexivity]. cbn [at_end].
    destruct (Ascii.eqb_spec c newline); [contradiction | reflexivity].
  - destruct (any b); [|reflexivity]. now destruct q as [|? [|? ?]].
Qed.

Lemma split_tail_last st :
  exec split_tail accept st ("_" +:+ String c "") =
  Some (close_group (push "_" st) (push c (push "_" st)), "").
Proof.
  unfold split_tail. cbn [exec lit String.append].
  unfold just at 1. rewrite Ascii.eqb_refl, any_c. reflexivity.
Qed.

Lemma lazy_walk (p : string) k (f : mstate -> mstate) st r :
  str_all any p = true ->
  exec split_tail k (f (push_all p st)) ("_" +:+ String c "") = Some r ->
  rep any false (fun st' s' => exec split_tail k (f st') s') 0 None st
      (p +:+ "_" +:+ String c "") = Some r.
Proof.
  revert st. induction p as [|a p IH]; intros st Hp Hr.
  - cbn [String.append push_all] in *. unfold rep at 1. now rewrite Hr.
  - cbn [str_all] in Hp. apply andb_prop in Hp as [Ha Hp].
    cbn [String.append push_all] in *. cbn [rep].
    rewrite split_tail_early. cbn [orelse]. rewrite Ha. cbn [andb may_take].
    cbn [Nat.pred fmap option_fmap option_map]. now apply IH.
Qed.

Lemma search_split (p : string) :
  p <> "" -> str_all any p = true ->
  search Submission.split_re (p +:+ "_" +:+ String c "") =
  Some (mkMatch (p +:+ "_" +:+ String c "") [p; String c ""]).
Proof.
  intros Hne Hp. destruct p as [|a p]; [contradiction|].
  cbn [str_all] in Hp. apply andb_prop in Hp as [Ha Hp].
  unfold search, Submission.split_re.
  fold split_tail. cbn [String.append].
  cbn [search_from match_at exec at_start start taken Nat.eqb andb].
  unfold plus_lazy. cbn [exec rep orelse].
  rewrite Ha. cbn [andb may_take Nat.pred fmap option_fmap option_map].
  erewrite (lazy_walk p accept
             (fun st' => close_group (MState 0 [] []) st'));
    [|exact Hp|apply split_tail_last].
  f_equal. unfold to_match, close_group.
  cbn [taken caps start push app List.length].
  rewrite !taken_push_all, !caps_push_all. cbn [taken caps push].
  set (t := rev (list_ascii_of_string p) ++ [a]).
  assert (Ht : rev t = a :: list_ascii_of_string p)
    by (unfold t; now rewrite rev_app_distr, rev_involutive).
  replace (S (S (List.length t)) - S (List.length t))%nat with 1%nat by lia.
  rewrite Nat.sub_0_r, firstn_all. cbn [firstn rev app].
  rewrite Ht. cbn [app string_of_list_ascii].
  rewrite !string_of_list_ascii_app, string_of_list_ascii_of_string.
  now rewrite append_assoc.
Qed.
End SplitProblemId.

Lemma split_at_final_underscore (s : string) :
  str_in "_" s = true ->
  s = before_final_underscore s +:+ "_" +:+ final_token s.
Proof.
  induction s as [|a s IH]; [discriminate|].
  cbn [str_in final_token before_final_underscore String.prefix].
  destruct (str_in "_" s).
  - intros _. rewrite (IH eq_refl) at 1. reflexivity.
  - rewrite orb_false_r.
    destruct (ascii_dec "_" a) as [<-|Hne]; [reflexivity|].
    discriminate.
Qed.

Lemma letter_of_digit (ch : ascii) :
  is_ascii_digit ch = true ->
  letter_of_token (String ch "") = py_chr (py_ord ch - 48 + py_ord "a" - 1).
Proof.
  intros Hd. unfold letter_of_token. cbn [str_all py_int int_digits].
  rewrite Hd. cbn [andb]. unfold py_ord. f_equal.
  change (Z.of_nat (nat_of_ascii "a")) with 97. lia.
Qed.

(** C8, as amended. When the token after the last underscore of the
    problem id is a single character (not a newline, not a superscript
    digit) and what stands before that underscore is not empty and has no
    newline, [get_problem_id_postfix] returns that token, a decimal digit
    replaced by its letter (1 by a, 2 by b, ...), and
    [get_contest_id_from_problem_id] returns everything before that
    underscore.  So [codefestival_2016_qualB_a] gives [a] and
    [codefestival_2016_qualB], and a token [3] gives [c]. *)
Theorem problem_id_split (self : Submission.t) (ch : ascii) :
  let pid := Submission.problem_id self in
  str_in "_" pid = true ->
  final_token pid = String ch "" ->
  ch <> newline ->
  is_digit_char ch = is_ascii_digit ch ->
  before_final_underscore pid <> "" ->
  str_all Re.any (before_final_underscore pid) = true ->
  Submission.get_problem_id_postfix self
    = Ok (letter_of_token (final_token pid)) /\
  Submission.get_contest_id_from_problem_id self =
    Ok (before_final_underscore pid) /\
  Submission.get_problem_id_postfix (sub_of_pid "codefestival_2016_qualB_a")
    = Ok "a" /\
  Submission.get_contest_id_from_problem_id
    (sub_of_pid "codefestival_2016_qualB_a") = Ok "codefestival_2016_qualB" /\
  Submission.get_problem_id_postfix (sub_of_pid "practice_3") = Ok "c".
Proof.
  intros pid Hus Htok Hnl Hdig Hne Hany.
  assert (Hm : Submission._split_problem_id self =
               Some (Re.mkMatch pid
                       [before_final_underscore pid; String ch ""])).
  { unfold Submission._split_problem_id. fold pid.
    pose proof (split_at_final_underscore pid Hus) as Hsplit.
    rewrite Htok in Hsplit.
    pose proof (search_split ch Hnl (before_final_underscore pid) Hne Hany)
      as Hs.
    now rewrite <- Hsplit in Hs. }
  split; [|split; [|repeat split; vm_compute; reflexivity]].
  - unfold Submission.get_problem_id_postfix. rewrite Hm, Htok.
    cbn [Re.group nth Re.groups str_isdigit str_all]. rewrite andb_true_r, Hdig.
    destruct (is_ascii_digit ch) eqn:Hd.
    + rewrite letter_of_digit by exact Hd.
      cbn [py_int int_digits]. now rewrite Hd.
    + unfold letter_of_token. cbn [str_all]. now rewrite Hd.
  - unfold Submission.get_contest_id_from_problem_id. now rewrite Hm.
Qed.

Lemma problem_id_split_witness :
  Submission.get_problem_id_postfix (sub_of_pid "abc123_2") = Ok "b" /\
  Submission.get_contest_id_from_problem_id (sub_of_pid "abc123_2")
    = Ok "abc123".
Proof.
  destruct (problem_id_split (sub_of_pid "abc123_2") "2") as (H1 & H2 & _);
    try reflexivity; try discriminate.
  split; [exact H1 | exact H2].
Defined.

(** The claim C8 as it was written fails: an identifier with an underscore
    whose last token has two characters, such as [typical90_aa], is
    rejected by the assertion. *)
Lemma problem_id_long_token_rejected :
  ~ (forall self : Submission.t,
       let pid := Submission.problem_id self in
       str_in "_" pid = true ->
       Submission.get_problem_id_postfix self
         = Ok (letter_of_token (final_token pid)) /\
       Submission.get_contest_id_from_problem_id self
         = Ok (before_final_underscore pid)).
Proof.
  intros H. destruct (H (sub_of_pid "typical90_aa") eq_refl) as [H1 _].
  vm_compute in H1. discriminate.
Qed.

(** ** One step of the loop *)

Section FetchSub.
Variable html5 : string -> option string.
Variable numeric_charref : string -> string.
Variable web : string -> Page.

Abbreviation fetch_sub := (_fetch_sub html5 numeric_charref web).
Abbreviation extract := (code_of_inner_html html5 numeric_charref).

Lemma already_fetched_iff (w : World) sub file_path :
  match (if bool_decide (is_Some (files w !! file_path))
         then default ∅ (ledgers w !! metadata_path sub)
                !! path_name file_path
         else None) with
  | Some msub => Submission.id msub =? Submission.id sub
  | None => false
  end = true <-> already_synchronised w sub file_path.
Proof.
  unfold already_synchronised. case_bool_decide as Hfile.
  - destruct (ledgers w !! metadata_path sub) as [metadata|] eqn:Hmd;
      cbn [from_option id].
    + destruct (metadata !! path_name file_path) as [msub|] eqn:Hm.
      * rewrite Z.eqb_eq. split.
        -- intros Hid. split; [exact Hfile|]. now exists metadata, msub.
        -- intros (_ & metadata' & msub' & Heq & Hm' & Hid). congruence.
      * split; [discriminate|].
        intros (_ & metadata' & msub' & Heq & Hm' & Hid). congruence.
    + rewrite lookup_empty. split; [discriminate|].
      intros (_ & metadata' & msub' & Heq & _). discriminate.
  - split; [discriminate|]. intros [Hsome _]. contradiction.
Qed.

Lemma fetch_sub_cases sub driver w :
  fetch_sub_spec html5 numeric_charref web sub driver w
    (fetch_sub sub driver w).
Proof.
  unfold _fetch_sub.
  fold (problem_dir sub). fold (metadata_path sub).
  unfold bind at 1. cbn [mkdir_parents]. fold (with_dirs sub w).
  unfold bind at 1, lift at 1.
  destruct (_get_file_path (problem_dir sub) (Submission.language sub))
    as [file_path|e] eqn:Hfp.
  2:{ assert (e = TypeError) as ->.
      { unfold _get_file_path in Hfp.
        destruct (_ || _) in Hfp; [discriminate|].
        destruct (str_in "Go" _) in Hfp; congruence. }
      now constructor. }
  unfold bind at 1. cbn [load_metadata]. unfold bind at 1. cbn [file_exists].
  change (files (with_dirs sub w)) with (files w).
  change (ledgers (with_dirs sub w)) with (ledgers w).
  pose proof (already_fetched_iff w sub file_path) as Hiff.
  destruct (match _ with Some _ => _ | None => false end) eqn:Hb.
  { eapply FetchSkipped; [exact Hfp | now apply Hiff]. }
  assert (Hns : ~ already_synchronised w sub file_path)
    by (rewrite <- Hiff; discriminate).
  clear Hb Hiff.
  assert (Hdrv : forall k : WebDriver -> M (option WebDriver),
            bind (match driver with
                  | Some d => ret d
                  | None => webdriver_Chrome
                  end) k (with_dirs sub w)
            = k Chrome (with_session driver (with_dirs sub w))).
  { intros k. destruct driver as [[]|]; reflexivity. }
  rewrite Hdrv. unfold _get_sub_code. fold (submission_url sub).
  unfold bind, driver_get, submission_code_inner_html.
  fold (with_get sub (with_session driver (with_dirs sub w))).
  destruct (web (submission_url sub)) as [| |inner_html] eqn:Hweb.
  - eapply FetchUnreachable; eassumption.
  - eapply FetchNoElement; eassumption.
  - cbv beta iota delta [ret write_file dump_metadata sleep].
    eapply (FetchDone _ _ _ _ _ _ file_path inner_html); assumption.
Qed.

Lemma path_name_div (p : Path) (c : string) : path_name (p // c) = c.
Proof. apply last_last. Qed.

Lemma path_div_inj (p : Path) (c1 c2 : string) :
  p // c1 = p // c2 -> c1 = c2.
Proof. intros H. apply app_inv_head in H. congruence. Qed.

(** ** The target file *)

(** C7, as amended. [_get_file_path] returns [Main.py] exactly when the
    label contains [Python] or [PyPy]; it returns [Main.go] exactly when
    the label contains [Go] and neither [Python] nor [PyPy]; for every
    other label it raises, and [_fetch_sub] then raises before any
    rendering activity, with no file and no ledger written. *)
Theorem target_file_by_language (problem_dir0 : Path) (lang : string) :
  (_get_file_path problem_dir0 lang = Ok (problem_dir0 // "Main.py") <->
     str_in "Python" lang = true \/ str_in "PyPy" lang = true) /\
  (_get_file_path problem_dir0 lang = Ok (problem_dir0 // "Main.go") <->
     str_in "Go" lang = true /\
     str_in "Python" lang = false /\ str_in "PyPy" lang = false) /\
  (str_in "Python" lang = false -> str_in "PyPy" lang = false ->
   str_in "Go" lang = false ->
     _get_file_path problem_dir0 lang = Raise TypeError /\
     forall sub driver w,
       Submission.language sub = lang ->
       let res := fetch_sub sub driver w in
       fst res = Raise TypeError /\
       files (snd res) = files w /\ ledgers (snd res) = ledgers w /\
       sessions (snd res) = sessions w /\ trace (snd res) = trace w).
Proof.
  assert (Hne : forall c1 c2 : string,
            c1 <> c2 ->
            Ok (problem_dir0 // c1) <> Ok (problem_dir0 // c2)).
  { intros c1 c2 Hc H. injection H as H. now apply path_div_inj in H. }
  assert (Hpygo : "Main.py" <> "Main.go") by discriminate.
  assert (Hgopy : "Main.go" <> "Main.py") by discriminate.
  unfold _get_file_path. split; [|split].
  - destruct (str_in "Python" lang), (str_in "PyPy" lang),
      (str_in "Go" lang); cbn [orb]; split; intros H;
      try reflexivity; try tauto; try discriminate H;
      try (now apply Hne in H); intuition discriminate.
  - destruct (str_in "Python" lang), (str_in "PyPy" lang),
      (str_in "Go" lang); cbn [orb]; split; intros H;
      try reflexivity; try tauto; try discriminate H;
      try (now apply Hne in H); intuition discriminate.
  - intros Hpy Hpp Hgo. rewrite Hpy, Hpp, Hgo. cbn [orb].
    split; [reflexivity|].
    intros sub driver w Hlang.
    destruct (fetch_sub_cases sub driver w)
      as [Hfp|fp Hfp|fp Hfp|fp Hfp|fp ? Hfp];
      try (exfalso; revert Hfp; unfold _get_file_path;
           rewrite Hlang, Hpy, Hpp, Hgo; discriminate).
    repeat split.
Qed.

(** ** Skip or fetch *)

Lemma already_synchronised_scenario :
  already_synchronised scenario_world (candidate 5)
    (problem_dir (candidate 5) // "Main.py") /\
  ~ already_synchronised scenario_world (candidate 6)
    (problem_dir (candidate 6) // "Main.py").
Proof.
  split.
  - split; [now eexists|].
    eexists _, (candidate 5). repeat split; reflexivity.
  - intros (_ & metadata & msub & Hmd & Hm & Hid).
    vm_compute in Hmd. injection Hmd as <-.
    vm_compute in Hm. injection Hm as <-. discriminate Hid.
Qed.

(** C2. When the target file of the candidate is [file_path], the call
    skips the fetch (it returns the driver it was given, and leaves the
    files, the ledgers, the sessions and the trace of effects as they
    were) if and only if the file exists, the ledger of the problem has
    an entry for the name of the file, and that entry has the id of the
    candidate.  In every other case the page of the submission is
    requested.  With the ledger entry of [Main.py] at id 5 and the file
    present, candidate 5 is skipped and candidate 6 is fetched. *)
Theorem skip_or_fetch sub driver w file_path :
  _get_file_path (problem_dir sub) (Submission.language sub) = Ok file_path ->
  let res := fetch_sub sub driver w in
  (already_synchronised w sub file_path <->
     fst res = Ok driver /\
     files (snd res) = files w /\ ledgers (snd res) = ledgers w /\
     sessions (snd res) = sessions w /\ trace (snd res) = trace w) /\
  (~ already_synchronised w sub file_path ->
     exists evs,
       trace (snd res) =
       trace (with_session driver w) ++ EvGet (submission_url sub) :: evs) /\
  (let res5 := fetch_sub (candidate 5) None scenario_world in
   fst res5 = Ok None /\ trace (snd res5) = [] /\
   files (snd res5) = files scenario_world /\
   ledgers (snd res5) = ledgers scenario_world) /\
  (let res6 := fetch_sub (candidate 6) None scenario_world in
   In (EvGet (submission_url (candidate 6))) (trace (snd res6))).
Proof.
  assert (Hgen : forall sub driver w file_path,
    _get_file_path (problem_dir sub) (Submission.language sub)
      = Ok file_path ->
    (already_synchronised w sub file_path ->
       fst (fetch_sub sub driver w) = Ok driver /\
       files (snd (fetch_sub sub driver w)) = files w /\
       ledgers (snd (fetch_sub sub driver w)) = ledgers w /\
       sessions (snd (fetch_sub sub driver w)) = sessions w /\
       trace (snd (fetch_sub sub driver w)) = trace w) /\
    (~ already_synchronised w sub file_path ->
       exists evs,
         trace (snd (fetch_sub sub driver w)) =
         trace (with_session driver w)
           ++ EvGet (submission_url sub) :: evs)).
  { clear. intros sub driver w file_path Hfp.
    destruct (fetch_sub_cases sub driver w)
      as [Hfp'|fp Hfp' Hs|fp Hfp' Hs Hweb|fp Hfp' Hs Hweb
          |fp inner_html Hfp' Hs Hweb];
      rewrite Hfp in Hfp'; try discriminate Hfp';
      injection Hfp' as <-; (split; [intros Hs'|intros Hs']);
      try contradiction; try (repeat split; fail).
    - exists []. reflexivity.
    - exists []. reflexivity.
    - eexists. cbn [snd with_code with_get log trace].
      rewrite <- !app_assoc. reflexivity. }
  intros Hfp res. subst res.
  destruct (Hgen sub driver w file_path Hfp) as [Hskip Hfetch].
  split; [|split; [exact Hfetch|split]].
  - split; [exact Hskip|].
    intros (_ & _ & _ & _ & Htrace).
    destruct (fetch_sub_cases sub driver w)
      as [Hfp'|fp Hfp' Hs|fp Hfp' Hs Hweb|fp Hfp' Hs Hweb
          |fp inner_html Hfp' Hs Hweb];
      rewrite Hfp in Hfp'; try discriminate Hfp';
      injection Hfp' as <-; try exact Hs; exfalso;
      destruct (Hfetch Hs) as [evs Hevs]; rewrite Hevs in Htrace;
      cbn [snd] in Htrace.
    all: apply (f_equal (@List.length event)) in Htrace;
      destruct driver; cbn [with_session trace] in Htrace;
      rewrite ?length_app in Htrace; cbn [List.length] in Htrace; lia.
  - destruct already_synchronised_scenario as [H5 _].
    destruct (Hgen (candidate 5) None scenario_world _ eq_refl) as [Hs _].
    destruct (Hs H5) as (? & ? & ? & ? & ?). cbv zeta. tauto.
  - destruct already_synchronised_scenario as [_ H6].
    destruct (Hgen (candidate 6) None scenario_world _ eq_refl) as [_ Hf].
    destruct (Hf H6) as [evs Hevs]. cbv zeta. rewrite Hevs.
    apply in_or_app. right. now left.
Qed.

(** ** What a fetch leaves on disk *)

(** C4. When a call of [_fetch_sub] returns and has done something (a
    fetch, not a skip), the page had the code element, the target file
    holds the text extracted from it, and the ledger of the problem is
    the whole previous ledger with the entry of the file name set to the
    fetched submission; so the id of that entry is the id of the
    submission. *)
Theorem fetch_records_submission sub driver w driver' w' :
  fetch_sub sub driver w = (Ok driver', w') ->
  trace w' <> trace w ->
  exists file_path inner_html,
    _get_file_path (problem_dir sub) (Submission.language sub)
      = Ok file_path /\
    web (submission_url sub) = CodeElement inner_html /\
    files w' !! file_path = Some (extract inner_html) /\
    ledgers w' !! metadata_path sub =
      Some (<[path_name file_path := sub]>
              (default ∅ (ledgers w !! metadata_path sub))) /\
    exists entry,
      (ledgers w' !! metadata_path sub) ≫= (.!! path_name file_path)
        = Some entry /\
      Submission.id entry = Submission.id sub.
Proof.
  intros Hrun Htrace.
  destruct (fetch_sub_cases sub driver w)
    as [Hfp|fp Hfp Hs|fp Hfp Hs Hweb|fp Hfp Hs Hweb
        |fp inner_html Hfp Hs Hweb];
    try discriminate Hrun.
  - injection Hrun as <- <-. now contradiction Htrace.
  - injection Hrun as <- <-. exists fp, inner_html.
    split; [exact Hfp|]. split; [exact Hweb|].
    cbn [with_code files ledgers]. rewrite !lookup_insert_eq.
    repeat split. exists sub. cbn [mbind option_bind].
    now rewrite lookup_insert_eq.
Qed.

(** C6. When the page of the submission has no code element, a call of
    [_fetch_sub] leaves every file and every ledger as it was; and
    whenever the fetch is performed (the language is supported and the
    submission is not synchronised yet) the call raises. *)
Theorem missing_code_element sub driver w :
  web (submission_url sub) = NoCodeElement ->
  let res := fetch_sub sub driver w in
  files (snd res) = files w /\ ledgers (snd res) = ledgers w /\
  forall file_path,
    _get_file_path (problem_dir sub) (Submission.language sub)
      = Ok file_path ->
    ~ already_synchronised w sub file_path ->
    fst res = Raise NoSuchElementException.
Proof.
  intros Hweb res. subst res.
  destruct (fetch_sub_cases sub driver w)
    as [Hfp|fp Hfp Hs|fp Hfp Hs Hweb'|fp Hfp Hs Hweb'
        |fp inner_html Hfp Hs Hweb'];
    try congruence; (split; [reflexivity|split; [reflexivity|]]);
    intros file_path Hfp' Hs'; try reflexivity; congruence.
Qed.

(** C10. When the code element is there and its markup has no list item,
    the extracted text is empty and the fetch succeeds: the target file
    is written empty and the ledger records the candidate. *)
Theorem no_list_item_gives_empty_file sub driver w file_path inner_html :
  web (submission_url sub) = CodeElement inner_html ->
  Re.findall li_re inner_html = [] ->
  _get_file_path (problem_dir sub) (Submission.language sub) = Ok file_path ->
  ~ already_synchronised w sub file_path ->
  extract inner_html = "" /\
  exists w',
    fetch_sub sub driver w = (Ok (Some Chrome), w') /\
    files w' !! file_path = Some "" /\
    (ledgers w' !! metadata_path sub) ≫= (.!! path_name file_path)
      = Some sub.
Proof.
  intros Hweb Hli Hfp Hs.
  assert (Hempty : extract inner_html = "")
    by (unfold code_of_inner_html; now rewrite Hli).
  split; [exact Hempty|].
  destruct (fetch_sub_cases sub driver w)
    as [Hfp'|fp Hfp' Hs'|fp Hfp' Hs' Hweb'|fp Hfp' Hs' Hweb'
        |fp inner_html' Hfp' Hs' Hweb'];
    rewrite Hfp in Hfp'; try discriminate Hfp'; injection Hfp' as <-;
    try contradiction; try congruence.
  rewrite Hweb in Hweb'. injection Hweb' as <-.
  eexists. split; [reflexivity|].
  cbn [with_code files ledgers]. rewrite !lookup_insert_eq.
  split; [now rewrite Hempty|]. cbn [mbind option_bind].
  now rewrite lookup_insert_eq.
Qed.
End FetchSub.

(** ** The loop *)

Lemma settled_keeps sub w w' :
  keeps sub w w' -> settled w sub -> settled w' sub.
Proof.
  intros (Hf & Hl & Hd) (fp & Hfp & (Hfile & Hledger) & Hdirs).
  exists fp. split; [exact Hfp|]. split; [split|].
  - now apply Hf.
  - now rewrite Hl.
  - now transitivity (dirs w).
Qed.

Lemma metadata_path_ne (a b : Submission.t) :
  Submission.problem_id a <> Submission.problem_id b ->
  metadata_path a <> metadata_path b.
Proof.
  unfold metadata_path, problem_dir, path_div. cbn [app].
  intros Hne Heq. apply Hne. congruence.
Qed.

Section Loop.
Variable html5 : string -> option string.
Variable numeric_charref : string -> string.
Variable web : string -> Page.

Abbreviation fetch_sub := (_fetch_sub html5 numeric_charref web).
Abbreviation loop := (fetch_loop html5 numeric_charref web).
Abbreviation run := (_fetch_from_atcoder html5 numeric_charref web).

Lemma settled_skip sub driver w :
  settled w sub -> fetch_sub sub driver w = (Ok driver, w).
Proof.
  intros (fp & Hfp & Hs & Hdirs).
  assert (Hw : with_dirs sub w = w).
  { destruct w as [f l d n t]. unfold with_dirs. cbn in *. f_equal.
    rewrite (union_comm_L d). now apply subseteq_union_1_L. }
  destruct (fetch_sub_cases html5 numeric_charref web sub driver w)
    as [Hfp'|fp' Hfp' Hs'|fp' Hfp' Hs' Hweb|fp' Hfp' Hs' Hweb
        |fp' inner_html Hfp' Hs' Hweb];
    rewrite Hfp in Hfp'; try discriminate Hfp'; injection Hfp' as <-;
    try contradiction.
  now rewrite Hw.
Qed.

Lemma fetch_settles sub driver w driver' w' :
  fetch_sub sub driver w = (Ok driver', w') -> settled w' sub.
Proof.
  intros Hrun.
  destruct (fetch_sub_cases html5 numeric_charref web sub driver w)
    as [Hfp|fp Hfp Hs|fp Hfp Hs Hweb|fp Hfp Hs Hweb
        |fp inner_html Hfp Hs Hweb];
    try discriminate Hrun; injection Hrun as <- <-;
    exists fp; (split; [exact Hfp|]).
  - split; [exact Hs|]. cbn [with_dirs dirs]. apply union_subseteq_r.
  - split.
    + split.
      * cbn [with_code files]. rewrite lookup_insert_eq. now eexists.
      * eexists _, sub. cbn [with_code ledgers].
        split; [apply lookup_insert_eq|].
        split; [apply lookup_insert_eq | reflexivity].
    + cbn [with_code with_get log with_session with_dirs dirs].
      apply union_subseteq_r.
Qed.

Lemma fetch_keeps sub a driver w :
  Submission.problem_id sub <> Submission.problem_id a ->
  keeps a w (snd (fetch_sub sub driver w)).
Proof.
  intros Hne.
  destruct (fetch_sub_cases html5 numeric_charref web sub driver w)
    as [Hfp|fp Hfp Hs|fp Hfp Hs Hweb|fp Hfp Hs Hweb
        |fp inner_html Hfp Hs Hweb];
    cbn [snd]; (split; [|split]);
    cbn [with_code with_get log with_session with_dirs files ledgers dirs];
    try reflexivity; try tauto; try apply union_subseteq_l.
  - intros p Hp. destruct (decide (fp = p)) as [->|Hp'].
    + rewrite lookup_insert_eq. now eexists.
    + now rewrite lookup_insert_ne.
  - apply lookup_insert_ne. now apply metadata_path_ne.
Qed.

Lemma loop_keeps a subs driver w :
  Forall (fun sub => Submission.problem_id sub <> Submission.problem_id a)
         subs ->
  settled w a -> settled (snd (loop subs driver w)) a.
Proof.
  intros Hall. revert driver w.
  induction Hall as [|sub subs Hne Hall IH]; intros driver w Hs;
    [exact Hs|].
  cbn [fetch_loop]. unfold bind.
  pose proof (fetch_keeps sub a driver w Hne) as Hk.
  destruct (fetch_sub sub driver w) as [[driver1|e] w1]; cbn [snd] in *.
  - apply IH. now apply (settled_keeps a w w1).
  - now apply (settled_keeps a w w1).
Qed.

Lemma loop_settles subs driver w driver' w' :
  List.NoDup (map Submission.problem_id subs) ->
  loop subs driver w = (Ok driver', w') ->
  Forall (settled w') subs.
Proof.
  revert driver w. induction subs as [|sub subs IH]; intros driver w Hnd Hrun;
    [constructor|].
  cbn [map] in Hnd. apply List.NoDup_cons_iff in Hnd as [Hnin Hnd].
  cbn [fetch_loop] in Hrun. unfold bind in Hrun.
  destruct (fetch_sub sub driver w) as [[driver1|e] w1] eqn:Hstep;
    [|discriminate Hrun].
  constructor.
  - replace w' with (snd (loop subs driver1 w1)) by now rewrite Hrun.
    apply loop_keeps; [|eapply fetch_settles; exact Hstep].
    apply List.Forall_forall. intros x Hx Heq. apply Hnin.
    rewrite <- Heq. now apply in_map.
  - eapply IH; eassumption.
Qed.

Lemma loop_skips subs driver w :
  Forall (settled w) subs -> loop subs driver w = (Ok driver, w).
Proof.
  induction 1 as [|sub subs Hs Hall IH]; [reflexivity|].
  cbn [fetch_loop]. unfold bind. now rewrite settled_skip.
Qed.

(** C3. When a run over the selection of a history returns, a second run
    over the same selection, started where the first one ended, skips
    every candidate: each call of [_fetch_sub] returns without a driver
    and leaves the world as it is, so the run opens no session, requests
    no page, writes nothing and never sleeps. *)
Theorem second_run_fetches_nothing (results : list Submission.t) w w' :
  let subs := _get_latest_ac_subs_from_atcoder_problems results in
  run subs w = (Ok tt, w') ->
  run subs w' = (Ok tt, w') /\
  Forall (fun sub => fetch_sub sub None w' = (Ok None, w')) subs.
Proof.
  intros subs Hrun.
  assert (Hnd : List.NoDup (map Submission.problem_id subs))
    by apply (latest_ac_subs_spec results).
  assert (Hall : Forall (settled w') subs).
  { unfold _fetch_from_atcoder, bind in Hrun.
    destruct (loop subs None w) as [[driver1|e] w1] eqn:Hloop;
      [|discriminate Hrun].
    pose proof (loop_settles subs None w driver1 w1 Hnd Hloop) as Hs.
    destruct driver1 as [d|]; injection Hrun as <-; [|exact Hs].
    eapply List.Forall_impl; [|exact Hs].
    intros a. apply settled_keeps. repeat split; [tauto|reflexivity]. }
  split.
  - unfold _fetch_from_atcoder, bind. now rewrite loop_skips.
  - eapply List.Forall_impl; [|exact Hall].
    intros a. apply settled_skip.
Qed.
End Loop.

(** ** The properties on the small platform *)

Lemma latest_ac_selection_witness :
  In scenario_2 [scenario_1; scenario_2; scenario_3] /\
  Submission.epoch_second scenario_1 <= Submission.epoch_second scenario_2.
Proof.
  destruct (latest_ac_selection [scenario_1; scenario_2; scenario_3])
    as (_ & H & _).
  destruct (H scenario_2) as (Hin & _ & Hmax).
  - vm_compute. now left.
  - split; [exact Hin|]. apply Hmax; [now left | reflexivity | reflexivity].
Defined.

Lemma target_file_by_language_witness :
  _get_file_path (problem_dir ruby_sub) "Ruby (2.7.1)" = Raise TypeError /\
  fst (sample_fetch_sub ruby_sub None empty_world) = Raise TypeError.
Proof.
  destruct (target_file_by_language html5_sample numeric_charref_sample
              sample_web (problem_dir ruby_sub) "Ruby (2.7.1)")
    as (_ & _ & H).
  destruct (H eq_refl eq_refl eq_refl) as [H1 H2].
  split; [exact H1|]. now apply (H2 ruby_sub None empty_world eq_refl).
Defined.

(** The claim C7 as it was written fails: a label that contains [Go] and
    [Python] gets [Main.py], not [Main.go]. *)
Lemma go_label_with_python :
  ~ (forall (problem_dir0 : Path) (lang : string),
       (_get_file_path problem_dir0 lang = Ok (problem_dir0 // "Main.py") <->
          str_in "Python" lang = true \/ str_in "PyPy" lang = true) /\
       (_get_file_path problem_dir0 lang = Ok (problem_dir0 // "Main.go") <->
          str_in "Go" lang = true) /\
       (str_in "Python" lang = false -> str_in "PyPy" lang = false ->
        str_in "Go" lang = false ->
        _get_file_path problem_dir0 lang = Raise TypeError)).
Proof.
  intros H.
  destruct (H [DIR_SUBMISSION] "Go (with Python bindings)")
    as (_ & [_ Hgo] & _).
  specialize (Hgo eq_refl). vm_compute in Hgo. discriminate Hgo.
Qed.

Lemma skip_or_fetch_witness :
  fst (sample_fetch_sub (candidate 5) None scenario_world) = Ok None /\
  trace (snd (sample_fetch_sub (candidate 5) None scenario_world)) = [].
Proof.
  destruct (skip_or_fetch html5_sample numeric_charref_sample sample_web
              (candidate 5) None scenario_world
              (problem_dir (candidate 5) // "Main.py") eq_refl)
    as (_ & _ & H & _).
  split; apply H.
Defined.

Lemma fetch_records_submission_witness :
  files (snd (sample_fetch_sub (candidate 6) None scenario_world))
    !! (problem_dir (candidate 6) // "Main.py")
  = Some (code_of_inner_html html5_sample numeric_charref_sample
            sample_inner_html).
Proof.
  destruct (fetch_records_submission html5_sample numeric_charref_sample
              sample_web (candidate 6) None scenario_world (Some Chrome)
              (snd (sample_fetch_sub (candidate 6) None scenario_world)))
    as (fp & inner_html & Hfp & Hweb & Hfile & _).
  - vm_compute. reflexivity.
  - vm_compute. discriminate.
  - injection Hfp as <-. injection Hweb as <-. exact Hfile.
Defined.

Lemma missing_code_element_witness :
  fst (sample_fetch_sub (candidate 7) None scenario_world)
    = Raise NoSuchElementException /\
  files (snd (sample_fetch_sub (candidate 7) None scenario_world))
    = files scenario_world.
Proof.
  destruct (missing_code_element html5_sample numeric_charref_sample
              sample_web (candidate 7) None scenario_world eq_refl)
    as (Hf & _ & H).
  split; [|exact Hf].
  apply (H (problem_dir (candidate 7) // "Main.py") eq_refl).
  intros (_ & metadata & msub & Hmd & Hm & Hid).
  vm_compute in Hmd. injection Hmd as <-.
  vm_compute in Hm. injection Hm as <-. discriminate Hid.
Defined.

Lemma no_list_item_gives_empty_file_witness :
  exists w',
    sample_fetch_sub (candidate 8) None empty_world = (Ok (Some Chrome), w') /\
    files w' !! (problem_dir (candidate 8) // "Main.py") = Some "".
Proof.
  destruct (no_list_item_gives_empty_file html5_sample numeric_charref_sample
              sample_web (candidate 8) None empty_world
              (problem_dir (candidate 8) // "Main.py") "<p>no code</p>")
    as (_ & w' & Hrun & Hfile & _).
  - reflexivity.
  - vm_compute. reflexivity.
  - reflexivity.
  - intros ([x Hx] & _). vm_compute in Hx. discriminate Hx.
  - exists w'. split; [exact Hrun | exact Hfile].
Defined.

Lemma second_run_fetches_nothing_witness :
  sample_run [scenario_2]
    (snd (sample_run [scenario_2] empty_world))
  = (Ok tt, snd (sample_run [scenario_2] empty_world)).
Proof.
  apply (second_run_fetches_nothing html5_sample numeric_charref_sample
           sample_web [scenario_1; scenario_2; scenario_3] empty_world).
  vm_compute. reflexivity.
Defined.

(** C5, on a run that the code breaks off.  The selection holds an accepted
    Python submission and an accepted Ruby one.  The first is fetched, in a
    session opened for it; the second raises in [_get_file_path]; the run
    ends there with the session open: [driver.quit()] is never reached. *)
Theorem session_left_open_on_error :
  let subs := _get_latest_ac_subs_from_atcoder_problems
                [scenario_1; ruby_sub; scenario_2] in
  let res := sample_run subs empty_world in
  subs = [scenario_2; ruby_sub] /\
  fst res = Raise TypeError /\
  sessions (snd res) = 1%nat /\
  In EvChrome (trace (snd res)) /\ ~ In EvQuit (trace (snd res)).
Proof.
  vm_compute. repeat split; try (left; reflexivity).
  intros H. repeat (destruct H as [H|H]; [discriminate H|]). exact H.
Qed.

(** ** Scanning a subject *)

Section Scanning.
Import Re ReFacts.

Lemma length_append (x y : string) :
  String.length (x +:+ y) = (String.length x + String.length y)%nat.
Proof. induction x as [|c x IH]; simpl; [|rewrite IH]; reflexivity. Qed.

Lemma concat_cons (x : string) (xs : list string) :
  String.concat "" (x :: xs) = x +:+ String.concat "" xs.
Proof.
  destruct xs as [|y xs]; simpl; [now rewrite append_empty_r | reflexivity].
Qed.

Lemma str_all_append (p : ascii -> bool) (x y : string) :
  str_all p (x +:+ y) = str_all p x && str_all p y.
Proof.
  induction x as [|c x IH]; simpl; [reflexivity|].
  now rewrite IH, andb_assoc.
Qed.

Lemma whole_push_all (x : string) (pos : nat) :
  whole (to_match (push_all x (MState pos [] []))) = x.
Proof.
  unfold to_match. cbn [whole]. rewrite taken_push_all. cbn [taken].
  rewrite app_nil_r, rev_involutive. apply string_of_list_ascii_of_string.
Qed.

Lemma length_taken_push_all (x : string) (st : mstate) :
  List.length (taken (push_all x st))
  = (String.length x + List.length (taken st))%nat.
Proof.
  revert st. induction x as [|c x IH]; intros st; [reflexivity|].
  cbn [push_all String.length]. rewrite IH. cbn [push taken List.length]. lia.
Qed.

(** A greedy repetition runs to the first character outside the class. *)
Lemma greedy_walk (p : ascii -> bool) (k : cont) (body : string) (c : ascii)
    (rest : string) (lo : nat) (hi : option nat) (st : mstate)
    (r : mstate * string) :
  str_all p body = true -> p c = false ->
  (lo <= String.length body)%nat -> fits hi (String.length body) ->
  k (push_all body st) (String c rest) = Some r ->
  rep p true k lo hi st (body +:+ String c rest) = Some r.
Proof.
  revert lo hi st.
  induction body as [|a body IH]; intros lo hi st Hall Hc Hlo Hhi Hk.
  - cbn [String.length] in Hlo. assert (lo = 0%nat) as -> by lia.
    cbn [String.append push_all] in *. cbn [rep]. now rewrite Hc, Hk.
  - cbn [str_all] in Hall. apply andb_prop in Hall as [Ha Hall].
    cbn [String.append push_all] in *. cbn [rep]. rewrite Ha.
    assert (Htake : may_take hi = true).
    { destruct hi as [[|m]|]; cbn in *; [lia|reflexivity|reflexivity]. }
    rewrite Htake. cbn [andb].
    rewrite (IH (Nat.pred lo) (Nat.pred <$> hi) (push a st));
      try assumption; [reflexivity| |].
    + cbn [String.length] in Hlo. lia.
    + destruct hi as [m|]; cbn in *; [lia|exact I].
Qed.

Variable r : regex.
Variable repl : Match -> string.

Lemma sub_from_skip (x rest : string) (pos : nat) :
  sub_from r repl pos (String.length x) (x +:+ rest)
  = sub_from r repl (String.length x + pos) 0 rest.
Proof.
  revert pos. induction x as [|c x IH]; intros pos; [reflexivity|].
  cbn [String.length String.append sub_from]. rewrite IH. f_equal. lia.
Qed.

Lemma findall_from_skip (x rest : string) (pos : nat) :
  findall_from r pos (String.length x) (x +:+ rest)
  = findall_from r (String.length x + pos) 0 rest.
Proof.
  revert pos. induction x as [|c x IH]; intros pos; [reflexivity|].
  cbn [String.length String.append findall_from]. rewrite IH. f_equal. lia.
Qed.

Lemma passes_nil : passes r repl "" "".
Proof. intros pos rest. reflexivity. Qed.

Lemma passes_app (x1 o1 x2 o2 : string) :
  passes r repl x1 o1 -> passes r repl x2 o2 ->
  passes r repl (x1 +:+ x2) (o1 +:+ o2).
Proof.
  intros H1 H2 pos rest.
  rewrite !append_assoc, H1, H2, length_append. do 3 f_equal. lia.
Qed.

Lemma passes_char (c : ascii) :
  (forall pos rest, match_at r pos (String c rest) = None) ->
  passes r repl (String c "") (String c "").
Proof.
  intros Hno pos rest. cbn [String.append sub_from String.length].
  now rewrite Hno.
Qed.

Lemma passes_match (x out : string) :
  x <> "" ->
  (forall pos rest, exists rest',
      match_at r pos (x +:+ rest)
      = Some (push_all x (MState pos [] []), rest')) ->
  (forall pos, repl (to_match (push_all x (MState pos [] []))) = out) ->
  passes r repl x out.
Proof.
  intros Hne Hm Hrepl pos rest.
  destruct x as [|c x]; [contradiction|].
  destruct (Hm pos rest) as [rest' Hmatch].
  cbn [String.append] in *. cbn [sub_from]. rewrite Hmatch.
  pose proof (length_taken_push_all (String c x) (MState pos [] [])) as Hlen.
  destruct (taken (push_all (String c x) (MState pos [] []))) as [|a t] eqn:Ht;
    [discriminate Hlen|].
  rewrite Hrepl. cbn [String.length List.length taken] in Hlen.
  replace (List.length t) with (String.length x) by lia.
  rewrite sub_from_skip. do 2 f_equal. cbn [String.length]. lia.
Qed.

Lemma passes_match_state (x out : string) :
  x <> "" ->
  (forall pos rest, exists st rest',
      match_at r pos (x +:+ rest) = Some (st, rest') /\
      List.length (taken st) = String.length x /\
      repl (to_match st) = out) ->
  passes r repl x out.
Proof.
  intros Hne Hm pos rest.
  destruct x as [|c x]; [contradiction|].
  destruct (Hm pos rest) as (st & rest' & Hmatch & Hlen & Hrepl).
  cbn [String.append] in *. cbn [sub_from]. rewrite Hmatch, Hrepl.
  destruct (taken st) as [|a t]; [discriminate Hlen|].
  cbn [String.length List.length] in Hlen.
  replace (List.length t) with (String.length x) by lia.
  rewrite sub_from_skip. do 2 f_equal. cbn [String.length]. lia.
Qed.

Lemma passes_whole (x out : string) :
  passes r repl x out -> sub r repl x = out.
Proof.
  intros H. unfold sub. rewrite <- (append_empty_r x), H.
  destruct (String.length x + 0)%nat; apply append_empty_r.
Qed.

Lemma finds_app (x1 x2 : string) (o1 o2 : list string) :
  finds r x1 o1 -> finds r x2 o2 -> finds r (x1 +:+ x2) (o1 ++ o2).
Proof.
  intros H1 H2 pos rest.
  rewrite !append_assoc, H1, H2, length_append, <- app_assoc.
  do 3 f_equal. lia.
Qed.

Lemma finds_match (x : string) :
  x <> "" ->
  (forall pos rest, exists rest',
      match_at r pos (x +:+ rest)
      = Some (push_all x (MState pos [] []), rest')) ->
  finds r x [x].
Proof.
  intros Hne Hm pos rest.
  destruct x as [|c x]; [contradiction|].
  destruct (Hm pos rest) as [rest' Hmatch].
  pose proof (whole_push_all (String c x) pos) as Hwhole.
  cbn [String.append] in *. cbn [findall_from]. rewrite Hmatch.
  pose proof (length_taken_push_all (String c x) (MState pos [] [])) as Hlen.
  destruct (taken (push_all (String c x) (MState pos [] []))) as [|a t] eqn:Ht;
    [discriminate Hlen|].
  rewrite Hwhole. cbn [String.length List.length taken] in Hlen.
  replace (List.length t) with (String.length x) by lia.
  rewrite findall_from_skip. cbn [app]. do 2 f_equal. cbn [String.length]. lia.
Qed.

Lemma finds_whole (x : string) (outs : list string) :
  finds r x outs -> findall r x = outs.
Proof.
  intros H. unfold findall. rewrite <- (append_empty_r x), H.
  destruct (String.length x + 0)%nat; apply app_nil_r.
Qed.
End Scanning.

(** ** Extraction of the code *)

Section TagRemoval.
Import Re ReFacts.

Lemma push_all_app (x y : string) (st : mstate) :
  push_all (x +:+ y) st = push_all y (push_all x st).
Proof.
  revert st. induction x as [|c x IH]; intros st; [reflexivity|].
  cbn [String.append push_all]. apply IH.
Qed.

Lemma tag_no_match (c : ascii) (pos : nat) (rest : string) :
  not_lt c = true -> match_at tag_re pos (String c rest) = None.
Proof.
  unfold not_lt, match_at, tag_re. cbn [exec lit]. unfold just.
  intros H. apply negb_true_iff in H. rewrite Ascii.eqb_sym in H.
  now rewrite H.
Qed.

Lemma tag_match (body : string) (pos : nat) (rest : string) :
  body <> "" -> str_all (none_of ">") body = true ->
  match_at tag_re pos ("<" +:+ body +:+ ">" +:+ rest)
  = Some (push_all ("<" +:+ body +:+ ">") (MState pos [] []), rest).
Proof.
  intros Hne Hbody. unfold match_at, tag_re. cbn [exec].
  rewrite exec_lit. unfold plus.
  change (">" +:+ rest) with (String ">" rest). cbn [exec].
  apply greedy_walk.
  - exact Hbody.
  - reflexivity.
  - destruct body; [contradiction|]. cbn [String.length]. lia.
  - exact I.
  - cbn [exec lit]. unfold just at 1. rewrite Ascii.eqb_refl.
    unfold accept. rewrite !push_all_app. reflexivity.
Qed.

Lemma tag_passes_tag (body : string) :
  body <> "" -> str_all (none_of ">") body = true ->
  passes tag_re blank ("<" +:+ body +:+ ">") "".
Proof.
  intros Hne Hbody. apply passes_match; [discriminate| |reflexivity].
  intros pos rest. exists rest. rewrite !append_assoc.
  now apply tag_match.
Qed.

Lemma tag_passes_text (x : string) :
  str_all not_lt x = true -> passes tag_re blank x x.
Proof.
  induction x as [|c x IH]; intros Hx; [apply passes_nil|].
  cbn [str_all] in Hx. apply andb_prop in Hx as [Hc Hx].
  apply (passes_app tag_re blank (String c "") (String c "") x x);
    [|now apply IH].
  apply passes_char. intros pos rest. now apply tag_no_match.
Qed.

Lemma escape_char_not_lt (c : ascii) :
  str_all not_lt (html_escape_char c) = true.
Proof.
  unfold html_escape_char.
  destruct (Ascii.eqb c "&"); [reflexivity|].
  destruct (Ascii.eqb c "<") eqn:Hlt; [reflexivity|].
  destruct (Ascii.eqb c ">"); [reflexivity|].
  cbn [str_all]. unfold not_lt. now rewrite Hlt.
Qed.

Lemma escape_not_lt (s : string) : str_all not_lt (html_escape s) = true.
Proof.
  induction s as [|c s IH]; [reflexivity|].
  cbn [html_escape]. now rewrite str_all_append, escape_char_not_lt, IH.
Qed.

Lemma tag_passes_eq (x body : string) :
  x = "<" +:+ body +:+ ">" ->
  match body with
  | EmptyString => false
  | String _ _ => str_all (none_of ">") body
  end = true ->
  passes tag_re blank x "".
Proof.
  intros -> Hbody. destruct body as [|c body]; [discriminate Hbody|].
  now apply tag_passes_tag.
Qed.

Lemma tag_passes_token (t : token) :
  passes tag_re blank (render_token t) (without_tags t).
Proof.
  destruct t as [s| |c|].
  - apply tag_passes_text, escape_not_lt.
  - apply tag_passes_text. vm_compute. reflexivity.
  - apply (tag_passes_eq (render_token (SpanOpen c))
             ("span class=" +:+ dq +:+ class_name c +:+ dq));
      destruct c; vm_compute; reflexivity.
  - apply (tag_passes_eq "</span>" "/span"); vm_compute; reflexivity.
Qed.

Lemma tag_passes_tokens (l : list token) :
  passes tag_re blank (String.concat "" (map render_token l))
         (String.concat "" (map without_tags l)).
Proof.
  induction l as [|t l IH]; [apply passes_nil|].
  cbn [map]. rewrite !concat_cons.
  apply passes_app; [apply tag_passes_token | exact IH].
Qed.

Lemma line_digit_cases (i : nat) :
  In (line_digit i) ["0"; "1"; "2"; "3"; "4"; "5"; "6"; "7"; "8"; "9"].
Proof.
  unfold line_digit.
  destruct (i mod 10)%nat as [|[|[|[|[|[|[|[|[|n]]]]]]]]]; cbn; tauto.
Qed.

Lemma render_line_eq (i : nat) (l : list token) :
  render_line i l
  = li_open i +:+ String.concat "" (map render_token l) +:+ "</li>".
Proof. unfold render_line, li_open. now rewrite !append_assoc. Qed.

Lemma tag_passes_line (i : nat) (l : list token) :
  passes tag_re blank (render_line i l)
         (String.concat "" (map without_tags l)).
Proof.
  rewrite render_line_eq.
  assert (Hopen : passes tag_re blank (li_open i) "").
  { unfold li_open.
    apply (tag_passes_eq _
             ("li class=" +:+ dq +:+ "L" +:+ line_digit i +:+ dq));
      pose proof (line_digit_cases i) as Hd; cbn [In] in Hd;
      repeat (destruct Hd as [<-|Hd]; [vm_compute; reflexivity|]);
      contradiction. }
  assert (Hclose : passes tag_re blank "</li>" "").
  { apply (tag_passes_eq "</li>" "/li"); vm_compute; reflexivity. }
  pose proof (passes_app _ _ _ _ _ _ Hopen
                (passes_app _ _ _ _ _ _ (tag_passes_tokens l) Hclose)) as H.
  now rewrite append_empty_r in H.
Qed.
End TagRemoval.

Section PlaceholderRemoval.
Import Re ReFacts.

Lemma nbsp_no_match (c : ascii) (pos : nat) (rest : string) :
  not_amp c = true -> match_at nbsp_re pos (String c rest) = None.
Proof.
  unfold not_amp, match_at, nbsp_re. cbn [exec lit]. unfold just.
  intros H. apply negb_true_iff in H. rewrite Ascii.eqb_sym in H.
  now rewrite H.
Qed.

Lemma nbsp_passes_plain (c : ascii) :
  not_amp c = true -> passes nbsp_re blank (String c "") (String c "").
Proof.
  intros Hc. apply passes_char. intros pos rest. now apply nbsp_no_match.
Qed.

Lemma nbsp_passes_escape_char (c : ascii) :
  passes nbsp_re blank (html_escape_char c) (html_escape_char c).
Proof.
  unfold html_escape_char.
  destruct (Ascii.eqb c "&") eqn:Hamp;
    [intros pos rest; vm_compute; reflexivity|].
  destruct (Ascii.eqb c "<");
    [intros pos rest; vm_compute; reflexivity|].
  destruct (Ascii.eqb c ">");
    [intros pos rest; vm_compute; reflexivity|].
  apply nbsp_passes_plain. unfold not_amp. now rewrite Hamp.
Qed.

Lemma nbsp_passes_escape (s : string) :
  passes nbsp_re blank (html_escape s) (html_escape s).
Proof.
  induction s as [|c s IH]; [apply passes_nil|].
  cbn [html_escape].
  apply passes_app; [apply nbsp_passes_escape_char | exact IH].
Qed.

Lemma nbsp_passes_placeholder : passes nbsp_re blank "&nbsp;" "".
Proof. intros pos rest. vm_compute. reflexivity. Qed.

Lemma nbsp_passes_token (t : token) :
  passes nbsp_re blank (without_tags t) (without_placeholders t).
Proof.
  destruct t as [s| |c|]; cbn [without_tags without_placeholders].
  - apply nbsp_passes_escape.
  - apply nbsp_passes_placeholder.
  - apply passes_nil.
  - apply passes_nil.
Qed.

Lemma nbsp_passes_tokens (l : list token) :
  passes nbsp_re blank (String.concat "" (map without_tags l))
         (String.concat "" (map without_placeholders l)).
Proof.
  induction l as [|t l IH]; [apply passes_nil|].
  cbn [map]. rewrite !concat_cons.
  apply passes_app; [apply nbsp_passes_token | exact IH].
Qed.

Lemma html_escape_app (x y : string) :
  html_escape (x +:+ y) = html_escape x +:+ html_escape y.
Proof.
  induction x as [|c x IH]; [reflexivity|].
  cbn [String.append html_escape]. now rewrite IH, append_assoc.
Qed.

Lemma without_placeholders_line (l : list token) :
  String.concat "" (map without_placeholders l) = html_escape (line_text l).
Proof.
  unfold line_text. induction l as [|t l IH]; [reflexivity|].
  cbn [map]. rewrite !concat_cons, html_escape_app, IH.
  now destruct t.
Qed.
End PlaceholderRemoval.

Section Unescape.
Import Re ReFacts.

Variable html5 : string -> option string.
Variable numeric_charref : string -> string.

Hypothesis html5_amp : html5 "amp;" = Some "&".
Hypothesis html5_lt : html5 "lt;" = Some "<".
Hypothesis html5_gt : html5 "gt;" = Some ">".

Abbreviation replace_charref := (Html._replace_charref html5 numeric_charref).

Lemma charref_no_match (c : ascii) (pos : nat) (rest : string) :
  not_amp c = true -> match_at Html.charref_re pos (String c rest) = None.
Proof.
  unfold not_amp, match_at, Html.charref_re. cbn [exec lit]. unfold just.
  intros H. apply negb_true_iff in H. rewrite Ascii.eqb_sym in H.
  now rewrite H.
Qed.

Lemma charref_passes_plain (x : string) :
  str_all not_amp x = true -> passes Html.charref_re replace_charref x x.
Proof.
  induction x as [|c x IH]; intros Hx; [apply passes_nil|].
  cbn [str_all] in Hx. apply andb_prop in Hx as [Hc Hx].
  apply (passes_app _ _ (String c "") (String c "") x x); [|now apply IH].
  apply passes_char. intros pos rest. now apply charref_no_match.
Qed.

Lemma name_char_not_hash (c : ascii) :
  Html.name_char c = true -> Ascii.eqb "#" c = false.
Proof.
  unfold Html.name_char, none_of. cbn [one_of]. rewrite (Ascii.eqb_sym "#").
  destruct (Ascii.eqb c "#"); [|reflexivity].
  rewrite !orb_true_r. discriminate.
Qed.

(** A named reference that ends with its semicolon is taken whole. *)
Lemma charref_match_named (body : string) (pos : nat) (rest : string) :
  body <> "" -> str_all Html.name_char body = true ->
  (String.length body <= 32)%nat ->
  match_at Html.charref_re pos ("&" +:+ body +:+ ";" +:+ rest)
  = Some (MState pos (rev (list_ascii_of_string ("&" +:+ body +:+ ";")))
                 [body +:+ ";"], rest).
Proof.
  intros Hne Hbody Hlen. destruct body as [|b body]; [contradiction|].
  pose proof Hbody as Hb. cbn [str_all] in Hb.
  apply andb_prop in Hb as [Hb _]. apply name_char_not_hash in Hb.
  unfold match_at, Html.charref_re. cbn [exec]. rewrite exec_lit.
  cbn [String.append push_all lit exec]. unfold just. rewrite !Hb.
  cbn [orelse]. unfold opt.
  change (";" +:+ rest) with (String ";" rest).
  change (String b (body +:+ String ";" rest))
    with (String b body +:+ String ";" rest).
  apply greedy_walk.
  - exact Hbody.
  - reflexivity.
  - cbn [String.length]. lia.
  - exact Hlen.
  - cbn [exec rep]. cbn [Ascii.eqb Bool.eqb andb may_take].
    cbn [fmap option_fmap option_map Nat.pred].
    rewrite rep_exhausted. cbn [orelse]. unfold accept. f_equal. f_equal.
    unfold close_group, push. cbn [start taken caps app].
    rewrite !taken_push_all, !caps_push_all, !start_push_all.
    cbn [start taken caps].
    set (L := list_ascii_of_string (String b body)).
    change (";"%char :: rev L ++ ["&"%char])
      with ((";"%char :: rev L) ++ ["&"%char]).
    rewrite take_all_but_last. cbn [rev app].
    rewrite rev_involutive, string_of_list_ascii_app. unfold L.
    rewrite string_of_list_ascii_of_string.
    change (String "&" (String b (body +:+ ";")))
      with ("&" +:+ (String b body +:+ ";")).
    rewrite !list_ascii_of_string_app. cbn [list_ascii_of_string].
    rewrite !rev_app_distr. reflexivity.
Qed.

(** The three references that the escaping writes. *)
Lemma charref_passes_reference (name value : string) :
  In name ["amp"; "lt"; "gt"] ->
  html5 (name +:+ ";") = Some value ->
  passes Html.charref_re replace_charref ("&" +:+ name +:+ ";") value.
Proof.
  intros Hname Hvalue. apply passes_match_state.
  - discriminate.
  - intros pos rest. eexists _, rest.
    split; [|split].
    + rewrite !append_assoc. apply charref_match_named.
      * cbn [In] in Hname. destruct Hname as [<-|[<-|[<-|[]]]]; discriminate.
      * cbn [In] in Hname.
        destruct Hname as [<-|[<-|[<-|[]]]]; vm_compute; reflexivity.
      * cbn [In] in Hname.
        destruct Hname as [<-|[<-|[<-|[]]]]; cbn [String.length]; lia.
    + cbn [taken]. rewrite length_rev. apply length_list_ascii_of_string.
    + unfold Html._replace_charref, to_match. cbn [group groups nth caps].
      rewrite Hvalue.
      cbn [In] in Hname. now destruct Hname as [<-|[<-|[<-|[]]]].
Qed.

Lemma charref_passes_escape_char (c : ascii) :
  passes Html.charref_re replace_charref (html_escape_char c) (String c "").
Proof.
  unfold html_escape_char.
  destruct (Ascii.eqb_spec c "&") as [->|Hamp].
  { apply (charref_passes_reference "amp"); [cbn; tauto | exact html5_amp]. }
  destruct (Ascii.eqb_spec c "<") as [->|Hlt].
  { apply (charref_passes_reference "lt"); [cbn; tauto | exact html5_lt]. }
  destruct (Ascii.eqb_spec c ">") as [->|Hgt].
  { apply (charref_passes_reference "gt"); [cbn; tauto | exact html5_gt]. }
  apply charref_passes_plain. cbn [str_all]. unfold not_amp.
  destruct (Ascii.eqb_spec c "&"); [contradiction | reflexivity].
Qed.

Lemma charref_passes_escape (t : string) :
  passes Html.charref_re replace_charref (html_escape t) t.
Proof.
  induction t as [|c t IH]; [apply passes_nil|].
  cbn [html_escape].
  apply (passes_app _ _ (html_escape_char c) (String c "") (html_escape t) t);
    [apply charref_passes_escape_char | exact IH].
Qed.

Lemma str_in_amp (s : string) : str_in "&" s = negb (str_all not_amp s).
Proof.
  induction s as [|c s IH]; [reflexivity|].
  cbn [str_in str_all String.prefix]. rewrite IH. unfold not_amp.
  destruct (ascii_dec "&" c) as [<-|Hne].
  - replace (String.prefix "" s) with true by (now destruct s).
    reflexivity.
  - destruct (Ascii.eqb_spec c "&") as [->|_]; [contradiction|].
    reflexivity.
Qed.

(** [html.unescape] undoes the escaping. *)
Lemma unescape_escape (t : string) :
  Html.unescape html5 numeric_charref (html_escape t) = t.
Proof.
  unfold Html.unescape. rewrite str_in_amp, negb_involutive.
  destruct (str_all not_amp (html_escape t)) eqn:Hplain.
  - rewrite <- (passes_whole _ _ _ _ (charref_passes_escape t)) at 2.
    symmetry. now apply passes_whole, charref_passes_plain.
  - apply passes_whole, charref_passes_escape.
Qed.
End Unescape.

Section ListItems.
Import Re ReFacts.

Lemma li_safe_nil : li_safe "".
Proof. intros k st s. reflexivity. Qed.

Lemma li_safe_app (x y : string) : li_safe x -> li_safe y -> li_safe (x +:+ y).
Proof.
  intros Hx Hy k st s. now rewrite append_assoc, Hx, Hy, push_all_app.
Qed.

Lemma li_safe_char (c : ascii) :
  any c = true -> not_lt c = true -> li_safe (String c "").
Proof.
  intros Hany Hlt k st s. cbn [String.append push_all rep exec lit].
  unfold just at 1. unfold not_lt in Hlt. apply negb_true_iff in Hlt.
  rewrite Ascii.eqb_sym in Hlt. rewrite Hlt, Hany. reflexivity.
Qed.

Lemma li_safe_amp : li_safe "&amp;".
Proof. intros k st s. vm_compute. reflexivity. Qed.

Lemma li_safe_lt : li_safe "&lt;".
Proof. intros k st s. vm_compute. reflexivity. Qed.

Lemma li_safe_gt : li_safe "&gt;".
Proof. intros k st s. vm_compute. reflexivity. Qed.

Lemma li_safe_placeholder : li_safe "&nbsp;".
Proof. intros k st s. vm_compute. reflexivity. Qed.

Lemma li_safe_span_close : li_safe "</span>".
Proof. intros k st s. vm_compute. reflexivity. Qed.

Lemma li_safe_span_open (c : span_class) : li_safe (render_token (SpanOpen c)).
Proof. intros k st s. destruct c; vm_compute; reflexivity. Qed.

Lemma li_safe_escape_char (c : ascii) :
  any c = true -> li_safe (html_escape_char c).
Proof.
  intros Hany. unfold html_escape_char.
  destruct (Ascii.eqb c "&"); [exact li_safe_amp|].
  destruct (Ascii.eqb c "<") eqn:Hlt; [exact li_safe_lt|].
  destruct (Ascii.eqb c ">"); [exact li_safe_gt|].
  apply li_safe_char; [exact Hany|]. unfold not_lt. now rewrite Hlt.
Qed.

Lemma li_safe_escape (t : string) :
  str_all any t = true -> li_safe (html_escape t).
Proof.
  induction t as [|c t IH]; intros Ht; [apply li_safe_nil|].
  cbn [str_all] in Ht. apply andb_prop in Ht as [Hc Ht].
  cbn [html_escape].
  apply li_safe_app; [now apply li_safe_escape_char | now apply IH].
Qed.

Lemma li_safe_tokens (l : list token) :
  str_all any (line_text l) = true ->
  li_safe (String.concat "" (map render_token l)).
Proof.
  unfold line_text. induction l as [|t l IH]; intros Hl; [apply li_safe_nil|].
  cbn [map] in *. rewrite concat_cons in *.
  rewrite str_all_append in Hl. apply andb_prop in Hl as [Ht Hl].
  apply li_safe_app; [|now apply IH].
  destruct t as [x| |c|]; cbn [render_token token_text] in *.
  - now apply li_safe_escape.
  - exact li_safe_placeholder.
  - exact (li_safe_span_open c).
  - exact li_safe_span_close.
Qed.

Lemma li_open_eq (i : nat) : li_open i = "<li" +:+ li_attrs i +:+ ">".
Proof. unfold li_open, li_attrs. now rewrite !append_assoc. Qed.

Lemma li_attrs_no_gt (i : nat) : str_all (none_of ">") (li_attrs i) = true.
Proof.
  unfold li_attrs. pose proof (line_digit_cases i) as Hd. cbn [In] in Hd.
  repeat (destruct Hd as [<-|Hd]; [vm_compute; reflexivity|]).
  contradiction.
Qed.

Lemma lazy_stop (p : ascii -> bool) (k : cont) (st : mstate) (s : string)
    (r : mstate * string) :
  k st s = Some r -> rep p false k 0 None st s = Some r.
Proof. intros Hk. destruct s; cbn [rep]; now rewrite Hk. Qed.

Lemma li_match (i : nat) (l : list token) (pos : nat) (rest : string) :
  str_all any (line_text l) = true ->
  match_at li_re pos (render_line i l +:+ rest)
  = Some (push_all (render_line i l) (MState pos [] []), rest).
Proof.
  intros Hl. rewrite render_line_eq, li_open_eq.
  set (content := String.concat "" (map render_token l)).
  rewrite !append_assoc, !push_all_app.
  unfold match_at.
  change (exec li_re accept)
    with (exec (lit "<li")
            (rep (none_of ">") true
               (exec (lit ">")
                  (rep any false (exec (lit "</li>") accept) 0 None))
               0 None)).
  rewrite exec_lit.
  change (">" +:+ content +:+ "</li>" +:+ rest)
    with (String ">" (content +:+ "</li>" +:+ rest)).
  apply greedy_walk.
  - apply li_attrs_no_gt.
  - reflexivity.
  - lia.
  - exact I.
  - change (String ">" (content +:+ "</li>" +:+ rest))
      with (">" +:+ content +:+ "</li>" +:+ rest).
    rewrite exec_lit. unfold content.
    rewrite (li_safe_tokens l Hl).
    apply lazy_stop. now rewrite exec_lit.
Qed.

Lemma li_finds_line (i : nat) (l : list token) :
  str_all any (line_text l) = true ->
  finds li_re (render_line i l) [render_line i l].
Proof.
  intros Hl. apply finds_match.
  - rewrite render_line_eq. discriminate.
  - intros pos rest. exists rest. now apply li_match.
Qed.

Lemma li_finds_lines (i : nat) (ls : list (list token)) :
  Forall (fun l => str_all any (line_text l) = true) ls ->
  finds li_re (render_lines i ls) (render_items i ls).
Proof.
  intros Hall. revert i. induction Hall as [|l ls Hl Hall IH]; intros i.
  - intros pos rest. reflexivity.
  - cbn [render_lines render_items].
    apply (finds_app _ _ _ [render_line i l]); [now apply li_finds_line|].
    apply IH.
Qed.

Lemma li_findall_widget (ls : list (list token)) :
  Forall (fun l => str_all any (line_text l) = true) ls ->
  findall li_re (render_widget ls) = render_items 0 ls.
Proof.
  intros Hall. apply finds_whole.
  assert (Hopen : finds li_re
            ("<ol class=" +:+ dq +:+ "linenums" +:+ dq +:+ ">") [])
    by (intros pos rest; vm_compute; reflexivity).
  assert (Hclose : finds li_re "</ol>" [])
    by (intros pos rest; vm_compute; reflexivity).
  pose proof (finds_app _ _ _ _ _ Hopen
                (finds_app _ _ _ _ _ (li_finds_lines 0 ls Hall) Hclose)) as H.
  rewrite app_nil_r in H. cbn [app] in H.
  unfold render_widget. now rewrite !append_assoc in *.
Qed.
End ListItems.

(** ** The round trip *)

Lemma source_lines_nil (s : string) : source_lines s = [] -> s = "".
Proof.
  destruct s as [|c s]; [reflexivity|]. cbn [source_lines].
  destruct (Ascii.eqb c newline); [discriminate|].
  destruct (source_lines s); discriminate.
Qed.

Lemma source_lines_any (s : string) :
  Forall (fun l => str_all Re.any l = true) (source_lines s).
Proof.
  induction s as [|c s IH]; [constructor|]. cbn [source_lines].
  destruct (Ascii.eqb c newline) eqn:Hc; [now constructor|].
  destruct (source_lines s) as [|l ls].
  - constructor; [|constructor]. cbn [str_all]. unfold Re.any.
    now rewrite Hc.
  - apply Forall_cons in IH as [Hl Hls]. constructor; [|exact Hls].
    cbn [str_all]. unfold Re.any at 1. now rewrite Hc.
Qed.

Lemma unlines_source_lines (s : string) :
  newline_terminated s = true -> unlines (source_lines s) = s.
Proof.
  unfold unlines. induction s as [|c s IH]; [reflexivity|].
  intros Ht. cbn [source_lines].
  destruct (Ascii.eqb_spec c newline) as [->|Hc].
  - cbn [map]. rewrite concat_cons. cbn [String.append]. f_equal.
    apply IH. destruct s; [reflexivity | exact Ht].
  - assert (Hs : newline_terminated s = true).
    { destruct s; [|exact Ht]. cbn in Ht.
      apply Ascii.eqb_eq in Ht. contradiction. }
    specialize (IH Hs).
    destruct (source_lines s) as [|l ls] eqn:Hls.
    + apply source_lines_nil in Hls. subst s. cbn in Ht.
      apply Ascii.eqb_eq in Ht. contradiction.
    + cbn [map] in *. rewrite concat_cons in *.
      cbn [String.append]. now rewrite IH.
Qed.

Section RoundTrip.
Variable html5 : string -> option string.
Variable numeric_charref : string -> string.

Hypothesis html5_amp : html5 "amp;" = Some "&".
Hypothesis html5_lt : html5 "lt;" = Some "<".
Hypothesis html5_gt : html5 "gt;" = Some ">".

Abbreviation extract := (code_of_inner_html html5 numeric_charref).

Lemma line_of_item (i : nat) (l : list token) :
  Html.unescape html5 numeric_charref
    (Re.remove nbsp_re (Re.remove tag_re (render_line i l)))
  = line_text l.
Proof.
  unfold Re.remove. fold blank.
  rewrite (passes_whole _ _ _ _ (tag_passes_line i l)).
  rewrite (passes_whole _ _ _ _ (nbsp_passes_tokens l)).
  rewrite without_placeholders_line.
  now apply unescape_escape.
Qed.

Lemma lines_of_items (i : nat) (ls : list (list token)) :
  map (fun li =>
         Html.unescape html5 numeric_charref
           (Re.remove nbsp_re (Re.remove tag_re li)) +:+ String newline "")
      (render_items i ls)
  = map (fun l => l +:+ String newline "") (map line_text ls).
Proof.
  revert i. induction ls as [|l ls IH]; intros i; [reflexivity|].
  cbn [render_items map]. now rewrite line_of_item, IH.
Qed.

(** The text extracted from a widget is the text of its lines, each with a
    newline. *)
Lemma extract_widget (ls : list (list token)) :
  Forall (fun l => str_all Re.any (line_text l) = true) ls ->
  extract (render_widget ls) = unlines (map line_text ls).
Proof.
  intros Hall. unfold code_of_inner_html.
  rewrite (li_findall_widget ls Hall). now rewrite lines_of_items.
Qed.

(** C9, as amended. Take a source text that is empty or ends with a
    newline, and a widget built from it: one list item per line of the
    source, in order, whose pieces of text make up the line, between
    highlighting tags and placeholder tokens.  Given that the table of
    [html.unescape] has the references [amp], [lt] and [gt], the extraction
    gives back the source text, blank lines and leading white space
    included, without the placeholders. *)
Theorem extraction_round_trip (src : string) (ls : list (list token)) :
  newline_terminated src = true ->
  map line_text ls = source_lines src ->
  extract (render_widget ls) = src.
Proof.
  intros Hterm Hbuilt.
  rewrite extract_widget.
  - rewrite Hbuilt. now apply unlines_source_lines.
  - apply Forall_forall. intros l Hl.
    pose proof (source_lines_any src) as Hany.
    rewrite <- Hbuilt in Hany. rewrite Forall_forall in Hany.
    apply Hany. apply list_elem_of_In. apply in_map.
    now apply list_elem_of_In.
Qed.
End RoundTrip.

Lemma extraction_round_trip_witness :
  code_of_inner_html html5_sample numeric_charref_sample
    (render_widget sample_lines) = sample_source.
Proof.
  apply (extraction_round_trip html5_sample numeric_charref_sample
           eq_refl eq_refl eq_refl sample_source sample_lines).
  - vm_compute. reflexivity.
  - vm_compute. reflexivity.
Defined.

(** The claim C9 as it was written fails: the extraction ends every line
    with a newline, so a source whose last line has none comes back one
    character longer. *)
Lemma unterminated_source_grows :
  ~ (forall (src : string) (ls : list (list token)),
       map line_text ls = source_lines src ->
       code_of_inner_html html5_sample numeric_charref_sample
         (render_widget ls) = src).
Proof.
  intros H.
  specialize (H "print(1)" [[SpanOpen Kwd; Text "print"; SpanClose;
                             Text "(1)"]] eq_refl).
  vm_compute in H. discriminate H.
Qed.


(** * Further properties *)

(** ** The selection: which problems, in which order, which record *)

Lemma dict_set_keys_mono {V : Type} (d : list (string * V)) k v k0 :
  In k0 (map fst d) -> In k0 (map fst (dict_set d k v)).
Proof.
  intros Hin. destruct (dict_set_keys d k v) as [->|[_ ->]]; [exact Hin|].
  apply in_or_app. now left.
Qed.

Lemma dict_set_key_new {V : Type} (d : list (string * V)) k v :
  In k (map fst (dict_set d k v)).
Proof.
  change k with (fst (k, v)) at 1. apply in_map, dict_set_In_new.
Qed.

Lemma build_latest_keys_complete (l : list Submission.t) (x : Submission.t) :
  In x l -> In (Submission.problem_id x) (map fst (build_latest l)).
Proof.
  induction l as [|a l IH] using rev_ind; [intros []|].
  rewrite build_latest_snoc. intros Hin.
  apply in_app_or in Hin as [Hin|[<-|[]]].
  - apply dict_set_keys_mono. now apply IH.
  - apply dict_set_key_new.
Qed.

Lemma selection_keys (l : list Submission.t) :
  map Submission.problem_id (dict_values (build_latest l))
  = map fst (build_latest l).
Proof.
  unfold dict_values. rewrite map_map. apply map_ext_in.
  intros [k v] Hin. simpl. now destruct (proj2 (build_latest_spec l) k v Hin).
Qed.

Lemma accepted_sorted_In (results : list Submission.t) (r : Submission.t) :
  In r (sort_by_key Submission.epoch_second
          (List.filter (fun sub => Submission.is_ac sub) results))
  <-> In r results /\ Submission.result r = "AC".
Proof.
  rewrite sort_by_key_In, filter_In. unfold Submission.is_ac.
  now rewrite String.eqb_eq.
Qed.

(** X1. The problems of the selection are exactly the problems that have
    an accepted record in the history; so the selection is empty exactly
    when the history has no accepted record. *)
Theorem selection_covers_accepted (results : list Submission.t) :
  let out := _get_latest_ac_subs_from_atcoder_problems results in
  (forall p : string,
     In p (map Submission.problem_id out) <->
     exists r, In r results /\ Submission.result r = "AC" /\
               Submission.problem_id r = p) /\
  (out = [] <->
   forall r, In r results -> Submission.result r <> "AC").
Proof.
  intros out.
  assert (Hcover : forall p : string,
     In p (map Submission.problem_id out) <->
     exists r, In r results /\ Submission.result r = "AC" /\
               Submission.problem_id r = p).
  { intros p. split.
    - intros Hin. apply in_map_iff in Hin as (r & <- & Hr).
      destruct (proj2 (latest_ac_subs_spec results) r Hr) as (Hin & Hac & _).
      now exists r.
    - intros (r & Hin & Hac & <-).
      unfold out, _get_latest_ac_subs_from_atcoder_problems.
      fold (build_latest
              (sort_by_key Submission.epoch_second
                 (List.filter (fun sub => Submission.is_ac sub) results))).
      rewrite selection_keys. apply build_latest_keys_complete.
      now apply accepted_sorted_In. }
  split; [exact Hcover|]. split.
  - intros Hnil r Hin Hac.
    assert (Hp : In (Submission.problem_id r)
                    (map Submission.problem_id out))
      by (apply Hcover; now exists r).
    rewrite Hnil in Hp. exact Hp.
  - intros Hnone. destruct out as [|a out'] eqn:Hout; [reflexivity|].
    exfalso.
    assert (Hp : In (Submission.problem_id a)
                    (map Submission.problem_id (a :: out')))
      by now left.
    apply Hcover in Hp as (r & Hin & Hac & _). exact (Hnone r Hin Hac).
Qed.

Section SortStable.
Context {A : Type} (key : A -> Z) (q : A -> bool) (k : Z).
Hypothesis q_key : forall x, q x = true -> key x = k.

Lemma insert_by_key_filter (x : A) (l : list A) :
  List.filter q (insert_by_key key x l)
  = if q x then x :: List.filter q l else List.filter q l.
Proof.
  induction l as [|y l IH]; cbn [insert_by_key].
  - cbn [List.filter]. now destruct (q x).
  - destruct (Z.leb_spec (key x) (key y)) as [Hle|Hgt].
    + cbn [List.filter]. now destruct (q x).
    + cbn [List.filter]. rewrite IH.
      destruct (q x) eqn:Hx; [|reflexivity].
      destruct (q y) eqn:Hy; [|reflexivity].
      apply q_key in Hx, Hy. lia.
Qed.

(** The sort keeps the records of one key in the order they came in. *)
Lemma sort_by_key_stable (l : list A) :
  List.filter q (sort_by_key key l) = List.filter q l.
Proof.
  induction l as [|x l IH]; [reflexivity|].
  cbn [sort_by_key]. rewrite insert_by_key_filter, IH. reflexivity.
Qed.
End SortStable.

Lemma filter_ends_with {A : Type} (f : A -> bool) (l F : list A) (r : A) :
  List.filter f l = F ++ [r] ->
  exists l1 l2, l = l1 ++ r :: l2 /\ forall x, In x l2 -> f x = false.
Proof.
  revert F. induction l as [|x l IH] using rev_ind; intros F Hf.
  - now destruct F.
  - rewrite List.filter_app in Hf. cbn [List.filter] in Hf.
    destruct (f x) eqn:Hx.
    + apply app_inj_tail in Hf as [_ <-].
      exists l, []. split; [reflexivity|]. intros y [].
    + rewrite app_nil_r in Hf. destruct (IH F Hf) as (l1 & l2 & -> & Hl2).
      exists l1, (l2 ++ [x]). split; [now rewrite <- app_assoc|].
      intros y Hy. apply in_app_or in Hy as [Hy|[<-|[]]]; [now apply Hl2|].
      exact Hx.
Qed.

Lemma filter_filter {A : Type} (f g : A -> bool) (l : list A) :
  List.filter f (List.filter g l) = List.filter (fun x => f x && g x) l.
Proof.
  induction l as [|x l IH]; [reflexivity|].
  cbn [List.filter]. destruct (g x) eqn:Hg.
  - cbn [List.filter]. rewrite IH, andb_true_r. reflexivity.
  - rewrite IH, andb_false_r. reflexivity.
Qed.

Lemma filter_none {A : Type} (f : A -> bool) (l : list A) :
  (forall x, In x l -> f x = false) -> List.filter f l = [].
Proof.
  induction l as [|x l IH]; intros H; [reflexivity|].
  cbn [List.filter]. rewrite (H x) by now left.
  apply IH. intros y Hy. apply H. now right.
Qed.

(** X2. A selected record stands in the history behind every other
    accepted record of its problem that is as late as it is: of the
    records of a problem that share the latest time, the last one of the
    history is selected. *)
Theorem selection_breaks_ties_by_position (results : list Submission.t)
    (r : Submission.t) :
  In r (_get_latest_ac_subs_from_atcoder_problems results) ->
  exists l1 l2,
    results = l1 ++ r :: l2 /\
    forall r', In r' l2 -> Submission.result r' = "AC" ->
      Submission.problem_id r' = Submission.problem_id r ->
      Submission.epoch_second r' < Submission.epoch_second r.
Proof.
  intros Hr.
  destruct (proj2 (latest_ac_subs_spec results) r Hr) as (Hin & Hac & Hmax).
  unfold _get_latest_ac_subs_from_atcoder_problems, dict_values in Hr.
  fold (build_latest
          (sort_by_key Submission.epoch_second
             (List.filter (fun sub => Submission.is_ac sub) results))) in Hr.
  set (acs := sort_by_key Submission.epoch_second _) in Hr.
  apply in_map_iff in Hr as ([k v] & Hv & Hentry). cbn [snd] in Hv. subst v.
  destruct (proj2 (build_latest_spec acs) k r Hentry)
    as (Hk & s1 & s2 & Hacs & Hs2).
  set (q := fun x : Submission.t =>
              (Submission.epoch_second x =? Submission.epoch_second r)
              && String.eqb (Submission.problem_id x) (Submission.problem_id r)).
  assert (Hq : forall x, q x = true ->
                 Submission.epoch_second x = Submission.epoch_second r).
  { intros x Hx. apply andb_prop in Hx as [Hx _]. now apply Z.eqb_eq. }
  assert (Hqr : q r = true)
    by (unfold q; now rewrite Z.eqb_refl, String.eqb_refl).
  assert (Hfilter :
    List.filter (fun x => q x && Submission.is_ac x) results
    = List.filter q s1 ++ [r]).
  { transitivity (List.filter q acs).
    - unfold acs.
      rewrite (sort_by_key_stable Submission.epoch_second q _ Hq).
      now rewrite filter_filter.
    - rewrite Hacs, List.filter_app. cbn [List.filter]. rewrite Hqr.
      rewrite (filter_none q s2); [reflexivity|].
      intros x Hx. unfold q. apply andb_false_iff. right.
      apply String.eqb_neq. rewrite Hk. now apply Hs2. }
  destruct (filter_ends_with _ _ _ _ Hfilter) as (l1 & l2 & Hres & Hl2).
  exists l1, l2. split; [exact Hres|].
  intros r' Hr' Hac' Hsame.
  assert (Hle : Submission.epoch_second r' <= Submission.epoch_second r).
  { apply Hmax; [|exact Hac'|exact Hsame].
    rewrite Hres. apply in_or_app. right. now right. }
  specialize (Hl2 r' Hr'). unfold q, Submission.is_ac in Hl2.
  rewrite Hsame, String.eqb_refl, Hac', String.eqb_refl in Hl2.
  cbn [andb] in Hl2. rewrite !andb_true_r in Hl2.
  apply Z.eqb_neq in Hl2. lia.
Qed.

Lemma selection_breaks_ties_by_position_witness :
  exists l1 l2,
    [tie_second; early_other; tie_first] = l1 ++ tie_first :: l2 /\
    forall r', In r' l2 -> Submission.result r' = "AC" ->
      Submission.problem_id r' = Submission.problem_id tie_first ->
      Submission.epoch_second r' < Submission.epoch_second tie_first.
Proof.
  apply (selection_breaks_ties_by_position
           [tie_second; early_other; tie_first] tie_first).
  vm_compute. right. now left.
Defined.
Lemma sorted_after {A : Type} (key : A -> Z) (l1 l2 : list A) (x y : A) :
  StronglySorted (key_le key) (l1 ++ x :: l2) -> In y l2 -> key x <= key y.
Proof.
  induction l1 as [|z l1 IH]; cbn [app]; intros Hs Hin.
  - apply StronglySorted_inv in Hs as [_ Hall].
    rewrite List.Forall_forall in Hall. now apply Hall.
  - apply IH; [|exact Hin]. now apply StronglySorted_inv in Hs as [Hs _].
Qed.

(** The keys of the dictionary stand in the order in which their problems
    first occur in the list that was folded. *)
Lemma build_latest_key_order (l : list Submission.t)
    (ks1 ks2 ks3 : list string) (ka kb : string) :
  map fst (build_latest l) = ks1 ++ ka :: ks2 ++ kb :: ks3 ->
  exists l1 xa l2,
    l = l1 ++ xa :: l2 /\ Submission.problem_id xa = ka /\
    forall y, In y l1 -> Submission.problem_id y <> kb.
Proof.
  revert ks1 ks2 ks3 ka kb.
  induction l as [|a l IH] using rev_ind; intros ks1 ks2 ks3 ka kb Hkeys.
  - now destruct ks1.
  - rewrite build_latest_snoc in Hkeys.
    destruct (dict_set_keys (build_latest l) (Submission.problem_id a) a)
      as [Heq|[Hfresh Heq]]; rewrite Heq in Hkeys.
    + destruct (IH _ _ _ _ _ Hkeys) as (l1 & xa & l2 & -> & Hka & Hl1).
      exists l1, xa, (l2 ++ [a]). now rewrite <- app_assoc.
    + destruct ks3 as [|k ks3 _] using rev_ind.
      * replace (ks1 ++ ka :: ks2 ++ [kb]) with ((ks1 ++ ka :: ks2) ++ [kb])
          in Hkeys by now rewrite <- app_assoc.
        apply app_inj_tail in Hkeys as [Hkeys <-].
        assert (Hka : In ka (map fst (build_latest l)))
          by (rewrite Hkeys; apply in_or_app; right; now left).
        apply in_map_iff in Hka as ([k v] & Hk & Hentry). cbn [fst] in Hk.
        subst k.
        destruct (proj2 (build_latest_spec l) ka v Hentry)
          as (Hpid & l1 & l2 & -> & _).
        exists l1, v, (l2 ++ [a]). split; [now rewrite <- app_assoc|].
        split; [exact Hpid|].
        intros y Hy Heq'. apply Hfresh. rewrite <- Heq'.
        apply build_latest_keys_complete. apply in_or_app. now left.
      * replace (ks1 ++ ka :: ks2 ++ kb :: ks3 ++ [k])
          with ((ks1 ++ ka :: ks2 ++ kb :: ks3) ++ [k]) in Hkeys.
        2:{ rewrite <- app_assoc. cbn [app]. rewrite <- app_assoc.
            reflexivity. }
        apply app_inj_tail in Hkeys as [Hkeys _].
        destruct (IH _ _ _ _ _ Hkeys) as (l1 & xa & l2 & -> & Hka & Hl1).
        exists l1, xa, (l2 ++ [a]). now rewrite <- app_assoc.
Qed.

(** X3. The selection lists the problems in the order of their first
    acceptance: when [a] stands before [b] in it, the problem of [a] has an
    accepted record that is no later than any accepted record of the
    problem of [b]. *)
Theorem selection_order_by_first_acceptance (results : list Submission.t)
    (o1 o2 o3 : list Submission.t) (a b : Submission.t) :
  _get_latest_ac_subs_from_atcoder_problems results
    = o1 ++ a :: o2 ++ b :: o3 ->
  exists a0,
    In a0 results /\ Submission.result a0 = "AC" /\
    Submission.problem_id a0 = Submission.problem_id a /\
    forall b0, In b0 results -> Submission.result b0 = "AC" ->
      Submission.problem_id b0 = Submission.problem_id b ->
      Submission.epoch_second a0 <= Submission.epoch_second b0.
Proof.
  intros Hout.
  apply (f_equal (map Submission.problem_id)) in Hout.
  unfold _get_latest_ac_subs_from_atcoder_problems in Hout.
  fold (build_latest
          (sort_by_key Submission.epoch_second
             (List.filter (fun sub => Submission.is_ac sub) results)))
    in Hout.
  rewrite selection_keys, map_app in Hout. cbn [map] in Hout.
  rewrite map_app in Hout. cbn [map] in Hout.
  destruct (build_latest_key_order _ _ _ _ _ _ Hout)
    as (l1 & xa & l2 & Hacs & Hka & Hl1).
  assert (Hxa : In xa results /\ Submission.result xa = "AC").
  { apply accepted_sorted_In. rewrite Hacs. apply in_or_app. right. now left. }
  exists xa. split; [apply Hxa|]. split; [apply Hxa|]. split; [exact Hka|].
  intros b0 Hb0 Hac Hpid.
  assert (Hin : In b0 (l1 ++ xa :: l2))
    by (rewrite <- Hacs; now apply accepted_sorted_In).
  apply in_app_or in Hin as [Hin|[->|Hin]].
  - now destruct (Hl1 b0 Hin).
  - lia.
  - apply (sorted_after Submission.epoch_second l1 l2); [|exact Hin].
    rewrite <- Hacs. apply sort_by_key_sorted.
Qed.

Lemma selection_order_by_first_acceptance_witness :
  exists a0,
    In a0 [tie_first; tie_second; early_other] /\
    Submission.result a0 = "AC" /\
    Submission.problem_id a0 = "abc_d" /\
    forall b0, In b0 [tie_first; tie_second; early_other] ->
      Submission.result b0 = "AC" ->
      Submission.problem_id b0 = "abc_c" ->
      Submission.epoch_second a0 <= Submission.epoch_second b0.
Proof.
  apply (selection_order_by_first_acceptance
           [tie_first; tie_second; early_other] [] [] []
           early_other tie_second).
  vm_compute. reflexivity.
Defined.

(** ** Problem ids that the pattern rejects or tolerates *)

Section SplitRejects.
Import Re ReFacts.

Lemma str_in_underscore_cons (a : ascii) (s : string) :
  str_in "_" (String a s) = false ->
  just "_" a = false /\ str_in "_" s = false.
Proof.
  cbn [str_in String.prefix]. unfold just.
  destruct (ascii_dec "_" a) as [<-|Hne].
  - now destruct s.
  - cbn [orb]. intros ->. split; [|reflexivity].
    now apply Ascii.eqb_neq.
Qed.

Lemma split_tail_needs_underscore k st (s : string) :
  str_in "_" s = false -> exec split_tail k st s = None.
Proof.
  unfold split_tail. cbn [exec lit]. destruct s as [|a s]; [reflexivity|].
  intros Hs. apply str_in_underscore_cons in Hs as [-> _]. reflexivity.
Qed.

Lemma lazy_without_underscore k (f : mstate -> mstate) (s : string) lo st :
  str_in "_" s = false ->
  rep any false (fun st' s' => exec split_tail k (f st') s') lo None st s
  = None.
Proof.
  revert lo st. induction s as [|a s IH]; intros lo st Hs.
  - cbn [rep]. destruct lo; [|reflexivity].
    now rewrite split_tail_needs_underscore.
  - pose proof Hs as Hs'. apply str_in_underscore_cons in Hs' as [_ Hs'].
    cbn [rep]. rewrite (IH _ _ Hs').
    rewrite split_tail_needs_underscore by exact Hs.
    destruct lo, (any a); reflexivity.
Qed.

Lemma search_split_not_at_start (s : string) (n : nat) :
  search_from Submission.split_re (S n) s = None.
Proof.
  revert n. induction s as [|a s IH]; intros n.
  - reflexivity.
  - cbn [search_from]. rewrite IH. reflexivity.
Qed.

Lemma search_split_without_underscore (s : string) :
  str_in "_" s = false -> search Submission.split_re s = None.
Proof.
  intros Hs. unfold search.
  assert (Hm : match_at Submission.split_re 0 s = None).
  { unfold match_at, Submission.split_re.
    cbn [exec at_start start taken Nat.eqb andb]. fold split_tail.
    unfold plus_lazy. cbn [exec].
    apply (lazy_without_underscore accept
             (fun st' => close_group (MState 0 [] []) st')).
    exact Hs. }
  destruct s as [|a s]; cbn [search_from]; rewrite Hm; [reflexivity|].
  apply search_split_not_at_start.
Qed.
End SplitRejects.

(** X4. A problem id without an underscore is refused: both accessors
    raise [AssertionError]. *)
Theorem problem_id_without_underscore (self : Submission.t) :
  str_in "_" (Submission.problem_id self) = false ->
  Submission.get_problem_id_postfix self = Raise AssertionError /\
  Submission.get_contest_id_from_problem_id self = Raise AssertionError.
Proof.
  intros Hs.
  unfold Submission.get_problem_id_postfix,
    Submission.get_contest_id_from_problem_id, Submission._split_problem_id.
  now rewrite (search_split_without_underscore _ Hs).
Qed.

Lemma problem_id_without_underscore_witness :
  Submission.get_problem_id_postfix (sub_of_pid "practice")
    = Raise AssertionError /\
  Submission.get_contest_id_from_problem_id (sub_of_pid "practice")
    = Raise AssertionError.
Proof.
  apply (problem_id_without_underscore (sub_of_pid "practice")).
  reflexivity.
Defined.

Section SplitFinalNewline.
Import Re ReFacts.

Variable c : ascii.
Hypothesis c_not_newline : c <> newline.

Lemma split_tail_early_nl k st a q :
  exec split_tail k st (String a (q +:+ "_" +:+ String c nl)) = None.
Proof.
  unfold split_tail. cbn [exec lit].
  destruct (just "_" a); [|reflexivity].
  destruct q as [|b q]; cbn [String.append].
  - destruct (any "_"); reflexivity.
  - destruct (any b); [|reflexivity]. now destruct q as [|? [|? ?]].
Qed.

Lemma split_tail_last_nl st :
  exec split_tail accept st ("_" +:+ String c nl) =
  Some (close_group (push "_" st) (push c (push "_" st)), nl).
Proof.
  unfold split_tail. cbn [exec lit String.append].
  unfold just at 1. rewrite Ascii.eqb_refl, (any_c c c_not_newline).
  reflexivity.
Qed.

Lemma lazy_walk_nl (p : string) k (f : mstate -> mstate) st r :
  str_all any p = true ->
  exec split_tail k (f (push_all p st)) ("_" +:+ String c nl) = Some r ->
  rep any false (fun st' s' => exec split_tail k (f st') s') 0 None st
      (p +:+ "_" +:+ String c nl) = Some r.
Proof.
  revert st. induction p as [|a p IH]; intros st Hp Hr.
  - cbn [String.append push_all] in *. unfold rep at 1. now rewrite Hr.
  - cbn [str_all] in Hp. apply andb_prop in Hp as [Ha Hp].
    cbn [String.append push_all] in *. cbn [rep].
    rewrite split_tail_early_nl. cbn [orelse]. rewrite Ha.
    cbn [andb may_take].
    cbn [Nat.pred fmap option_fmap option_map]. now apply IH.
Qed.

Lemma search_split_nl (p : string) :
  p <> "" -> str_all any p = true ->
  groups <$> search Submission.split_re (p +:+ "_" +:+ String c nl)
  = Some [p; String c ""].
Proof.
  intros Hne Hp. destruct p as [|a p]; [contradiction|].
  cbn [str_all] in Hp. apply andb_prop in Hp as [Ha Hp].
  unfold search, Submission.split_re.
  fold split_tail. cbn [String.append].
  cbn [search_from match_at exec at_start start taken Nat.eqb andb].
  unfold plus_lazy. cbn [exec rep orelse].
  rewrite Ha. cbn [andb may_take Nat.pred fmap option_fmap option_map].
  erewrite (lazy_walk_nl p accept
              (fun st' => close_group (MState 0 [] []) st'));
    [|exact Hp|apply split_tail_last_nl].
  cbn [fmap option_fmap option_map]. f_equal.
  unfold to_match, close_group.
  cbn [taken caps start push app List.length groups].
  rewrite !taken_push_all, !caps_push_all. cbn [taken caps push].
  set (t := rev (list_ascii_of_string p) ++ [a]).
  assert (Ht : rev t = a :: list_ascii_of_string p)
    by (unfold t; now rewrite rev_app_distr, rev_involutive).
  replace (S (S (List.length t)) - S (List.length t))%nat with 1%nat by lia.
  rewrite Nat.sub_0_r, firstn_all. cbn [firstn rev app].
  rewrite Ht. cbn [app string_of_list_ascii].
  now rewrite string_of_list_ascii_of_string.
Qed.
End SplitFinalNewline.

(** X5. A newline at the very end of a problem id is passed over: when
    the id without it ends in an underscore and one character, after a
    part that is not empty and has no newline, both accessors return for
    the id with the newline what they return for the id without it. *)
Theorem problem_id_final_newline (self self' : Submission.t)
    (p : string) (c : ascii) :
  Submission.problem_id self = p +:+ "_" +:+ String c "" ->
  Submission.problem_id self'
    = Submission.problem_id self +:+ String newline "" ->
  p <> "" -> str_all Re.any p = true -> c <> newline ->
  Submission.get_problem_id_postfix self'
    = Submission.get_problem_id_postfix self /\
  Submission.get_contest_id_from_problem_id self'
    = Submission.get_contest_id_from_problem_id self /\
  Submission.get_contest_id_from_problem_id self' = Ok p.
Proof.
  intros Hpid Hpid' Hne Hp Hc.
  pose proof (search_split c Hc p Hne Hp) as Hs.
  pose proof (search_split_nl c Hc p Hne Hp) as Hs'.
  rewrite <- Hpid in Hs.
  replace (p +:+ "_" +:+ String c nl) with (Submission.problem_id self')
    in Hs'.
  2:{ rewrite Hpid', Hpid, !append_assoc. reflexivity. }
  unfold Submission.get_problem_id_postfix,
    Submission.get_contest_id_from_problem_id, Submission._split_problem_id.
  rewrite Hs.
  destruct (Re.search Submission.split_re (Submission.problem_id self'))
    as [m|]; [|discriminate Hs'].
  cbn [fmap option_fmap option_map] in Hs'. injection Hs' as Hg.
  unfold Re.group. rewrite Hg. cbn [Re.groups nth]. repeat split.
Qed.

Lemma problem_id_final_newline_witness :
  Submission.get_problem_id_postfix
    (sub_of_pid ("abc123_2" +:+ String newline "")) = Ok "b" /\
  Submission.get_contest_id_from_problem_id
    (sub_of_pid ("abc123_2" +:+ String newline "")) = Ok "abc123".
Proof.
  destruct (problem_id_final_newline (sub_of_pid "abc123_2")
              (sub_of_pid ("abc123_2" +:+ String newline ""))
              "abc123" "2")
    as (H1 & _ & H3); try reflexivity; try discriminate.
  split; [|exact H3]. rewrite H1. vm_compute. reflexivity.
Defined.

(** ** The effects of one call *)

Section CallEffects.
Variable html5 : string -> option string.
Variable numeric_charref : string -> string.
Variable web : string -> Page.

Abbreviation fetch_sub := (_fetch_sub html5 numeric_charref web).

Lemma get_file_path_target (sub : Submission.t) (fp : Path) :
  _get_file_path (problem_dir sub) (Submission.language sub) = Ok fp ->
  In fp (target_files sub).
Proof.
  unfold _get_file_path, target_files.
  destruct (_ || _); [intros [= <-]; now left|].
  destruct (str_in "Go" _); [intros [= <-]; right; now left|discriminate].
Qed.

(** X6. Whatever a call of [_fetch_sub] does next (skip, fetch, or raise
    for an unsupported language or a missing page), it has made the
    directory of the problem and its parents, and removed none. *)
Theorem fetch_sub_makes_directories sub driver w :
  let res := fetch_sub sub driver w in
  dirs (snd res) = dirs w ∪ list_to_set (path_chain (problem_dir sub)) /\
  problem_dir sub ∈ dirs (snd res) /\
  [DIR_SUBMISSION] ∈ dirs (snd res).
Proof.
  intros res.
  assert (Hd : dirs (snd res)
               = dirs w ∪ list_to_set (path_chain (problem_dir sub))).
  { unfold res.
    destruct (fetch_sub_cases html5 numeric_charref web sub driver w);
      reflexivity. }
  split; [exact Hd|]. rewrite Hd.
  split; apply elem_of_union_r, elem_of_list_to_set, list_elem_of_In;
    cbn; tauto.
Qed.

Lemma grows_refl subs w : grows subs w w.
Proof. repeat split; intros; (reflexivity || assumption). Qed.

Lemma grows_trans subs w1 w2 w3 :
  grows subs w1 w2 -> grows subs w2 w3 -> grows subs w1 w3.
Proof.
  intros (Hf & Hk & Hl & He & Hm & Hd) (Hf' & Hk' & Hl' & He' & Hm' & Hd').
  repeat split.
  - intros p Hp. now rewrite Hf', Hf.
  - intros p Hp. now apply Hk', Hk.
  - intros q Hq. now rewrite Hl', Hl.
  - intros q name Hpy Hgo. now rewrite He', He.
  - intros q name Hq. now apply Hm', Hm.
  - now transitivity (dirs w2).
Qed.

Lemma grows_mono subs subs' w w' :
  (forall sub, In sub subs -> In sub subs') ->
  grows subs w w' -> grows subs' w w'.
Proof.
  intros Hin (Hf & Hk & Hl & He & Hm & Hd).
  repeat split; try assumption.
  - intros p Hp. apply Hf. intros sub Hsub. now apply Hp, Hin.
  - intros q Hq. apply Hl. intros sub Hsub. now apply Hq, Hin.
Qed.

Lemma fetch_sub_grows sub driver w :
  grows [sub] w (snd (fetch_sub sub driver w)).
Proof.
  destruct (fetch_sub_cases html5 numeric_charref web sub driver w)
    as [Hfp|fp Hfp Hs|fp Hfp Hs Hweb|fp Hfp Hs Hweb
        |fp inner_html Hfp Hs Hweb];
    cbn [snd];
    try (repeat split;
         cbn [with_code with_get log with_session with_dirs files ledgers
              dirs];
         intros; (reflexivity || assumption || apply union_subseteq_l)).
  pose proof (get_file_path_target sub fp Hfp) as Htarget.
  assert (Hname : path_name fp = "Main.py" \/ path_name fp = "Main.go").
  { cbn [target_files In] in Htarget.
    destruct Htarget as [<-|[<-|[]]]; rewrite path_name_div; tauto. }
  repeat split;
    cbn [with_code with_get log with_session with_dirs files ledgers dirs].
  - intros p Hp. apply lookup_insert_ne. intros ->.
    apply (Hp sub); [now left | exact Htarget].
  - intros p Hp. destruct (decide (fp = p)) as [->|Hne].
    + rewrite lookup_insert_eq. now eexists.
    + now rewrite lookup_insert_ne.
  - intros q Hq. apply lookup_insert_ne. intros <-.
    now apply (Hq sub); [left|].
  - intros q name Hpy Hgo.
    destruct (decide (metadata_path sub = q)) as [<-|Hne];
      [|now rewrite lookup_insert_ne].
    rewrite lookup_insert_eq. cbn [mbind option_bind].
    rewrite lookup_insert_ne by (destruct Hname; congruence).
    destruct (ledgers w !! metadata_path sub); [reflexivity|].
    apply lookup_empty.
  - intros q name Hq.
    destruct (decide (metadata_path sub = q)) as [<-|Hne];
      [|now rewrite lookup_insert_ne].
    rewrite lookup_insert_eq. cbn [mbind option_bind].
    destruct (decide (path_name fp = name)) as [<-|Hne].
    + rewrite lookup_insert_eq. now eexists.
    + rewrite lookup_insert_ne by exact Hne.
      destruct (ledgers w !! metadata_path sub); [exact Hq|].
      destruct Hq as [x Hx]. discriminate Hx.
  - apply union_subseteq_l.
Qed.

(** X7. A call of [_fetch_sub] changes no file but the target file of the
    submission and no ledger but the ledger of its problem; in that
    ledger it changes no entry but the entries of the target files (an
    entry [Main.go] is kept when [Main.py] is recorded, and so is any
    other); and it removes no file and no ledger entry. *)
Theorem fetch_sub_frame sub driver w :
  let res := fetch_sub sub driver w in
  (forall p, ~ In p (target_files sub) ->
     files (snd res) !! p = files w !! p) /\
  (forall p, is_Some (files w !! p) -> is_Some (files (snd res) !! p)) /\
  (forall q, q <> metadata_path sub ->
     ledgers (snd res) !! q = ledgers w !! q) /\
  (forall file_path name,
     _get_file_path (problem_dir sub) (Submission.language sub)
       = Ok file_path ->
     name <> path_name file_path ->
     (ledgers (snd res) !! metadata_path sub) ≫= (.!! name)
     = (ledgers w !! metadata_path sub) ≫= (.!! name)) /\
  (forall q name, is_Some ((ledgers w !! q) ≫= (.!! name)) ->
     is_Some ((ledgers (snd res) !! q) ≫= (.!! name))).
Proof.
  intros res.
  destruct (fetch_sub_grows sub driver w) as (Hf & Hk & Hl & He & Hm & Hd).
  fold res in Hf, Hk, Hl, He, Hm, Hd.
  split; [|split; [exact Hk|split; [|split; [|exact Hm]]]].
  - intros p Hp. apply Hf. now intros sub' [<-|[]].
  - intros q Hq. apply Hl. now intros sub' [<-|[]].
  - intros fp name Hfp Hname. unfold res.
    destruct (fetch_sub_cases html5 numeric_charref web sub driver w)
      as [Hfp'|fp' Hfp' Hs|fp' Hfp' Hs Hweb|fp' Hfp' Hs Hweb
          |fp' inner_html Hfp' Hs Hweb];
      cbn [snd with_code with_get log with_session with_dirs ledgers];
      try reflexivity.
    rewrite Hfp in Hfp'. injection Hfp' as <-.
    rewrite lookup_insert_eq. cbn [mbind option_bind].
    rewrite lookup_insert_ne by congruence.
    destruct (ledgers w !! metadata_path sub); [reflexivity|].
    apply lookup_empty.
Qed.

(** What a call does to the sessions: a driver that is passed in is used
    again; without one, a session is opened when a page is requested. *)
Lemma fetch_sub_sessions sub driver w :
  let res := fetch_sub sub driver w in
  (sessions w <= sessions (snd res))%nat /\
  (sessions (snd res) + opened driver <= S (sessions w))%nat /\
  forall driver', fst res = Ok driver' ->
    (sessions (snd res) + opened driver = sessions w + opened driver')%nat /\
    (opened driver <= opened driver')%nat.
Proof.
  intros res. unfold res.
  destruct (fetch_sub_cases html5 numeric_charref web sub driver w);
    cbn [fst snd with_code with_get log with_session with_dirs sessions];
    destruct driver as [d|]; cbn [opened];
    (split; [lia|split; [lia|]]); intros driver' [= <-]; cbn [opened]; lia.
Qed.

Ltac events_shape :=
  rewrite <- ?app_assoc;
  split; [reflexivity|];
  split; [repeat constructor|];
  cbn [count List.filter is_get is_write_file is_write_metadata is_sleep
       is_chrome is_quit List.length];
  repeat split; try lia; try discriminate.

(** The effects that a call adds to the trace. *)
Lemma fetch_sub_events sub driver w :
  let res := fetch_sub sub driver w in
  exists evs,
    trace (snd res) = trace w ++ evs /\
    Forall paced evs /\
    count is_write_file evs = count is_sleep evs /\
    count is_write_metadata evs = count is_sleep evs /\
    (count is_sleep evs <= count is_get evs)%nat /\
    (count is_get evs <= S (count is_sleep evs))%nat /\
    (forall driver', fst res = Ok driver' ->
       count is_get evs = count is_sleep evs) /\
    count is_quit evs = 0%nat /\
    sessions (snd res) = (sessions w + count is_chrome evs)%nat /\
    (count is_sleep evs <= 1)%nat.
Proof.
  intros res. unfold res.
  destruct (fetch_sub_cases html5 numeric_charref web sub driver w)
    as [Hfp|fp Hfp Hs|fp Hfp Hs Hweb|fp Hfp Hs Hweb
        |fp inner_html Hfp Hs Hweb];
    cbn [fst snd with_code with_get log with_session with_dirs trace
         sessions].
  all: try (exists []; rewrite app_nil_r; events_shape).
  all: destruct driver as [d|].
  all: try (exists [EvGet (submission_url sub)]; events_shape).
  all: try (exists [EvChrome; EvGet (submission_url sub)]; events_shape).
  - exists [EvGet (submission_url sub); EvWriteFile fp;
            EvWriteMetadata (metadata_path sub); EvSleep WAIT_SEC].
    events_shape.
  - exists [EvChrome; EvGet (submission_url sub); EvWriteFile fp;
            EvWriteMetadata (metadata_path sub); EvSleep WAIT_SEC].
    events_shape.
Qed.
End CallEffects.
(** ** The effects of a run *)

Section RunEffects.
Variable html5 : string -> option string.
Variable numeric_charref : string -> string.
Variable web : string -> Page.

Abbreviation fetch_sub := (_fetch_sub html5 numeric_charref web).
Abbreviation loop := (fetch_loop html5 numeric_charref web).
Abbreviation run := (_fetch_from_atcoder html5 numeric_charref web).

Lemma loop_sessions subs driver w :
  let res := loop subs driver w in
  (sessions w <= sessions (snd res))%nat /\
  (sessions (snd res) + opened driver <= S (sessions w))%nat /\
  forall driver', fst res = Ok driver' ->
    (sessions (snd res) + opened driver = sessions w + opened driver')%nat.
Proof.
  revert driver w. induction subs as [|sub subs IH]; intros driver w.
  - cbn. repeat split; try lia.
    + destruct driver; cbn; lia.
    + now intros driver' [= <-].
  - cbn [fetch_loop]. unfold bind.
    destruct (fetch_sub_sessions html5 numeric_charref web sub driver w)
      as (Hlo & Hhi & Hok).
    destruct (fetch_sub sub driver w) as [[driver1|e] w1];
      cbn [fst snd] in *.
    + destruct (Hok driver1 eq_refl) as [Heq Hle].
      destruct (IH driver1 w1) as (Hlo' & Hhi' & Hok').
      repeat split; try lia.
      intros driver' Hres. specialize (Hok' driver' Hres). lia.
    + repeat split; try lia. discriminate.
Qed.

(** X8. A run of [_fetch_from_atcoder] opens at most one browser session,
    whatever the number of submissions it fetches; a run that returns has
    closed the session it opened, and a run that leaves a session open has
    raised. *)
Theorem run_opens_one_session subs w :
  let res := _fetch_from_atcoder html5 numeric_charref web subs w in
  (sessions w <= sessions (snd res) <= S (sessions w))%nat /\
  (fst res = Ok tt -> sessions (snd res) = sessions w) /\
  (sessions (snd res) = S (sessions w) -> exists e, fst res = Raise e).
Proof.
  intros res.
  assert (H : (sessions w <= sessions (snd res) <= S (sessions w))%nat /\
              (fst res = Ok tt -> sessions (snd res) = sessions w)).
  { unfold res, _fetch_from_atcoder, bind.
    destruct (loop_sessions subs None w) as (Hlo & Hhi & Hok).
    destruct (loop subs None w) as [[[d|]|e] w1]; cbn [fst snd opened] in *.
    - specialize (Hok _ eq_refl). cbn [opened] in Hok.
      unfold driver_quit, log. cbn [fst snd sessions]. lia.
    - specialize (Hok _ eq_refl). cbn [opened] in Hok.
      unfold ret. cbn [fst snd]. lia.
    - split; [lia|discriminate]. }
  destruct H as [Hb Hok]. split; [exact Hb|]. split; [exact Hok|].
  intros Hs. destruct (fst res) as [[]|e]; [|now exists e].
  specialize (Hok eq_refl). lia.
Qed.

Lemma count_app f (a b : list event) :
  count f (a ++ b) = (count f a + count f b)%nat.
Proof. unfold count. now rewrite List.filter_app, length_app. Qed.

Lemma count_none f (evs : list event) :
  count f evs = 0%nat -> forall e, In e evs -> f e = false.
Proof.
  unfold count. intros H e He. destruct (f e) eqn:Hf; [|reflexivity].
  assert (Hin : In e (List.filter f evs)) by now apply List.filter_In.
  destruct (List.filter f evs); [destruct Hin|discriminate H].
Qed.

Lemma loop_events subs driver w :
  let res := loop subs driver w in
  exists evs,
    trace (snd res) = trace w ++ evs /\
    Forall paced evs /\
    count is_write_file evs = count is_sleep evs /\
    count is_write_metadata evs = count is_sleep evs /\
    (count is_sleep evs <= count is_get evs)%nat /\
    (count is_get evs <= S (count is_sleep evs))%nat /\
    (forall driver', fst res = Ok driver' ->
       count is_get evs = count is_sleep evs) /\
    count is_quit evs = 0%nat /\
    sessions (snd res) = (sessions w + count is_chrome evs)%nat /\
    (count is_sleep evs <= List.length subs)%nat.
Proof.
  revert driver w. induction subs as [|sub subs IH]; intros driver w.
  - exists []. cbn. rewrite app_nil_r. repeat split; try lia. constructor.
  - cbn [fetch_loop]. unfold bind.
    destruct (fetch_sub_events html5 numeric_charref web sub driver w)
      as (evs1 & Ht & Hp & Hwf & Hwm & Hlo & Hhi & Hok & Hq & Hs & Hone).
    destruct (fetch_sub sub driver w) as [[driver1|e] w1];
      cbn [fst snd] in *.
    + specialize (Hok driver1 eq_refl).
      destruct (IH driver1 w1)
        as (evs2 & Ht' & Hp' & Hwf' & Hwm' & Hlo' & Hhi' & Hok' & Hq' & Hs'
            & Hlen).
      exists (evs1 ++ evs2). rewrite Ht', Ht, Hs', Hs, !count_app, app_assoc.
      cbn [List.length].
      split; [reflexivity|]. split; [now apply Forall_app|].
      repeat split; try lia.
      intros driver' Hres. specialize (Hok' driver' Hres). lia.
    + exists evs1. cbn [List.length].
      repeat split; try assumption; try lia; try discriminate.
Qed.

(** X9. The pacing of a run.  The effects that a run adds to the trace
    hold as many pauses as writes of a source file and as writes of a
    ledger, at most one pause for each submission, and every pause lasts
    [WAIT_SEC] seconds.  Every pause follows a page request of its own;
    only a run that raises can have requested a page more, the one it
    raised on. *)
Theorem run_pacing subs w :
  let res := run subs w in
  exists evs,
    trace (snd res) = trace w ++ evs /\
    Forall paced evs /\
    count is_write_file evs = count is_sleep evs /\
    count is_write_metadata evs = count is_sleep evs /\
    (count is_sleep evs <= List.length subs)%nat /\
    (count is_sleep evs <= count is_get evs <= S (count is_sleep evs))%nat /\
    (fst res = Ok tt -> count is_get evs = count is_sleep evs).
Proof.
  intros res. unfold res, _fetch_from_atcoder, bind.
  destruct (loop_events subs None w)
    as (evs & Ht & Hp & Hwf & Hwm & Hlo & Hhi & Hok & Hq & Hs & Hlen).
  destruct (loop subs None w) as [[[d|]|e] w1]; cbn [fst snd] in *.
  - specialize (Hok _ eq_refl).
    exists (evs ++ [EvQuit]). unfold driver_quit, log.
    cbn [fst snd trace]. rewrite Ht, app_assoc, !count_app. cbn.
    repeat split; try lia.
    apply Forall_app. split; [exact Hp|]. repeat constructor.
  - specialize (Hok _ eq_refl).
    exists evs. unfold ret. cbn [fst snd].
    repeat split; try assumption; lia.
  - exists evs. repeat split; try assumption; try lia. discriminate.
Qed.

(** X10. The browser session of a run, in general.  A run that raises
    never reaches [driver.quit()]: when it had opened the browser, the
    session stays open.  A run that returns has quit the browser exactly
    when it had opened it, as its last effect. *)
Theorem run_raise_keeps_session subs w :
  let res := run subs w in
  exists evs,
    trace (snd res) = trace w ++ evs /\
    (count is_chrome evs <= 1)%nat /\
    (forall e, fst res = Raise e ->
       ~ In EvQuit evs /\
       sessions (snd res) = (sessions w + count is_chrome evs)%nat) /\
    (fst res = Ok tt ->
       count is_quit evs = count is_chrome evs /\
       sessions (snd res) = sessions w /\
       (In EvChrome evs -> exists evs', evs = evs' ++ [EvQuit])).
Proof.
  intros res. unfold res, _fetch_from_atcoder, bind.
  destruct (loop_events subs None w)
    as (evs & Ht & _ & _ & _ & _ & _ & _ & Hq & Hs & _).
  destruct (loop_sessions subs None w) as (_ & Hhi & Hok).
  destruct (loop subs None w) as [[[d|]|e] w1]; cbn [fst snd opened] in *.
  - specialize (Hok _ eq_refl). cbn [opened] in Hok.
    exists (evs ++ [EvQuit]). unfold driver_quit, log.
    cbn [fst snd trace sessions]. rewrite Ht, app_assoc, !count_app. cbn.
    repeat split; try lia; try discriminate.
    intros _. now exists evs.
  - specialize (Hok _ eq_refl). cbn [opened] in Hok.
    exists evs. unfold ret. cbn [fst snd].
    repeat split; try lia; try discriminate; try assumption.
    intros Hin. exfalso.
    assert (Hc : count is_chrome evs = 0%nat) by lia.
    now pose proof (count_none _ _ Hc _ Hin).
  - exists evs. repeat split; try lia; try discriminate; try assumption.
    intros Hin. now pose proof (count_none _ _ Hq _ Hin).
Qed.

Lemma loop_app l1 l2 driver w :
  loop (l1 ++ l2) driver w
  = match loop l1 driver w with
    | (Ok driver1, w1) => loop l2 driver1 w1
    | (Raise e, w1) => (Raise e, w1)
    end.
Proof.
  revert driver w. induction l1 as [|sub l1 IH]; intros driver w;
    [reflexivity|].
  cbn [app fetch_loop]. unfold bind.
  destruct (fetch_sub sub driver w) as [[driver1|e] w1]; [apply IH|].
  reflexivity.
Qed.

(** X11. The first call that raises ends the run: the exception is the
    exception of the run, the world is left as that call left it, and the
    submissions after it are not looked at, whatever they are. *)
Theorem run_stops_at_first_raise l1 sub l2 w driver1 w1 e w2 :
  loop l1 None w = (Ok driver1, w1) ->
  fetch_sub sub driver1 w1 = (Raise e, w2) ->
  run (l1 ++ sub :: l2) w = (Raise e, w2).
Proof.
  intros Hl1 Hsub. unfold _fetch_from_atcoder, bind.
  rewrite loop_app, Hl1. cbn [fetch_loop]. unfold bind. now rewrite Hsub.
Qed.

(** X12. A run that was broken off is resumed by the next one.  When the
    submissions [l1] were gone through and the call for [sub] raised, a
    new run over the same list of submissions, of distinct problems, skips
    [l1] without any effect and starts again at [sub]. *)
Theorem rerun_resumes_at_failure l1 sub l2 w driver1 w1 e w2 :
  List.NoDup (map Submission.problem_id (l1 ++ sub :: l2)) ->
  loop l1 None w = (Ok driver1, w1) ->
  fetch_sub sub driver1 w1 = (Raise e, w2) ->
  run (l1 ++ sub :: l2) w2 = run (sub :: l2) w2 /\
  Forall (fun a => forall driver, fetch_sub a driver w2 = (Ok driver, w2)) l1.
Proof.
  intros Hnd Hl1 Hsub.
  assert (Hnd1 : List.NoDup (map Submission.problem_id l1)).
  { rewrite map_app in Hnd. now apply List.NoDup_app_remove_r in Hnd. }
  assert (Hall : Forall (settled w2) l1).
  { pose proof (loop_settles html5 numeric_charref web l1 None w driver1 w1
                  Hnd1 Hl1) as Hs.
    rewrite List.Forall_forall in Hs. apply List.Forall_forall.
    intros a Ha. apply (settled_keeps a w1 w2); [|now apply Hs].
    replace w2 with (snd (fetch_sub sub driver1 w1)) by now rewrite Hsub.
    apply fetch_keeps. intros Heq.
    rewrite map_app in Hnd. cbn [map] in Hnd.
    apply List.NoDup_remove_2 in Hnd. apply Hnd.
    apply List.in_or_app. left. rewrite Heq. now apply in_map. }
  split.
  - unfold _fetch_from_atcoder, bind. rewrite loop_app.
    now rewrite (loop_skips html5 numeric_charref web l1 None w2 Hall).
  - eapply List.Forall_impl; [|exact Hall].
    intros a Ha driver. now apply settled_skip.
Qed.

Lemma loop_grows subs driver w :
  grows subs w (snd (loop subs driver w)).
Proof.
  revert driver w. induction subs as [|sub subs IH]; intros driver w;
    [apply grows_refl|].
  cbn [fetch_loop]. unfold bind.
  pose proof (fetch_sub_grows html5 numeric_charref web sub driver w) as H1.
  assert (H1' : grows (sub :: subs) w (snd (fetch_sub sub driver w))).
  { eapply grows_mono; [|exact H1]. intros a [<-|[]]. now left. }
  destruct (fetch_sub sub driver w) as [[driver1|e] w1]; cbn [snd] in *;
    [|exact H1'].
  eapply grows_trans; [exact H1'|].
  eapply grows_mono; [|apply IH]. intros a Ha. now right.
Qed.

(** X13. What a run leaves alone.  Whether it returns or raises, a run
    over [subs] changes no file but target files of [subs] and no ledger
    but ledgers of their problems; in no ledger does it change an entry
    under another name than [Main.py] and [Main.go]; and nothing is ever
    taken away: every file, every ledger entry and every directory that
    was there before the run is there after it. *)
Theorem run_frame subs w :
  let res := run subs w in
  (forall p, (forall sub, In sub subs -> ~ In p (target_files sub)) ->
     files (snd res) !! p = files w !! p) /\
  (forall p, is_Some (files w !! p) -> is_Some (files (snd res) !! p)) /\
  (forall q, (forall sub, In sub subs -> q <> metadata_path sub) ->
     ledgers (snd res) !! q = ledgers w !! q) /\
  (forall q name, name <> "Main.py" -> name <> "Main.go" ->
     (ledgers (snd res) !! q) ≫= (.!! name)
     = (ledgers w !! q) ≫= (.!! name)) /\
  (forall q name, is_Some ((ledgers w !! q) ≫= (.!! name)) ->
     is_Some ((ledgers (snd res) !! q) ≫= (.!! name))) /\
  dirs w ⊆ dirs (snd res).
Proof.
  intros res. change (grows subs w (snd res)).
  unfold res, _fetch_from_atcoder, bind.
  pose proof (loop_grows subs None w) as H.
  destruct (loop subs None w) as [[[d|]|e] w1]; cbn [snd] in *; exact H.
Qed.
End RunEffects.

(** ** The effects of a run, on the small platform *)

Lemma run_stops_at_first_raise_witness :
  fst (sample_run ([scenario_2] ++ ruby_sub :: [early_other]) empty_world)
  = Raise TypeError.
Proof.
  rewrite (run_stops_at_first_raise html5_sample numeric_charref_sample
             sample_web [scenario_2] ruby_sub [early_other] empty_world
             (Some Chrome)
             (snd (sample_fetch_sub scenario_2 None empty_world))
             TypeError
             (snd (sample_fetch_sub ruby_sub (Some Chrome)
                     (snd (sample_fetch_sub scenario_2 None empty_world))))).
  - reflexivity.
  - vm_compute. reflexivity.
  - vm_compute. reflexivity.
Defined.

Lemma rerun_resumes_at_failure_witness :
  let w2 := snd (sample_run [scenario_2; ruby_sub; early_other] empty_world) in
  sample_run [scenario_2; ruby_sub; early_other] w2
  = sample_run [ruby_sub; early_other] w2.
Proof.
  intros w2.
  apply (rerun_resumes_at_failure html5_sample numeric_charref_sample
           sample_web [scenario_2] ruby_sub [early_other] empty_world
           (Some Chrome)
           (snd (sample_fetch_sub scenario_2 None empty_world))
           TypeError w2).
  - vm_compute. repeat constructor; cbn; intuition discriminate.
  - vm_compute. reflexivity.
  - vm_compute. reflexivity.
Defined.

(** ** What the extractor returns *)

Section ExtractShape.
Import Re ReFacts.
Variable html5 : string -> option string.
Variable numeric_charref : string -> string.

Abbreviation extract := (code_of_inner_html html5 numeric_charref).

Lemma newline_terminated_line (x : string) :
  newline_terminated (x +:+ nl) = true.
Proof.
  induction x as [|c x IH]; [reflexivity|].
  cbn [String.append newline_terminated].
  destruct (x +:+ nl) eqn:Hx; [|exact IH].
  destruct x; discriminate Hx.
Qed.

Lemma newline_terminated_app (x y : string) :
  y <> "" -> newline_terminated (x +:+ y) = newline_terminated y.
Proof.
  intros Hy. induction x as [|c x IH]; [reflexivity|].
  cbn [String.append newline_terminated].
  destruct (x +:+ y) eqn:Hx; [|exact IH].
  destruct x; [now destruct Hy | discriminate Hx].
Qed.

Lemma joined_lines_shape (f : string -> string) (items : list string) :
  let text := String.concat "" (map (fun li => f li +:+ nl) items) in
  newline_terminated text = true /\ (text = "" <-> items = []).
Proof.
  induction items as [|a items [IH1 IH2]]; [now split|].
  cbn zeta in *. cbn [map]. rewrite concat_cons.
  set (rest := String.concat "" _) in *.
  split.
  - destruct rest eqn:Hrest.
    + rewrite append_empty_r. apply newline_terminated_line.
    + now rewrite newline_terminated_app.
  - split; [|discriminate].
    intros H. destruct (f a); discriminate H.
Qed.

(** X14. Whatever the markup of the code element is, the text that
    [_get_sub_code] makes of it is empty or ends with a line feed, and it
    is empty exactly when the markup has no list item. *)
Theorem extract_newline_terminated (inner_html : string) :
  newline_terminated (extract inner_html) = true /\
  (extract inner_html = "" <-> findall li_re inner_html = []).
Proof.
  unfold code_of_inner_html.
  apply (joined_lines_shape
           (fun li => Html.unescape html5 numeric_charref
                        (remove nbsp_re (remove tag_re li)))).
Qed.

Lemma orelse_none_r {A : Type} (x : option A) : orelse x None = x.
Proof. now destruct x. Qed.

(** A match of [r] before [k] needs what [k] needs. *)
Lemma rep_needs (needle : string) p greedy (k : cont) res :
  (forall st s, k st s = Some res -> str_in needle s = true) ->
  forall s lo hi st,
    rep p greedy k lo hi st s = Some res -> str_in needle s = true.
Proof.
  intros Hk. induction s as [|c s IH]; intros lo hi st H.
  - cbn [rep] in H. rewrite orelse_none_r in H. cbn [orelse] in H.
    destruct lo; [|now destruct greedy].
    apply (Hk st). now destruct greedy.
  - cbn [rep] in H.
    assert (Hmore : (if p c && may_take hi
                     then rep p greedy k (Nat.pred lo) (Nat.pred <$> hi)
                            (push c st) s
                     else None) = Some res -> str_in needle (String c s) = true).
    { destruct (p c && may_take hi); [|discriminate].
      intros Hm. apply IH in Hm. cbn [str_in]. rewrite Hm.
      apply orb_true_r. }
    assert (Hstop : match lo with
                    | O => k st (String c s)
                    | S _ => None
                    end = Some res -> str_in needle (String c s) = true).
    { destruct lo; [apply Hk | discriminate]. }
    destruct greedy; unfold orelse in H.
    + destruct (if p c && may_take hi then _ else None) eqn:Hm;
        [apply Hmore; now rewrite <- H | now apply Hstop].
    + destruct (match lo with O => _ | S _ => None end) eqn:Hs;
        [apply Hstop; now rewrite <- H | now apply Hmore].
Qed.

Lemma exec_needs (needle : string) res (r : regex) :
  forall k : cont,
    (forall st s, k st s = Some res -> str_in needle s = true) ->
    forall st s, exec r k st s = Some res -> str_in needle s = true.
Proof.
  induction r as [|p|p lo hi greedy|r1 IH1 r2 IH2|r1 IH1 r2 IH2|r1 IH1| |];
    intros k Hk st s H; cbn [exec] in H.
  - now apply (Hk st).
  - destruct s as [|c s]; [discriminate|].
    destruct (p c); [|discriminate].
    apply Hk in H. cbn [str_in]. rewrite H. apply orb_true_r.
  - now apply (rep_needs needle p greedy k res Hk s lo hi st).
  - apply (IH1 (exec r2 k)) in H; [exact H|].
    intros st' s'. now apply IH2.
  - unfold orelse in H. destruct (exec r1 k st s) eqn:H1.
    + apply (IH1 k Hk st s). now rewrite H1.
    + now apply (IH2 k Hk st s).
  - apply (IH1 (fun st' s' => k (close_group st st') s')) in H; [exact H|].
    intros st' s'. apply Hk.
  - destruct (at_start st); [now apply (Hk st) | discriminate].
  - destruct (at_end s); [now apply (Hk st) | discriminate].
Qed.

Lemma lit_needs (l : string) (k : cont) st s res :
  exec (lit l) k st s = Some res -> String.prefix l s = true.
Proof.
  revert st s. induction l as [|c l IH]; intros st s H.
  - now destruct s.
  - cbn [lit exec] in H. destruct s as [|d s]; [discriminate|].
    unfold just in H. destruct (Ascii.eqb c d) eqn:Hc; [|discriminate].
    apply Ascii.eqb_eq in Hc as <-. apply IH in H.
    cbn [String.prefix]. now destruct (ascii_dec c c).
Qed.

Lemma str_in_prefix (needle s : string) :
  String.prefix needle s = true -> str_in needle s = true.
Proof. intros H. destruct s; cbn [str_in]; now rewrite H. Qed.

Lemma li_match_needs (pos : nat) (s : string) res :
  match_at li_re pos s = Some res ->
  str_in "<li" s = true /\ str_in "</li>" s = true.
Proof.
  unfold match_at. intros H. split.
  - apply str_in_prefix.
    apply (lit_needs "<li" _ _ _ _ H).
  - change (exec li_re accept)
      with (exec (Seq (lit "<li")
                    (Seq (star (none_of ">"))
                       (Seq (lit ">") (star_lazy any))))
              (exec (lit "</li>") accept)) in H.
    revert H. apply exec_needs.
    intros st' s' H. apply str_in_prefix.
    now apply (lit_needs "</li>" accept st' s' res).
Qed.

Lemma findall_from_none (r : regex) (needle : string) :
  (forall pos s res, match_at r pos s = Some res -> str_in needle s = true) ->
  forall s pos, str_in needle s = false -> findall_from r pos 0 s = [].
Proof.
  intros Hr. induction s as [|c s IH]; intros pos Hs; [reflexivity|].
  cbn [findall_from].
  destruct (match_at r pos (String c s)) as [[st rest]|] eqn:Hm.
  - apply Hr in Hm. congruence.
  - apply IH. cbn [str_in] in Hs. now apply orb_false_elim in Hs.
Qed.

(** X15. Markup without an opening [<li] or without a closing [</li>] has
    no list item: the extracted text is empty, whatever else the markup
    holds. *)
Theorem extract_needs_list_item (inner_html : string) :
  str_in "<li" inner_html = false \/ str_in "</li>" inner_html = false ->
  findall li_re inner_html = [] /\ extract inner_html = "".
Proof.
  intros H.
  assert (Hnone : findall li_re inner_html = []).
  { unfold findall. destruct H as [H|H].
    - apply (findall_from_none li_re "<li"); [|exact H].
      intros pos s res Hm. now apply (li_match_needs pos s res).
    - apply (findall_from_none li_re "</li>"); [|exact H].
      intros pos s res Hm. now apply (li_match_needs pos s res). }
  split; [exact Hnone|].
  unfold code_of_inner_html. now rewrite Hnone.
Qed.
End ExtractShape.

Lemma extract_needs_list_item_witness :
  code_of_inner_html html5_sample numeric_charref_sample
    "<ol><li class=L0>print(1)</ol>" = "".
Proof.
  apply (extract_needs_list_item html5_sample numeric_charref_sample
           "<ol><li class=L0>print(1)</ol>").
  right. vm_compute. reflexivity.
Defined.

(** ** The list items that are found *)

Section ListItemShape.
Import Re ReFacts.

Lemma lit_sound (l : string) (k : cont) st s res :
  exec (lit l) k st s = Some res ->
  exists s', s = l +:+ s' /\ k (push_all l st) s' = Some res.
Proof.
  revert st s. induction l as [|c l IH]; intros st s H.
  - now exists s.
  - cbn [lit exec] in H. destruct s as [|d s]; [discriminate|].
    unfold just in H. destruct (Ascii.eqb c d) eqn:Hc; [|discriminate].
    apply Ascii.eqb_eq in Hc as <-.
    destruct (IH _ _ H) as (s' & -> & Hk). now exists s'.
Qed.

Lemma rep_sound p greedy (k : cont) res :
  forall s lo hi st,
    rep p greedy k lo hi st s = Some res ->
    exists body s',
      s = body +:+ s' /\ str_all p body = true /\
      k (push_all body st) s' = Some res /\
      (greedy = false -> lo = 0%nat ->
       forall b1 b2, body = b1 +:+ b2 -> b2 <> "" ->
         k (push_all b1 st) (b2 +:+ s') = None).
Proof.
  induction s as [|c s IH]; intros lo hi st H.
  - cbn [rep] in H. rewrite orelse_none_r in H. cbn [orelse] in H.
    assert (Hk : k st "" = Some res) by (destruct lo, greedy; easy).
    exists "", "". repeat split; [exact Hk|].
    intros _ _ b1 b2 Hb Hb2. destruct b1, b2; try discriminate Hb.
    now destruct Hb2.
  - cbn [rep] in H.
    set (more := if p c && may_take hi
                 then rep p greedy k (Nat.pred lo) (Nat.pred <$> hi)
                        (push c st) s
                 else None) in H.
    set (stop := match lo with
                 | O => k st (String c s)
                 | S _ => None
                 end) in H.
    assert (Hstop : stop = Some res ->
              exists body s',
                String c s = body +:+ s' /\ str_all p body = true /\
                k (push_all body st) s' = Some res /\
                (greedy = false -> lo = 0%nat ->
                 forall b1 b2, body = b1 +:+ b2 -> b2 <> "" ->
                   k (push_all b1 st) (b2 +:+ s') = None)).
    { unfold stop. destruct lo; [|discriminate]. intros Hk.
      exists "", (String c s). repeat split; [exact Hk|].
      intros _ _ b1 b2 Hb Hb2. destruct b1, b2; try discriminate Hb.
      now destruct Hb2. }
    assert (Hmore : more = Some res ->
              (greedy = false -> stop = None) ->
              exists body s',
                String c s = body +:+ s' /\ str_all p body = true /\
                k (push_all body st) s' = Some res /\
                (greedy = false -> lo = 0%nat ->
                 forall b1 b2, body = b1 +:+ b2 -> b2 <> "" ->
                   k (push_all b1 st) (b2 +:+ s') = None)).
    { unfold more. destruct (p c) eqn:Hpc; [|discriminate].
      destruct (may_take hi); [|discriminate]. cbn [andb].
      intros Hm Hnone.
      destruct (IH _ _ _ Hm) as (body & s' & -> & Hall & Hk & Hmin).
      exists (String c body), s'. cbn [String.append str_all push_all].
      rewrite Hpc, Hall. repeat split; [exact Hk|].
      intros Hg Hlo b1 b2 Hb Hb2. subst lo.
      destruct b1 as [|c1 b1]; cbn [String.append push_all] in *.
      - subst b2. cbn [String.append]. now apply Hnone.
      - injection Hb as <- ->. now apply Hmin. }
    destruct greedy; unfold orelse in H.
    + destruct more eqn:Hm.
      * apply Hmore; [exact H | discriminate].
      * now apply Hstop.
    + destruct stop eqn:Hs.
      * now apply Hstop.
      * apply Hmore; [exact H | reflexivity].
Qed.

Lemma str_in_split (needle s : string) :
  str_in needle s = true ->
  exists b1 b2, s = b1 +:+ b2 /\ String.prefix needle b2 = true.
Proof.
  induction s as [|c s IH]; cbn [str_in]; intros H.
  - exists "", "". split; [reflexivity|]. now rewrite orb_false_r in H.
  - apply orb_prop in H as [H|H].
    + now exists "", (String c s).
    + destruct (IH H) as (b1 & b2 & -> & Hp). now exists (String c b1), b2.
Qed.

Lemma prefix_append (l x y : string) :
  String.prefix l x = true -> String.prefix l (x +:+ y) = true.
Proof.
  revert x. induction l as [|c l IH]; intros x H; [now destruct (x +:+ y)|].
  destruct x as [|d x]; [discriminate|].
  cbn [String.prefix String.append] in *.
  destruct (ascii_dec c d); [now apply IH | discriminate].
Qed.

Lemma exec_lit_prefix (l : string) st s :
  String.prefix l s = true -> exists res, exec (lit l) accept st s = Some res.
Proof.
  revert st s. induction l as [|c l IH]; intros st s H.
  - now eexists.
  - destruct s as [|d s]; [discriminate|].
    cbn [String.prefix] in H. destruct (ascii_dec c d) as [<-|]; [|discriminate].
    cbn [lit exec]. unfold just. rewrite Ascii.eqb_refl. now apply IH.
Qed.

(** A match of the pattern of list items. *)
Lemma li_match_sound (pos : nat) (s : string) st rest :
  match_at li_re pos s = Some (st, rest) ->
  exists a b,
    s = "<li" +:+ a +:+ ">" +:+ b +:+ "</li>" +:+ rest /\
    whole (to_match st) = "<li" +:+ a +:+ ">" +:+ b +:+ "</li>" /\
    str_all (none_of ">") a = true /\
    str_all any b = true /\
    str_in "</li>" b = false.
Proof.
  unfold match_at.
  change (exec li_re accept)
    with (exec (lit "<li")
            (rep (none_of ">") true
               (exec (lit ">")
                  (rep any false (exec (lit "</li>") accept) 0 None))
               0 None)).
  intros H.
  apply lit_sound in H as (s1 & -> & H).
  apply rep_sound in H as (a & s2 & -> & Ha & H & _).
  apply lit_sound in H as (s3 & -> & H).
  apply rep_sound in H as (b & s4 & -> & Hb & H & Hmin).
  apply lit_sound in H as (s5 & -> & H).
  injection H as <- <-.
  exists a, b. repeat split; try assumption.
  - rewrite <- (whole_push_all ("<li" +:+ a +:+ ">" +:+ b +:+ "</li>") pos).
    now rewrite !push_all_app.
  - destruct (str_in "</li>" b) eqn:Hin; [|reflexivity].
    apply str_in_split in Hin as (b1 & b2 & -> & Hp).
    assert (Hb2 : b2 <> "") by (intros ->; discriminate Hp).
    specialize (Hmin eq_refl eq_refl b1 b2 eq_refl Hb2).
    destruct (exec_lit_prefix "</li>"
                (push_all b1 (push_all ">" (push_all a
                   (push_all "<li" (MState pos [] [])))))
                (b2 +:+ "</li>" +:+ s5)
                (prefix_append _ _ _ Hp)) as [res Hres].
    congruence.
Qed.

Lemma findall_from_In (r : regex) (m : string) :
  forall s pos skip,
    In m (findall_from r pos skip s) ->
    exists pos' s' st rest,
      match_at r pos' s' = Some (st, rest) /\ m = whole (to_match st).
Proof.
  induction s as [|c s IH]; intros pos skip H; [destruct H|].
  cbn [findall_from] in H. destruct skip as [|n]; [|now apply IH in H].
  destruct (match_at r pos (String c s)) as [[st rest]|] eqn:Hm;
    [|now apply IH in H].
  destruct (taken st) as [|t ts]; [now apply IH in H|].
  destruct H as [<-|H]; [|now apply IH in H].
  now exists pos, (String c s), st, rest.
Qed.

(** X16. The list items that [_get_sub_code] finds.  Every item is an
    opening tag [<li ...>] without [>] among its attributes, a content,
    and the closing tag [</li>]; the content holds no line feed (the dot
    of the pattern matches none: an item whose content runs over several
    lines is not found) and no [</li>] (the item ends at the first closing
    tag). *)
Theorem list_item_shape (inner_html item : string) :
  In item (findall li_re inner_html) ->
  exists attrs content,
    item = "<li" +:+ attrs +:+ ">" +:+ content +:+ "</li>" /\
    str_all (none_of ">") attrs = true /\
    str_in (String newline "") content = false /\
    str_in "</li>" content = false.
Proof.
  intros H. apply findall_from_In in H as (pos & s & st & rest & Hm & ->).
  apply li_match_sound in Hm as (a & b & _ & Hw & Ha & Hb & Hmin).
  exists a, b. repeat split; try assumption.
  clear -Hb. induction b as [|c b IH]; [reflexivity|].
  cbn [str_all] in Hb. apply andb_prop in Hb as [Hc Hb].
  cbn [str_in]. rewrite (IH Hb), orb_false_r.
  cbn [String.prefix]. unfold any in Hc.
  destruct (ascii_dec newline c) as [<-|]; [|reflexivity].
  now rewrite Ascii.eqb_refl in Hc.
Qed.
End ListItemShape.

Lemma list_item_shape_witness :
  exists attrs content,
    "<li class=L1>b</li>"
    = "<li" +:+ attrs +:+ ">" +:+ content +:+ "</li>" /\
    str_in (String newline "") content = false.
Proof.
  destruct (list_item_shape
              ("<li>a" +:+ nl +:+ "</li><li class=L1>b</li>")
              "<li class=L1>b</li>")
    as (attrs & content & Hitem & _ & Hnl & _).
  - vm_compute. now left.
  - now exists attrs, content.
Defined.

(** ** The problem ids that are split *)

Section SplitSound.
Import Re ReFacts.

Lemma at_end_cases (s : string) :
  at_end s = true -> s = "" \/ s = nl.
Proof.
  destruct s as [|c [|d s]]; cbn [at_end]; intros H;
    [now left | right | discriminate].
  apply Ascii.eqb_eq in H as ->. reflexivity.
Qed.

Lemma any_not_newline (c : ascii) : any c = true -> c <> newline.
Proof.
  unfold any. intros H ->. now rewrite Ascii.eqb_refl in H.
Qed.

Lemma split_match_shape (s : string) st rest :
  match_at Submission.split_re 0 s = Some (st, rest) ->
  exists q c,
    c <> newline /\ q <> "" /\ str_all any q = true /\
    (s = q +:+ "_" +:+ String c "" \/ s = q +:+ "_" +:+ String c nl).
Proof.
  unfold match_at, Submission.split_re.
  cbn [exec at_start start taken Nat.eqb andb]. fold split_tail.
  unfold plus_lazy. cbn [exec].
  destruct s as [|a s]; [discriminate|].
  cbn [rep orelse]. destruct (any a) eqn:Ha; [|discriminate].
  cbn [andb may_take Nat.pred fmap option_fmap option_map].
  intros H. apply rep_sound in H as (body & s1 & -> & Hbody & H & _).
  unfold split_tail in H. cbn [exec lit] in H.
  destruct s1 as [|u s1]; [discriminate|].
  unfold just in H. destruct (Ascii.eqb "_" u) eqn:Hu; [|discriminate].
  apply Ascii.eqb_eq in Hu as <-.
  destruct s1 as [|c s1]; [discriminate|].
  destruct (any c) eqn:Hc; [|discriminate].
  destruct (at_end s1) eqn:Hend; [|discriminate].
  exists (String a body), c.
  split; [now apply any_not_newline|]. split; [discriminate|].
  split; [cbn [str_all]; now rewrite Ha|].
  cbn [String.append].
  apply at_end_cases in Hend as [->| ->]; [now left | now right].
Qed.

Lemma search_split_shape (s : string) (m : Match) :
  search Submission.split_re s = Some m ->
  exists q c,
    c <> newline /\ q <> "" /\ str_all any q = true /\
    (s = q +:+ "_" +:+ String c "" \/ s = q +:+ "_" +:+ String c nl) /\
    groups m = [q; String c ""].
Proof.
  unfold search. intros H.
  assert (Hm : exists st rest,
             match_at Submission.split_re 0 s = Some (st, rest)).
  { destruct s as [|a s]; cbn [search_from] in H;
      destruct (match_at Submission.split_re 0 _) as [[st rest]|];
      try (now exists st, rest); try discriminate H.
    now rewrite search_split_not_at_start in H. }
  destruct Hm as (st & rest & Hm).
  destruct (split_match_shape s st rest Hm) as (q & c & Hc & Hq & Hall & Hs).
  exists q, c. repeat split; try assumption.
  destruct Hs as [-> | ->].
  - pose proof (search_split c Hc q Hq Hall) as Hs. unfold search in Hs.
    rewrite Hs in H. now injection H as <-.
  - pose proof (search_split_nl c Hc q Hq Hall) as Hs. unfold search in Hs.
    rewrite H in Hs. cbn [fmap option_fmap option_map] in Hs.
    now injection Hs.
Qed.
End SplitSound.

(** X17. The problem ids that the accessors take, exactly.
    [get_contest_id_from_problem_id] returns [q] when, and only when, the
    problem id is [q], an underscore and one character [c], possibly
    followed by one line feed, where [q] is not empty and neither [q] nor
    [c] holds a line feed; in every other case it raises
    [AssertionError].  The prefix [q] may itself end with an underscore
    and [c] may be an underscore: [a__] is split into [a] and [_]. *)
Theorem contest_id_exactly (self : Submission.t) (q : string) :
  (Submission.get_contest_id_from_problem_id self = Ok q <->
   exists c,
     c <> newline /\ q <> "" /\ str_all Re.any q = true /\
     (Submission.problem_id self = q +:+ "_" +:+ String c "" \/
      Submission.problem_id self = q +:+ "_" +:+ String c nl)) /\
  (forall e, Submission.get_contest_id_from_problem_id self = Raise e ->
     e = AssertionError).
Proof.
  unfold Submission.get_contest_id_from_problem_id,
    Submission._split_problem_id.
  split; [|destruct (Re.search _ _); now intros e [= <-]].
  split.
  - destruct (Re.search Submission.split_re (Submission.problem_id self))
      as [m|] eqn:Hm; [|discriminate].
    intros [= <-].
    apply search_split_shape in Hm as (q & c & Hc & Hq & Hall & Hs & Hg).
    exists c. unfold Re.group. rewrite Hg. cbn [nth]. now repeat split.
  - intros (c & Hc & Hq & Hall & [Hs|Hs]); rewrite Hs.
    + now rewrite (search_split c Hc q Hq Hall).
    + pose proof (search_split_nl c Hc q Hq Hall) as Hg.
      destruct (Re.search Submission.split_re _) as [m|]; [|discriminate Hg].
      cbn [fmap option_fmap option_map] in Hg. injection Hg as Hg.
      unfold Re.group. now rewrite Hg.
Qed.

(** X18. A superscript digit after the final underscore: [str.isdigit]
    takes it for a digit and [int] refuses it, so [get_problem_id_postfix]
    raises [ValueError], while [get_contest_id_from_problem_id] returns
    the prefix. *)
Theorem postfix_superscript_digit (self : Submission.t) (p : string)
    (c : ascii) :
  Submission.problem_id self = p +:+ "_" +:+ String c "" ->
  p <> "" -> str_all Re.any p = true ->
  is_digit_char c = true -> is_ascii_digit c = false ->
  Submission.get_problem_id_postfix self = Raise ValueError /\
  Submission.get_contest_id_from_problem_id self = Ok p.
Proof.
  intros Hpid Hp Hall Hd Ha.
  assert (Hc : c <> newline) by (intros ->; discriminate Hd).
  unfold Submission.get_problem_id_postfix,
    Submission.get_contest_id_from_problem_id, Submission._split_problem_id.
  rewrite Hpid, (search_split c Hc p Hp Hall).
  cbn [Re.group nth Re.groups str_isdigit str_all py_int int_digits].
  now rewrite Hd, Ha.
Qed.

Lemma postfix_superscript_digit_witness :
  Submission.get_problem_id_postfix
    (sub_of_pid ("abc_" +:+ String (ascii_of_nat 178) ""))
  = Raise ValueError.
Proof.
  apply (postfix_superscript_digit
           (sub_of_pid ("abc_" +:+ String (ascii_of_nat 178) ""))
           "abc" (ascii_of_nat 178)); try reflexivity.
  discriminate.
Defined.

(** ** The command line *)

Section CliFacts.
Variable html5 : string -> option string.
Variable numeric_charref : string -> string.
Variable web : string -> Page.
Variable toml_load : string -> answer (list (string * toml)).
Variable requests_get_json : string -> answer (list Submission.t).
Variable json_dump : list Submission.t -> string.

Abbreviation run := (_fetch_from_atcoder html5 numeric_charref web).
Abbreviation loop := (fetch_loop html5 numeric_charref web).
Abbreviation select := _get_latest_ac_subs_from_atcoder_problems.
Abbreviation main' :=
  (main html5 numeric_charref web toml_load requests_get_json json_dump).

Lemma main_unfold args w :
  main' args w
  = match user_id_of toml_load args w with
    | (Val user_id, w1) =>
        (let+ subs :=
           latest_ac_subs_of_user requests_get_json json_dump user_id in
         of_M (run subs)) w1
    | (Err e, w1) => (Err e, w1)
    end.
Proof. reflexivity. Qed.

Lemma user_id_of_config_file w :
  user_id_of toml_load None w
  = match files w !! config_file with
    | Some text =>
        match toml_load text with
        | Val config =>
            match default (TTable []) (toml_get config "atcoder") with
            | TTable config_atcoder =>
                (Val (toml_get config_atcoder "user_id"), w)
            | _ => (Err AttributeError, w)
            end
        | Err e => (Err e, w)
        end
    | None => (Val None, w)
    end.
Proof.
  unfold user_id_of, bindW, of_M, file_exists, load_config.
  destruct (files w !! config_file) as [text|] eqn:Hcfg.
  - rewrite bool_decide_eq_true_2 by (now eexists). rewrite Hcfg.
    destruct (toml_load text) as [config|e]; [|reflexivity].
    now destruct (default (TTable []) (toml_get config "atcoder")).
  - rewrite bool_decide_eq_false_2 by (intros [x Hx]; discriminate Hx).
    reflexivity.
Qed.

Lemma user_id_of_world args w :
  snd (user_id_of toml_load args w) = w.
Proof.
  destruct args as [s|]; [reflexivity|].
  rewrite user_id_of_config_file.
  destruct (files w !! config_file) as [text|]; [|reflexivity].
  destruct (toml_load text) as [config|e]; [|reflexivity].
  now destruct (default (TTable []) (toml_get config "atcoder")).
Qed.

Lemma user_id_of_config args w w' :
  files w' !! config_file = files w !! config_file ->
  fst (user_id_of toml_load args w') = fst (user_id_of toml_load args w).
Proof.
  intros Hcfg. destruct args as [s|]; [reflexivity|].
  rewrite !user_id_of_config_file, Hcfg.
  destruct (files w !! config_file) as [text|]; [|reflexivity].
  destruct (toml_load text) as [config|e]; [|reflexivity].
  now destruct (default (TTable []) (toml_get config "atcoder")).
Qed.

Lemma open_write_results (text : string) w :
  open_write results_file text w
  = if bool_decide ([DIR_SUBMISSION] ∈ dirs w)
    then (Val tt, with_results text w)
    else (Err FileNotFoundError, w).
Proof. reflexivity. Qed.

Lemma with_results_id (text : string) w :
  files w !! results_file = Some text ->
  with_results text w = log (EvWriteFile results_file) w.
Proof.
  intros H. unfold with_results. rewrite (insert_id _ _ _ H).
  now destruct w.
Qed.

(** What a run of [main] that returns has gone through. *)
Lemma main_returns args w w' :
  main' args w = (Val tt, w') ->
  exists user_id results,
    user_id_of toml_load args w = (Val (Some (TStr user_id)), w) /\
    requests_get_json (api_path +:+ user_id) = Val results /\
    [DIR_SUBMISSION] ∈ dirs w /\
    run (select results) (with_results (json_dump results) w) = (Ok tt, w').
Proof.
  rewrite main_unfold. pose proof (user_id_of_world args w) as Hw.
  destruct (user_id_of toml_load args w) as [[user_id|e] w1];
    cbn [snd] in Hw; subst w1; [|discriminate].
  unfold latest_ac_subs_of_user, _get_results_from_atcoder_problems, bindW.
  destruct user_id as [[s| |]|]; try discriminate.
  destruct (requests_get_json (api_path +:+ s)) as [results|e] eqn:Hreq;
    [|discriminate].
  rewrite open_write_results.
  destruct (bool_decide ([DIR_SUBMISSION] ∈ dirs w)) eqn:Hdir;
    [|discriminate].
  apply bool_decide_eq_true in Hdir. unfold retW.
  unfold of_M. intros H. exists s, results.
  repeat split; try assumption.
  destruct (run _ _) as [[[]|e] w2]; [|discriminate].
  now injection H as <-.
Qed.

Lemma not_target (sub : Submission.t) (name : string) :
  ~ In ([DIR_SUBMISSION] // name) (target_files sub).
Proof.
  unfold target_files, problem_dir, path_div. cbn [app In].
  intros [H|[H|[]]]; discriminate H.
Qed.

(** X19. Without a user id, [main] raises [TypeError], from the
    concatenation of the address, before any request: when [--user-id] is
    not given and [config.toml] is not there, has no [atcoder] table, or
    has one without a string under [user_id], nothing is requested and
    nothing is changed. *)
Theorem main_without_user_id w :
  (files w !! config_file = None \/
   exists text config,
     files w !! config_file = Some text /\
     toml_load text = Val config /\
     (toml_get config "atcoder" = None \/
      exists config_atcoder,
        toml_get config "atcoder" = Some (TTable config_atcoder) /\
        forall s, toml_get config_atcoder "user_id" <> Some (TStr s))) ->
  main html5 numeric_charref web toml_load requests_get_json json_dump
    None w
  = (Err (Exn TypeError), w).
Proof.
  intros H. rewrite main_unfold, user_id_of_config_file.
  destruct H as [Hnone|(text & config & Hsome & Hload & H)].
  - now rewrite Hnone.
  - rewrite Hsome, Hload.
    destruct H as [Hnone|(config_atcoder & Htable & Huser)].
    + now rewrite Hnone.
    + rewrite Htable. cbn [default from_option id].
      unfold latest_ac_subs_of_user, _get_results_from_atcoder_problems,
        bindW.
      destruct (toml_get config_atcoder "user_id") as [[s| |]|];
        try reflexivity.
      now destruct (Huser s).
Qed.

(** X20. On a tree without the directory [atcoder-submissions], [main]
    fetches nothing: it raises and leaves the tree as it is.  When the
    request for the history succeeds, the exception is the
    [FileNotFoundError] of the dump to [results.json]: the directory is
    made by [_fetch_sub] only, which is not reached. *)
Theorem main_needs_submission_directory args w :
  [DIR_SUBMISSION] ∉ dirs w ->
  (exists e,
     main html5 numeric_charref web toml_load requests_get_json json_dump
       args w = (Err e, w)) /\
  (forall user_id results,
     args = Some user_id ->
     requests_get_json (api_path +:+ user_id) = Val results ->
     main html5 numeric_charref web toml_load requests_get_json json_dump
       args w = (Err FileNotFoundError, w)).
Proof.
  intros Hdir.
  assert (Hdump : forall text,
            open_write results_file text w = (Err FileNotFoundError, w)).
  { intros text. rewrite open_write_results.
    now rewrite bool_decide_eq_false_2. }
  split.
  - rewrite main_unfold. pose proof (user_id_of_world args w) as Hw.
    destruct (user_id_of toml_load args w) as [[user_id|e] w1];
      cbn [snd] in Hw; subst w1; [|now exists e].
    unfold latest_ac_subs_of_user, _get_results_from_atcoder_problems, bindW.
    destruct user_id as [[s| |]|]; try (now eexists).
    destruct (requests_get_json (api_path +:+ s)) as [results|e];
      [|now exists e].
    rewrite Hdump. now eexists.
  - intros user_id results -> Hreq.
    unfold main, latest_ac_subs_of_user, _get_results_from_atcoder_problems,
      bindW, retW.
    now rewrite Hreq, Hdump.
Qed.

(** X21. When [main] returns, [results.json] holds the dump of the whole
    history that the API gave for the user, the submissions that are not
    accepted with the others, and [config.toml] is as it was. *)
Theorem main_dumps_history args w w' :
  main html5 numeric_charref web toml_load requests_get_json json_dump
    args w = (Val tt, w') ->
  exists user_id results,
    requests_get_json (api_path +:+ user_id) = Val results /\
    files w' !! results_file = Some (json_dump results) /\
    files w' !! config_file = files w !! config_file /\
    (forall s, args = Some s -> user_id = s).
Proof.
  intros H.
  destruct (main_returns _ _ _ H)
    as (user_id & results & Hid & Hreq & _ & Hrun).
  exists user_id, results. split; [exact Hreq|].
  pose proof (loop_grows html5 numeric_charref web (select results) None
                (with_results (json_dump results) w)) as Hg.
  assert (Hw' : files w' = files (snd (loop (select results) None
                                       (with_results (json_dump results) w)))).
  { unfold _fetch_from_atcoder, bind in Hrun.
    destruct (loop _ _ _) as [[[d|]|e] w2]; try discriminate Hrun;
      now injection Hrun as <-. }
  destruct Hg as (Hf & _). rewrite Hw'.
  split; [|split].
  - rewrite Hf by (intros sub _; apply not_target).
    cbn [with_results log files]. apply lookup_insert_eq.
  - rewrite Hf by (intros sub _; apply not_target).
    cbn [with_results log files]. now apply lookup_insert_ne.
  - intros s ->. cbn [user_id_of retW] in Hid. now injection Hid as <-.
Qed.

(** X22. A second run of [main], with the same configuration and the same
    answer of the API, fetches nothing: it writes [results.json] again,
    with the text that is there, and does nothing else (no session, no
    page, no source file, no ledger, no pause). *)
Theorem main_second_run args w w' :
  main html5 numeric_charref web toml_load requests_get_json json_dump
    args w = (Val tt, w') ->
  main html5 numeric_charref web toml_load requests_get_json json_dump
    args w'
  = (Val tt, log (EvWriteFile results_file) w').
Proof.
  intros H.
  destruct (main_returns _ _ _ H)
    as (user_id & results & Hid & Hreq & Hdir & Hrun).
  set (subs := select results) in *.
  set (w1 := with_results (json_dump results) w) in *.
  assert (Hnd : List.NoDup (map Submission.problem_id subs))
    by apply (latest_ac_subs_spec results).
  pose proof (loop_grows html5 numeric_charref web subs None w1) as Hg.
  assert (Hloop : exists driver w2,
            loop subs None w1 = (Ok driver, w2) /\
            files w' = files w2 /\ ledgers w' = ledgers w2 /\
            dirs w' = dirs w2).
  { unfold _fetch_from_atcoder, bind in Hrun.
    destruct (loop subs None w1) as [[[d|]|e] w2]; try discriminate Hrun;
      injection Hrun as <-; now eexists _, _. }
  destruct Hloop as (driver & w2 & Hloop & Hfiles & Hledgers & Hdirs).
  rewrite Hloop in Hg. cbn [snd] in Hg.
  destruct Hg as (Hf & _ & _ & _ & _ & Hd).
  assert (Hres : files w' !! results_file = Some (json_dump results)).
  { rewrite Hfiles, Hf by (intros sub _; apply not_target).
    cbn [w1 with_results log files]. apply lookup_insert_eq. }
  assert (Hcfg : files w' !! config_file = files w !! config_file).
  { rewrite Hfiles, Hf by (intros sub _; apply not_target).
    cbn [w1 with_results log files]. now apply lookup_insert_ne. }
  assert (Hdir' : [DIR_SUBMISSION] ∈ dirs w').
  { rewrite Hdirs. apply Hd. exact Hdir. }
  assert (Hsettled : Forall (settled (log (EvWriteFile results_file) w')) subs).
  { pose proof (loop_settles html5 numeric_charref web subs None w1 driver w2
                  Hnd Hloop) as Hs.
    eapply List.Forall_impl; [|exact Hs].
    intros a. apply settled_keeps. unfold keeps. cbn [log files ledgers dirs].
    rewrite Hfiles, Hledgers, Hdirs. now repeat split. }
  rewrite main_unfold.
  pose proof (user_id_of_world args w') as Hw.
  pose proof (user_id_of_config args w w' Hcfg) as Hu.
  rewrite Hid in Hu. cbn [fst] in Hu.
  destruct (user_id_of toml_load args w') as [u w3]. cbn [fst snd] in *.
  subst u w3.
  unfold latest_ac_subs_of_user, _get_results_from_atcoder_problems, bindW.
  rewrite Hreq, open_write_results.
  rewrite bool_decide_eq_true_2 by exact Hdir'.
  rewrite (with_results_id _ _ Hres). unfold retW.
  unfold of_M, _fetch_from_atcoder, bind. fold subs.
  now rewrite (loop_skips html5 numeric_charref web subs None _ Hsettled).
Qed.
End CliFacts.

(** ** The command line, on the small platform *)

Lemma main_without_user_id_witness :
  sample_main None prepared_world = (Err (Exn TypeError), prepared_world).
Proof.
  apply (main_without_user_id html5_sample numeric_charref_sample sample_web
           toml_load_sample requests_sample json_dump_sample prepared_world).
  left. reflexivity.
Defined.

Lemma main_needs_submission_directory_witness :
  sample_main (Some "alice") empty_world
  = (Err FileNotFoundError, empty_world).
Proof.
  destruct (main_needs_submission_directory html5_sample
              numeric_charref_sample sample_web toml_load_sample
              requests_sample json_dump_sample (Some "alice") empty_world)
    as [_ H].
  - apply not_elem_of_empty.
  - apply (H "alice" [scenario_1; scenario_2; scenario_3]); reflexivity.
Defined.

Lemma main_dumps_history_witness :
  files (snd (sample_main (Some "alice") prepared_world)) !! results_file
  = Some "1,2,3".
Proof.
  destruct (main_dumps_history html5_sample numeric_charref_sample sample_web
              toml_load_sample requests_sample json_dump_sample
              (Some "alice") prepared_world
              (snd (sample_main (Some "alice") prepared_world)))
    as (user_id & results & Hreq & Hres & _ & Hid).
  - vm_compute. reflexivity.
  - rewrite Hres. rewrite (Hid "alice" eq_refl) in Hreq.
    vm_compute in Hreq. injection Hreq as <-. reflexivity.
Defined.

Lemma main_second_run_witness :
  let w' := snd (sample_main (Some "alice") prepared_world) in
  sample_main (Some "alice") w'
  = (Val tt, log (EvWriteFile results_file) w').
Proof.
  intros w'.
  apply (main_second_run html5_sample numeric_charref_sample sample_web
           toml_load_sample requests_sample json_dump_sample
           (Some "alice") prepared_world w').
  vm_compute. reflexivity.
Defined.

(** ** What a run that returns has done *)

Section RunPostcondition.
Variable html5 : string -> option string.
Variable numeric_charref : string -> string.
Variable web : string -> Page.

Abbreviation fetch_sub := (_fetch_sub html5 numeric_charref web).
Abbreviation loop := (fetch_loop html5 numeric_charref web).
Abbreviation run := (_fetch_from_atcoder html5 numeric_charref web).
Abbreviation extract := (code_of_inner_html html5 numeric_charref).
Abbreviation kept_or_got := (kept_or_fetched html5 numeric_charref web).

Lemma fetch_sub_kept_or_fetched sub driver w driver' w' :
  fetch_sub sub driver w = (Ok driver', w') -> kept_or_got w w' sub.
Proof.
  intros Hrun.
  destruct (fetch_sub_cases html5 numeric_charref web sub driver w)
    as [Hfp|fp Hfp Hs|fp Hfp Hs Hweb|fp Hfp Hs Hweb
        |fp inner_html Hfp Hs Hweb];
    try discriminate Hrun; injection Hrun as <- <-;
    exists fp; (split; [exact Hfp|]).
  - now left.
  - right. exists inner_html. split; [exact Hweb|].
    cbn [with_code files]. apply lookup_insert_eq.
Qed.

Lemma target_files_disjoint (a b : Submission.t) (p : Path) :
  Submission.problem_id a <> Submission.problem_id b ->
  In p (target_files a) -> ~ In p (target_files b).
Proof.
  unfold target_files, problem_dir, path_div. cbn [app In].
  intros Hne [<-|[<-|[]]] [H|[H|[]]]; injection H as H1 H2; congruence.
Qed.

Lemma kept_or_fetched_before a subs w w1 w' :
  Forall (fun sub => Submission.problem_id sub <> Submission.problem_id a)
         subs ->
  grows subs w w1 -> kept_or_got w1 w' a -> kept_or_got w w' a.
Proof.
  intros Hne (Hf & _) (fp & Hfp & H). exists fp. split; [exact Hfp|].
  assert (Hkeep : files w1 !! fp = files w !! fp).
  { apply Hf. intros sub Hsub Hin.
    rewrite List.Forall_forall in Hne.
    apply (target_files_disjoint sub a fp (Hne sub Hsub) Hin).
    now apply get_file_path_target. }
  destruct H as [H|H]; [left; congruence | now right].
Qed.

Lemma kept_or_fetched_after a subs w w1 w' :
  Forall (fun sub => Submission.problem_id sub <> Submission.problem_id a)
         subs ->
  grows subs w1 w' -> kept_or_got w w1 a -> kept_or_got w w' a.
Proof.
  intros Hne (Hf & _) (fp & Hfp & H). exists fp. split; [exact Hfp|].
  assert (Hkeep : files w' !! fp = files w1 !! fp).
  { apply Hf. intros sub Hsub Hin.
    rewrite List.Forall_forall in Hne.
    apply (target_files_disjoint sub a fp (Hne sub Hsub) Hin).
    now apply get_file_path_target. }
  destruct H as [H|(inner_html & Hweb & H)].
  - left. congruence.
  - right. exists inner_html. split; [exact Hweb | congruence].
Qed.

Lemma loop_kept_or_fetched subs driver w driver' w' :
  List.NoDup (map Submission.problem_id subs) ->
  loop subs driver w = (Ok driver', w') ->
  Forall (kept_or_got w w') subs.
Proof.
  revert driver w. induction subs as [|sub subs IH]; intros driver w Hnd Hrun;
    [constructor|].
  cbn [map] in Hnd. apply List.NoDup_cons_iff in Hnd as [Hnin Hnd].
  assert (Hne : Forall (fun a => Submission.problem_id a
                                 <> Submission.problem_id sub) subs).
  { apply List.Forall_forall. intros a Ha Heq. apply Hnin.
    rewrite <- Heq. now apply in_map. }
  cbn [fetch_loop] in Hrun. unfold bind in Hrun.
  destruct (fetch_sub sub driver w) as [[driver1|e] w1] eqn:Hstep;
    [|discriminate Hrun].
  pose proof (loop_grows html5 numeric_charref web subs driver1 w1) as Hg.
  rewrite Hrun in Hg. cbn [snd] in Hg.
  pose proof (fetch_sub_grows html5 numeric_charref web sub driver w) as Hg1.
  rewrite Hstep in Hg1. cbn [snd] in Hg1.
  constructor.
  - apply (kept_or_fetched_after sub subs w w1 w' Hne Hg).
    eapply fetch_sub_kept_or_fetched; exact Hstep.
  - specialize (IH _ _ Hnd Hrun).
    rewrite List.Forall_forall in IH. apply List.Forall_forall.
    intros a Ha.
    apply (kept_or_fetched_before a [sub] w w1 w'); [|exact Hg1|now apply IH].
    constructor; [|constructor].
    intros Heq. apply Hnin. rewrite Heq. now apply in_map.
Qed.

Lemma run_loop subs w w' :
  run subs w = (Ok tt, w') ->
  exists driver w1,
    loop subs None w = (Ok driver, w1) /\
    files w' = files w1 /\ ledgers w' = ledgers w1 /\ dirs w' = dirs w1.
Proof.
  unfold _fetch_from_atcoder, bind. intros Hrun.
  destruct (loop subs None w) as [[[d|]|e] w1]; try discriminate Hrun;
    injection Hrun as <-; now eexists _, _.
Qed.

(** X23. What a run that returns has done, for submissions of distinct
    problems: every submission has a target file, this file exists, the
    ledger of the problem records the submission under the name of the
    file, and the file is as it was before the run (the submission was
    skipped) or holds the text extracted from the page of the submission;
    no later fetch of the run has written over it. *)
Theorem run_postcondition subs w w' :
  List.NoDup (map Submission.problem_id subs) ->
  _fetch_from_atcoder html5 numeric_charref web subs w = (Ok tt, w') ->
  Forall (fun sub =>
            exists file_path,
              _get_file_path (problem_dir sub) (Submission.language sub)
                = Ok file_path /\
              already_synchronised w' sub file_path /\
              (files w' !! file_path = files w !! file_path \/
               exists inner_html,
                 web (submission_url sub) = CodeElement inner_html /\
                 files w' !! file_path = Some (extract inner_html)))
         subs.
Proof.
  intros Hnd Hrun.
  destruct (run_loop subs w w' Hrun)
    as (driver & w1 & Hloop & Hfiles & Hledgers & Hdirs).
  pose proof (loop_settles html5 numeric_charref web subs None w driver w1
                Hnd Hloop) as Hs.
  pose proof (loop_kept_or_fetched subs None w driver w1 Hnd Hloop) as Hk.
  rewrite List.Forall_forall in Hs, Hk. apply List.Forall_forall.
  intros sub Hsub.
  destruct (Hs sub Hsub) as (fp & Hfp & Hsync & _).
  destruct (Hk sub Hsub) as (fp' & Hfp' & Hfile).
  rewrite Hfp in Hfp'. injection Hfp' as <-.
  exists fp. split; [exact Hfp|]. split.
  - unfold already_synchronised in *. now rewrite Hfiles, Hledgers.
  - now rewrite Hfiles.
Qed.

Lemma selection_complete (results : list Submission.t) (r : Submission.t) :
  In r results -> Submission.result r = "AC" ->
  exists sub,
    In sub (_get_latest_ac_subs_from_atcoder_problems results) /\
    Submission.problem_id sub = Submission.problem_id r.
Proof.
  intros Hin Hac.
  assert (Hp : In (Submission.problem_id r)
                 (map Submission.problem_id
                    (_get_latest_ac_subs_from_atcoder_problems results))).
  { unfold _get_latest_ac_subs_from_atcoder_problems.
    fold (build_latest
            (sort_by_key Submission.epoch_second
               (List.filter (fun sub => Submission.is_ac sub) results))).
    rewrite selection_keys. apply build_latest_keys_complete.
    now apply accepted_sorted_In. }
  apply in_map_iff in Hp as (sub & Hpid & Hsub). now exists sub.
Qed.

(** X24. The selection and the fetch together.  When the run over the
    selection of a history returns, every problem that has an accepted
    record in the history is synchronised with an accepted record of that
    problem that is at least as late as any other: its target file exists
    and the ledger of the problem records that submission. *)
Theorem run_synchronises_history (results : list Submission.t) w w' :
  _fetch_from_atcoder html5 numeric_charref web
    (_get_latest_ac_subs_from_atcoder_problems results) w = (Ok tt, w') ->
  forall r, In r results -> Submission.result r = "AC" ->
    exists sub file_path,
      In sub results /\ Submission.result sub = "AC" /\
      Submission.problem_id sub = Submission.problem_id r /\
      Submission.epoch_second r <= Submission.epoch_second sub /\
      _get_file_path (problem_dir sub) (Submission.language sub)
        = Ok file_path /\
      already_synchronised w' sub file_path.
Proof.
  intros Hrun r Hin Hac.
  destruct (latest_ac_subs_spec results) as [Hnd Hmax].
  destruct (selection_complete results r Hin Hac) as (sub & Hsub & Hpid).
  destruct (Hmax sub Hsub) as (Hin' & Hac' & Hle).
  destruct (run_loop _ w w' Hrun)
    as (driver & w1 & Hloop & Hfiles & Hledgers & Hdirs).
  pose proof (loop_settles html5 numeric_charref web _ None w driver w1
                Hnd Hloop) as Hs.
  rewrite List.Forall_forall in Hs.
  destruct (Hs sub Hsub) as (fp & Hfp & Hsync & _).
  exists sub, fp. repeat split; try assumption.
  - now apply Hle.
  - unfold already_synchronised in *. rewrite Hfiles. apply Hsync.
  - unfold already_synchronised in *. rewrite Hledgers. apply Hsync.
Qed.
End RunPostcondition.

Lemma run_postcondition_witness :
  exists file_path,
    _get_file_path (problem_dir scenario_2) (Submission.language scenario_2)
      = Ok file_path /\
    already_synchronised (snd (sample_run [scenario_2] empty_world))
      scenario_2 file_path.
Proof.
  pose proof (run_postcondition html5_sample numeric_charref_sample sample_web
                [scenario_2] empty_world
                (snd (sample_run [scenario_2] empty_world))) as H.
  assert (Hnd : List.NoDup (map Submission.problem_id [scenario_2]))
    by (repeat constructor; intros []).
  assert (Hrun : sample_run [scenario_2] empty_world
                 = (Ok tt, snd (sample_run [scenario_2] empty_world)))
    by (vm_compute; reflexivity).
  specialize (H Hnd Hrun). apply List.Forall_inv in H.
  destruct H as (fp & Hfp & Hsync & _).
  exists fp. split; [exact Hfp | exact Hsync].
Defined.

Lemma run_synchronises_history_witness :
  exists sub file_path,
    Submission.epoch_second scenario_1 <= Submission.epoch_second sub /\
    already_synchronised
      (snd (sample_run [scenario_2] empty_world)) sub file_path.
Proof.
  destruct (run_synchronises_history html5_sample numeric_charref_sample
              sample_web [scenario_1; scenario_2; scenario_3] empty_world
              (snd (sample_run [scenario_2] empty_world)))
    with (r := scenario_1)
    as (sub & fp & _ & _ & _ & Hle & _ & Hsync).
  - vm_compute. reflexivity.
  - now left.
  - reflexivity.
  - exists sub, fp. split; [exact Hle | exact Hsync].
Defined.
